(** * The Markdown-to-Mintlify pipeline of [pipeline/tools/parser.py]

    A shallow embedding of the recursive-descent [Parser], of the AST and of
    [MintPrinter], with the entry point [to_mint], followed by the properties
    of the specification that concern them.

    Conventions of the embedding.
    - Python [int] is [Z]; [str] is [string].  Characters are bytes: the
      whitespace class and the case mapping are those of the ASCII range, so
      the model speaks of ASCII text.
    - A method of [Parser] or [MintPrinter] is a function that takes the
      object's fields as a record and returns the updated record; an exception
      is a value of [Exn] carried by [Raise].
    - Loops whose body may call [_parse_block] are bounded by a fuel argument;
      [OutOfFuel] is returned only when that bound is exhausted and stands for
      a computation that has not finished yet, never for a Python result. *)

From Stdlib Require Import ZArith List Bool Ascii String Lia DecimalString.
Import ListNotations.
Set Warnings "-register-all".
Open Scope list_scope.
Open Scope string_scope.
Open Scope Z_scope.

(** ** Python string operations used by the parser and the printer *)

Module PyStr.

(** [str.isspace] on the ASCII range; the class behind [\s], [str.strip()]
    and [str.split()] for text patterns. *)
Definition is_space (c : ascii) : bool :=
  let n := nat_of_ascii c in
  ((9 <=? n) && (n <=? 13) || (28 <=? n) && (n <=? 32))%nat.

Fixpoint in_chars (cs : string) (c : ascii) : bool :=
  match cs with
  | EmptyString => false
  | String x r => Ascii.eqb x c || in_chars r c
  end.

Fixpoint lstrip_by (p : ascii -> bool) (s : string) : string :=
  match s with
  | EmptyString => EmptyString
  | String c r => if p c then lstrip_by p r else s
  end.

Fixpoint rstrip_by (p : ascii -> bool) (s : string) : string :=
  match s with
  | EmptyString => EmptyString
  | String c r =>
      match rstrip_by p r with
      | EmptyString => if p c then EmptyString else String c EmptyString
      | r' => String c r'
      end
  end.

Definition strip_by (p : ascii -> bool) (s : string) : string :=
  lstrip_by p (rstrip_by p s).

(** [s.strip()], [s.rstrip()] *)
Definition strip (s : string) : string := strip_by is_space s.
Definition rstrip (s : string) : string := rstrip_by is_space s.
(** [s.strip(chars)], [s.lstrip(chars)] *)
Definition strip_chars (cs s : string) : string := strip_by (in_chars cs) s.
Definition lstrip_chars (cs s : string) : string := lstrip_by (in_chars cs) s.

Definition lower_char (c : ascii) : ascii :=
  let n := nat_of_ascii c in
  if ((65 <=? n) && (n <=? 90))%nat then ascii_of_nat (n + 32) else c.

(** [s.lower()] *)
Fixpoint lower (s : string) : string :=
  match s with
  | EmptyString => EmptyString
  | String c r => String (lower_char c) (lower r)
  end.

(** [s[n:]] *)
Fixpoint drop (n : nat) (s : string) : string :=
  match n, s with
  | O, _ => s
  | S _, EmptyString => EmptyString
  | S n', String _ r => drop n' r
  end.

(** [s.startswith(p)] *)
Definition startswith (p s : string) : bool := String.prefix p s.

(** [c in s] for a one-character [c] *)
Definition contains_char (c : ascii) (s : string) : bool := in_chars s c.

(** [s * n] *)
Fixpoint repeat_str (s : string) (n : nat) : string :=
  match n with
  | O => EmptyString
  | S n' => s ++ repeat_str s n'
  end.
Definition mul (s : string) (n : Z) : string := repeat_str s (Z.to_nat n).

(** [sep.join(l)] *)
Fixpoint join (sep : string) (l : list string) : string :=
  match l with
  | [] => EmptyString
  | [x] => x
  | x :: r => x ++ sep ++ join sep r
  end.

Definition cons_head (c : ascii) (l : list string) : list string :=
  match l with
  | [] => [String c EmptyString]
  | h :: t => String c h :: t
  end.

(** [s.split(c)] for a one-character separator *)
Fixpoint split (c : ascii) (s : string) : list string :=
  match s with
  | EmptyString => [EmptyString]
  | String x r =>
      if Ascii.eqb x c then EmptyString :: split c r
      else cons_head x (split c r)
  end.

(** [s.split(c, maxsplit)] for a one-character separator *)
Fixpoint split_max (c : ascii) (maxsplit : nat) (s : string) : list string :=
  match s with
  | EmptyString => [EmptyString]
  | String x r =>
      match maxsplit with
      | O => [s]
      | S m =>
          if Ascii.eqb x c then EmptyString :: split_max c m r
          else cons_head x (split_max c maxsplit r)
      end
  end.

Fixpoint rev_onto (s acc : string) : string :=
  match s with
  | EmptyString => acc
  | String c r => rev_onto r (String c acc)
  end.
Definition rev (s : string) : string := rev_onto s EmptyString.

(** [s.rsplit(c, 1)] for a one-character separator *)
Definition rsplit1 (c : ascii) (s : string) : list string :=
  match split_max c 1 (rev s) with
  | [a; b] => [rev b; rev a]
  | _ => [s]
  end.

(** [s.split(None, maxsplit)]: runs of whitespace separate the fields; once
    [maxsplit] fields are taken the remainder, without its leading
    whitespace, is the last field.  [cur] is the field being read. *)
Fixpoint split_ws_go (maxcount : nat) (cur : option string) (s : string)
  : list string :=
  match s with
  | EmptyString => match cur with None => [] | Some w => [w] end
  | String c r =>
      match cur with
      | None =>
          if is_space c then split_ws_go maxcount None r
          else match maxcount with
               | O => [s]
               | S m => split_ws_go m (Some (String c EmptyString)) r
               end
      | Some w =>
          if is_space c then w :: split_ws_go maxcount None r
          else split_ws_go maxcount (Some (w ++ String c EmptyString)) r
      end
  end.
Definition split_ws (maxsplit : nat) (s : string) : list string :=
  split_ws_go maxsplit None s.

(** [s.replace(a, b)] for one-character [a] and [b] *)
Fixpoint replace_char (a b : ascii) (s : string) : string :=
  match s with
  | EmptyString => EmptyString
  | String c r =>
      String (if Ascii.eqb c a then b else c) (replace_char a b r)
  end.

(** [str(n)] and the integer fields of an f-string *)
Definition of_Z (n : Z) : string := NilZero.string_of_int (Z.to_int n).

Definition dquote : ascii := "034"%char.
Definition newline : ascii := "010"%char.
Definition nl : string := String newline EmptyString.
Definition quoted (s : string) : string :=
  String dquote s ++ String dquote EmptyString.

(** the longest prefix of [s] whose characters satisfy [p], and the rest *)
Fixpoint span (p : ascii -> bool) (s : string) : string * string :=
  match s with
  | EmptyString => (EmptyString, EmptyString)
  | String c r =>
      if p c then let (a, b) := span p r in (String c a, b)
      else (EmptyString, s)
  end.

Definition is_empty (s : string) : bool :=
  match s with EmptyString => true | _ => false end.

(** truth value of a string: [if s:] *)
Definition truthy (s : string) : bool := negb (is_empty s).

End PyStr.


(** ** The two anchor patterns and the slug of [_visit_heading]

    Each regular expression is embedded as the matcher it denotes.  In both
    patterns every starred or plussed class is followed by a character outside
    that class, so the greedy match is the only candidate at a position and no
    backtracking is modelled. *)

Module Re.
Import PyStr.

Definition in_range (lo hi : nat) (c : ascii) : bool :=
  let n := nat_of_ascii c in ((lo <=? n) && (n <=? hi))%nat.

Definition is_digit := in_range 48 57.
Definition is_lower := in_range 97 122.
Definition is_upper := in_range 65 90.

(** [[A-Za-z0-9\-_]] *)
Definition is_anchor_char (c : ascii) : bool :=
  is_upper c || is_lower c || is_digit c
  || Ascii.eqb c "-"%char || Ascii.eqb c "_"%char.

(** [acorn_pattern = \{\s*#\s*([A-Za-z0-9\-_]+)\s*\}] matched at the
    start of [s]: group 1 and the text after the match. *)
Definition match_acorn_here (s : string) : option (string * string) :=
  match s with
  | String "{"%char r =>
      match lstrip_by is_space r with
      | String "#"%char r2 =>
          let (ident, r3) := span is_anchor_char (lstrip_by is_space r2) in
          if is_empty ident then None
          else match lstrip_by is_space r3 with
               | String "}"%char r4 => Some (ident, r4)
               | _ => None
               end
      | _ => None
      end
  | _ => None
  end.

(** [re.search(acorn_pattern, s)]: group 1 of the leftmost match *)
Fixpoint search_acorn (s : string) : option string :=
  match match_acorn_here s with
  | Some (g, _) => Some g
  | None =>
      match s with
      | EmptyString => None
      | String _ r => search_acorn r
      end
  end.

(** [re.sub(acorn_pattern, empty, s)]: every match removed, left to right;
    [skip] counts the characters of the current match still to drop. *)
Fixpoint sub_acorn_go (skip : nat) (s : string) : string :=
  match s with
  | EmptyString => EmptyString
  | String c r =>
      match skip with
      | S k => sub_acorn_go k r
      | O =>
          match match_acorn_here s with
          | Some (_, rest) =>
              sub_acorn_go (String.length s - String.length rest - 1) r
          | None => String c (sub_acorn_go O r)
          end
      end
  end.
Definition sub_acorn (s : string) : string := sub_acorn_go O s.

(** [paren_pattern = \(([^)]+)\)\s*$] matched at the start of [s]:
    group 1.  The match always runs to the end of the text. *)
Definition match_paren_here (s : string) : option string :=
  match s with
  | String "("%char r =>
      let (g, r2) := span (fun c => negb (Ascii.eqb c ")"%char)) r in
      if is_empty g then None
      else match r2 with
           | String ")"%char r3 =>
               if is_empty (lstrip_by is_space r3) then Some g else None
           | _ => None
           end
  | _ => None
  end.

(** [re.search(paren_pattern, s)] *)
Fixpoint search_paren (s : string) : option string :=
  match match_paren_here s with
  | Some g => Some g
  | None =>
      match s with
      | EmptyString => None
      | String _ r => search_paren r
      end
  end.

(** [re.sub(paren_pattern, empty, s)]: the text before the leftmost match *)
Fixpoint sub_paren (s : string) : string :=
  match match_paren_here s with
  | Some _ => EmptyString
  | None =>
      match s with
      | EmptyString => EmptyString
      | String c r => String c (sub_paren r)
      end
  end.

(** [re.sub(p+, hyphen, s)] for a character class [p] *)
Fixpoint collapse_runs (p : ascii -> bool) (in_run : bool) (s : string)
  : string :=
  match s with
  | EmptyString => EmptyString
  | String c r =>
      if p c then
        if in_run then collapse_runs p true r
        else String "-"%char (collapse_runs p true r)
      else String c (collapse_runs p false r)
  end.

(** [_slugify] *)
Definition _slugify (text : string) : string :=
  let text := lower text in
  let text :=
    collapse_runs (fun c => negb (is_lower c || is_digit c)) false text in
  strip_chars "-"
    (collapse_runs (fun c => Ascii.eqb c "-"%char) false text).

End Re.


(** ** Tokens *)

(** Modelled from the spec: the token kinds of [pipeline/tools/lexer.py],
    which is not among the sources.  These are the kinds [parser.py] names,
    one per line class of the tokenizer. *)
Inductive TokenType : Type :=
| FRONT_MATTER | HEADING | FENCE | UL_MARKER | OL_MARKER | BLOCKQUOTE
| ADMONITION | TAB_HEADER | HTML_TAG
| CONDITIONAL_BLOCK_OPEN | CONDITIONAL_BLOCK_CLOSE
| BLANK | TEXT | EOF.

Module TokenType.
Definition eqb (a b : TokenType) : bool :=
  match a, b with
  | FRONT_MATTER, FRONT_MATTER | HEADING, HEADING | FENCE, FENCE
  | UL_MARKER, UL_MARKER | OL_MARKER, OL_MARKER | BLOCKQUOTE, BLOCKQUOTE
  | ADMONITION, ADMONITION | TAB_HEADER, TAB_HEADER | HTML_TAG, HTML_TAG
  | CONDITIONAL_BLOCK_OPEN, CONDITIONAL_BLOCK_OPEN
  | CONDITIONAL_BLOCK_CLOSE, CONDITIONAL_BLOCK_CLOSE
  | BLANK, BLANK | TEXT, TEXT | EOF, EOF => true
  | _, _ => false
  end.

(** [kind.name] *)
Definition name (k : TokenType) : string :=
  match k with
  | FRONT_MATTER => "FRONT_MATTER" | HEADING => "HEADING" | FENCE => "FENCE"
  | UL_MARKER => "UL_MARKER" | OL_MARKER => "OL_MARKER"
  | BLOCKQUOTE => "BLOCKQUOTE" | ADMONITION => "ADMONITION"
  | TAB_HEADER => "TAB_HEADER" | HTML_TAG => "HTML_TAG"
  | CONDITIONAL_BLOCK_OPEN => "CONDITIONAL_BLOCK_OPEN"
  | CONDITIONAL_BLOCK_CLOSE => "CONDITIONAL_BLOCK_CLOSE"
  | BLANK => "BLANK" | TEXT => "TEXT" | EOF => "EOF"
  end.
End TokenType.

(** Modelled from the spec: the [Token] record of the tokenizer, with the
    four fields the parser reads. *)
Module Token.
Record t : Type := mk
  { type : TokenType; value : string; line : Z; indent : Z }.
End Token.
Abbreviation Token := Token.t.

(** ** Exceptions and results *)

Module ParseError.
(** the fields set by [ParseError.__init__] *)
Record t : Type := mk
  { message : string;
    line : option Z;
    token : option Token;
    expected : option string;
    found : option string;
    file_path : option string }.

Definition opt_truthy (o : option string) : bool :=
  match o with Some s => PyStr.truthy s | None => false end.

(** the text handed to [Exception.__init__]: the clauses that are present,
    joined by a comma and a space *)
Definition str (e : t) : string :=
  let part (present : bool) (s : string) : list string :=
    if present then [s] else [] in
  PyStr.join ", "
    (List.concat
       [ match file_path e with
         | Some f => ["'" ++ f ++ "':"] | None => [] end;
         [message e];
         match line e with
         | Some l => ["at line " ++ PyStr.of_Z l] | None => [] end;
         match token e with
         | Some t => ["found token " ++ TokenType.name (Token.type t)
                        ++ " '" ++ Token.value t ++ "'"]
         | None => [] end;
         match expected e with
         | Some x => part (PyStr.truthy x) ("expected " ++ x)
         | None => [] end;
         match found e with
         | Some x => part (PyStr.truthy x) ("but found " ++ x)
         | None => [] end ]).
End ParseError.

(** The exceptions the pipeline can raise.  [IndexError] and the unpacking
    [ValueError] come from indexing and destructuring the fields of a token
    value; [AttributeError] from reading [blocks] or [title] on a node that
    has no such field; [StopIteration] from [next] on an empty token
    sequence. *)
Inductive Exn : Type :=
| ParseError (e : ParseError.t)
| ValueError (msg : string)
| NotImplementedError (msg : option string)
| IndexError
| AttributeError
| StopIteration.

Inductive Result (A : Type) : Type :=
| OK (a : A)
| Raise (e : Exn)
| OutOfFuel.
Arguments OK {A} a.
Arguments Raise {A} e.
Arguments OutOfFuel {A}.

Definition bind {A B : Type} (m : Result A) (k : A -> Result B) : Result B :=
  match m with
  | OK a => k a
  | Raise e => Raise e
  | OutOfFuel => OutOfFuel
  end.

Notation "x <- m ;; k" := (bind m (fun x => k))
  (at level 61, m at next level, right associativity).
Notation "' pat <- m ;; k" := (bind m (fun x => match x with pat => k end))
  (at level 61, pat pattern, m at next level, right associativity).

(** ** The AST

    Every node carries [start_line] and [limit_line] first, then the fields
    of its dataclass in declaration order. *)
Inductive Node : Type :=
| Document (start_line limit_line : Z) (blocks : list Node)
| Heading (start_line limit_line : Z) (level : Z) (value : string)
| Paragraph (start_line limit_line : Z) (value : list string)
| CodeBlock (start_line limit_line : Z)
    (language : option string) (meta : option string) (content : string)
| ListItem (start_line limit_line : Z) (blocks : list Node)
| UnorderedList (start_line limit_line : Z) (items : list Node)
| OrderedList (start_line limit_line : Z) (items : list Node)
| QuoteBlock (start_line limit_line : Z) (lines : list string)
| Tab (start_line limit_line : Z) (title : string) (blocks : list Node)
| TabBlock (start_line limit_line : Z) (tabs : list Node)
| Admonition (start_line limit_line : Z)
    (tag kind title : string) (blocks : list Node)
| FrontMatter (start_line limit_line : Z) (content : string)
| HTMLBlock (start_line limit_line : Z) (content : string)
| ConditionalBlock (start_line limit_line : Z)
    (language : string) (blocks : list Node) (indent : Z).

Definition start_line (n : Node) : Z :=
  match n with
  | Document s _ _ | Heading s _ _ _ | Paragraph s _ _ | CodeBlock s _ _ _ _
  | ListItem s _ _ | UnorderedList s _ _ | OrderedList s _ _
  | QuoteBlock s _ _ | Tab s _ _ _ | TabBlock s _ _ | Admonition s _ _ _ _ _
  | FrontMatter s _ _ | HTMLBlock s _ _ | ConditionalBlock s _ _ _ _ => s
  end.

Definition limit_line (n : Node) : Z :=
  match n with
  | Document _ l _ | Heading _ l _ _ | Paragraph _ l _ | CodeBlock _ l _ _ _
  | ListItem _ l _ | UnorderedList _ l _ | OrderedList _ l _
  | QuoteBlock _ l _ | Tab _ l _ _ | TabBlock _ l _ | Admonition _ l _ _ _ _
  | FrontMatter _ l _ | HTMLBlock _ l _ | ConditionalBlock _ l _ _ _ => l
  end.

(** ** The parser *)

(** The state of a [Parser]: the tokens not yet read and the look-ahead. *)
Record Parser : Type := mkParser
  { _tokens : list Token;
    _token : Token }.

(** the error of [_advance] when the iterator is exhausted *)
Definition end_of_input (previous : Token) : Exn :=
  ParseError
    {| ParseError.message := "Unexpected end of input";
       ParseError.line := Some (Token.line previous);
       ParseError.token := Some previous;
       ParseError.expected := Some "more tokens";
       ParseError.found := Some "end of input";
       ParseError.file_path := None |}.

Definition _advance (self : Parser) : Result (Token * Parser) :=
  let previous := _token self in
  match _tokens self with
  | [] => Raise (end_of_input previous)
  | t :: rest => OK (previous, {| _tokens := rest; _token := t |})
  end.

Definition is_kind (kinds : list TokenType) (t : Token) : bool :=
  existsb (TokenType.eqb (Token.type t)) kinds.

Definition _check (self : Parser) (kinds : list TokenType) : bool :=
  is_kind kinds (_token self).

Definition _match (self : Parser) (kinds : list TokenType)
  : Result (bool * Parser) :=
  if _check self kinds then
    '(_, self) <- _advance self ;; OK (true, self)
  else OK (false, self).

(** A [while] loop whose every iteration calls [_advance] once: a recursion
    on the tokens not yet read.  [test] is the loop condition on the
    look-ahead (with the [raise] some loops perform before advancing) and
    [step] the effect of the body on the accumulator. *)
Inductive LoopTest : Type := Go | Stop | Fail (e : Exn).

Fixpoint while_advance {A : Type} (test : Token -> LoopTest)
  (step : A -> Token -> A) (cur : Token) (rest : list Token) (acc : A)
  : Result (A * Parser) :=
  match test cur with
  | Stop => OK (acc, {| _tokens := rest; _token := cur |})
  | Fail e => Raise e
  | Go =>
      match rest with
      | [] => Raise (end_of_input cur)
      | t :: r => while_advance test step t r (step acc cur)
      end
  end.

Definition while_kind {A : Type} (go : Token -> bool)
  (step : A -> Token -> A) (self : Parser) (acc : A) : Result (A * Parser) :=
  while_advance (fun t => if go t then Go else Stop) step
    (_token self) (_tokens self) acc.

Definition _parse_front_matter (self : Parser) : Result (Node * Parser) :=
  '(open_token, self) <- _advance self ;;
  '(content_lines, self) <-
     while_kind (fun t => negb (is_kind [FRONT_MATTER] t))
       (fun acc t => acc ++ [Token.value t])%list self [] ;;
  '(close_token, self) <- _advance self ;;
  OK (FrontMatter (Token.line open_token) (Token.line close_token + 1)
        (PyStr.join PyStr.nl content_lines), self).

Definition _parse_heading (self : Parser) : Result (Node * Parser) :=
  '(token, self) <- _advance self ;;
  match PyStr.split_max " " 1 (Token.value token) with
  | [hashes; text] =>
      OK (Heading (Token.line token) (Token.line token + 1)
            (Z.of_nat (String.length hashes)) text, self)
  | _ => Raise (ValueError "not enough values to unpack (expected 2, got 1)")
  end.

Definition unclosed_code_block (open_token : Token) : Exn :=
  ParseError
    {| ParseError.message := "Unclosed code block";
       ParseError.line := Some (Token.line open_token);
       ParseError.token := Some open_token;
       ParseError.expected := Some "closing fence '```'";
       ParseError.found := Some "end of file";
       ParseError.file_path := None |}.

(** one body line of a fenced block, indented relative to the fence *)
Definition body_line (fence_indent : Z) (tok : Token) : string :=
  let rel_ident := Z.max 0 (Token.indent tok - fence_indent) in
  PyStr.mul " " rel_ident ++ Token.value tok.

Definition _parse_code_block (self : Parser) : Result (Node * Parser) :=
  '(open_token, self) <- _advance self ;;
  let fence_body := PyStr.strip (PyStr.drop 3 (Token.value open_token)) in
  let parts := PyStr.split_max " " 1 fence_body in
  let '(language, meta) :=
    match parts with
    | [lang; meta] => (Some lang, meta)
    | _ => (if PyStr.truthy (hd "" parts) then Some (hd "" parts) else None,
            "")
    end in
  let fence_indent := Token.indent open_token in
  '(body_lines, self) <-
     while_advance
       (fun t => if is_kind [FENCE] t then Stop
                 else if is_kind [EOF] t then Fail (unclosed_code_block open_token)
                 else Go)
       (fun acc tok => acc ++ [body_line fence_indent tok])%list
       (_token self) (_tokens self) [] ;;
  '(close_token, self) <- _advance self ;;
  OK (CodeBlock (Token.line open_token) (Token.line close_token + 1)
        language (Some meta) (PyStr.join PyStr.nl body_lines), self).

Definition _parse_quote_block (self : Parser) : Result (Node * Parser) :=
  '(first_token, self) <- _advance self ;;
  '(lines, self) <-
     while_kind (is_kind [BLOCKQUOTE])
       (fun acc t => acc ++ [PyStr.lstrip_chars "> " (Token.value t)])%list
       self [PyStr.lstrip_chars "> " (Token.value first_token)] ;;
  OK (QuoteBlock (Token.line first_token) (Token.line (_token self)) lines,
      self).

Definition _parse_html_block (self : Parser) : Result (Node * Parser) :=
  '(first_tok, self) <- _advance self ;;
  let html_line (tok : Token) :=
    PyStr.mul " " (Token.indent tok) ++ Token.value tok in
  '(lines, self) <-
     while_kind (is_kind [HTML_TAG])
       (fun acc tok => acc ++ [html_line tok])%list self [html_line first_tok] ;;
  OK (HTMLBlock (Token.line first_tok) (Token.line (_token self))
        (PyStr.join PyStr.nl lines), self).

Definition _parse_paragraph (self : Parser) : Result (Node * Parser) :=
  let first := _token self in
  '(text_lines, self) <-
     while_kind (is_kind [TEXT])
       (fun acc t => acc ++ [Token.value t])%list self [] ;;
  '(_, self) <-
     while_kind (is_kind [BLANK]) (fun (acc : unit) _ => acc) self tt ;;
  OK (Paragraph (Token.line first) (Token.line (_token self)) text_lines,
      self).

Definition mismatched_close (min_indent : Z) (tok : Token) : Exn :=
  ParseError
    {| ParseError.message :=
         "Conditional block close ':::' has mismatched indentation - "
         ++ "check that opening and closing tags have the same "
         ++ "indentation level";
       ParseError.line := Some (Token.line tok);
       ParseError.token := Some tok;
       ParseError.expected :=
         Some ("content with indent > " ++ PyStr.of_Z min_indent
               ++ " or properly " ++ "indented closing tag");
       ParseError.found :=
         Some ("conditional block close ':::' at indent "
               ++ PyStr.of_Z (Token.indent tok)
               ++ " (should match opening tag indent)");
       ParseError.file_path := None |}.

Definition unexpected_structural (tok : Token) : Exn :=
  let token_type_desc :=
    PyStr.replace_char "_" " "
      (PyStr.lower (TokenType.name (Token.type tok))) in
  ParseError
    {| ParseError.message := "Unexpected " ++ token_type_desc ++ " token";
       ParseError.line := Some (Token.line tok);
       ParseError.token := Some tok;
       ParseError.expected := Some "content or block end";
       ParseError.found := Some "front matter delimiter '---'";
       ParseError.file_path := None |}.

Definition invalid_language (language : string) : Exn :=
  ValueError ("Invalid conditional block language: " ++ language ++ ". "
              ++ "Must be 'python' or 'js'").

Definition missing_close (open_token : Token) : Exn :=
  ValueError ("Missing closing tag ':::' for conditional "
              ++ "block starting at line "
              ++ PyStr.of_Z (Token.line open_token)).

(** The block parsers that call [_parse_block], given the [_parse_block]
    they call; every loop that may run it takes fuel. *)
Section BlockParsers.

Variable _parse_block : Parser -> Result (Node * Parser).

Fixpoint _parse_blocks_until_indent (fuel : nat) (min_indent : Z)
  (self : Parser) (blocks : list Node) : Result (list Node * Parser) :=
  match fuel with
  | O => OutOfFuel
  | S fuel =>
      let tok := _token self in
      if negb (_check self [EOF])
         && ((Token.indent tok >? min_indent)
             || TokenType.eqb (Token.type tok) BLANK)
      then
        if _check self [CONDITIONAL_BLOCK_CLOSE; FRONT_MATTER] then
          if TokenType.eqb (Token.type tok) CONDITIONAL_BLOCK_CLOSE
          then Raise (mismatched_close min_indent tok)
          else Raise (unexpected_structural tok)
        else
          '(matched, self) <- _match self [BLANK] ;;
          if (matched : bool) then
            _parse_blocks_until_indent fuel min_indent self blocks
          else
            '(block, self) <- _parse_block self ;;
            _parse_blocks_until_indent fuel min_indent self
              (blocks ++ [block])%list
      else OK (blocks, self)
  end.

Definition _parse_list_item (fuel : nat) (list_indent : Z) (self : Parser)
  : Result (Node * Parser) :=
  '(marker_tok, self) <- _advance self ;;
  first_text <-
    (if PyStr.contains_char " " (Token.value marker_tok) then
       match PyStr.split_ws 1 (Token.value marker_tok) with
       | _ :: text :: _ => OK text
       | _ => Raise IndexError
       end
     else OK "") ;;
  '(nested_blocks, self) <-
     _parse_blocks_until_indent fuel list_indent self [] ;;
  let nested_blocks :=
    if PyStr.truthy first_text then
      Paragraph (Token.line marker_tok) (Token.line marker_tok + 1)
        [first_text] :: nested_blocks
    else nested_blocks in
  OK (ListItem (Token.line marker_tok) (Token.line (_token self))
        nested_blocks, self).

Fixpoint list_items (fuel : nat) (marker_type : TokenType) (list_indent : Z)
  (self : Parser) (items : list Node) : Result (list Node * Parser) :=
  match fuel with
  | O => OutOfFuel
  | S fuel =>
      if _check self [marker_type]
         && (Token.indent (_token self) =? list_indent)
      then
        '(item, self) <- _parse_list_item fuel list_indent self ;;
        list_items fuel marker_type list_indent self (items ++ [item])%list
      else OK (items, self)
  end.

Definition _parse_list (fuel : nat) (ordered : bool) (self : Parser)
  : Result (Node * Parser) :=
  let list_indent := Token.indent (_token self) in
  let marker_type := if ordered then OL_MARKER else UL_MARKER in
  '(items, self) <- list_items fuel marker_type list_indent self [] ;;
  match items with
  | [] => Raise IndexError
  | first :: _ =>
      let last_item := List.last items first in
      if ordered then
        OK (OrderedList (start_line first) (limit_line last_item) items,
            self)
      else
        OK (UnorderedList (start_line first) (limit_line last_item) items,
            self)
  end.

Definition _parse_admonition (fuel : nat) (self : Parser)
  : Result (Node * Parser) :=
  '(header_tok, self) <- _advance self ;;
  match PyStr.split_ws 2 (Token.value header_tok) with
  | [] =>
      Raise (ValueError
               "not enough values to unpack (expected at least 1, got 0)")
  | tag :: tail =>
      let kind :=
        match tail with k :: _ => PyStr.lower k | [] => "note" end in
      let title := match tail with [_; t] => t | _ => "" end in
      let title :=
        PyStr.strip_chars (String PyStr.dquote "")
          (PyStr.strip_chars " " title) in
      '(body_blocks, self) <-
         _parse_blocks_until_indent fuel (Token.indent header_tok) self [] ;;
      OK (Admonition (Token.line header_tok) (Token.line (_token self))
            tag kind title body_blocks, self)
  end.

Fixpoint tab_loop (fuel : nat) (self : Parser) (tabs : list Node)
  : Result (list Node * Parser) :=
  match fuel with
  | O => OutOfFuel
  | S fuel =>
      if _check self [TAB_HEADER] then
        '(header_tok, self) <- _advance self ;;
        match PyStr.split_max PyStr.dquote 1 (Token.value header_tok) with
        | _ :: after :: _ =>
            let title := hd "" (PyStr.rsplit1 PyStr.dquote after) in
            '(inner_blocks, self) <-
               _parse_blocks_until_indent fuel (Token.indent header_tok)
                 self [] ;;
            tab_loop fuel self
              (tabs ++ [Tab (Token.line header_tok)
                          (Token.line (_token self)) title inner_blocks])%list
        | _ => Raise IndexError
        end
      else OK (tabs, self)
  end.

Definition _parse_tab_block (fuel : nat) (self : Parser)
  : Result (Node * Parser) :=
  '(tabs, self) <- tab_loop fuel self [] ;;
  match tabs with
  | [] => Raise IndexError
  | first :: _ =>
      OK (TabBlock (start_line first) (limit_line (List.last tabs first))
            tabs, self)
  end.

Fixpoint conditional_body (fuel : nat) (self : Parser) (blocks : list Node)
  : Result (list Node * Parser) :=
  match fuel with
  | O => OutOfFuel
  | S fuel =>
      if negb (_check self [EOF]) then
        if _check self [CONDITIONAL_BLOCK_CLOSE] then OK (blocks, self)
        else
          '(matched, self) <- _match self [BLANK] ;;
          if (matched : bool) then conditional_body fuel self blocks
          else
            '(block, self) <- _parse_block self ;;
            conditional_body fuel self (blocks ++ [block])%list
      else OK (blocks, self)
  end.

Definition _parse_conditional_block (fuel : nat) (self : Parser)
  : Result (Node * Parser) :=
  '(open_token, self) <- _advance self ;;
  if negb (PyStr.startswith ":::" (Token.value open_token)) then
    Raise (ValueError ("Invalid conditional block opening tag: "
                       ++ Token.value open_token))
  else
    let language := PyStr.strip (PyStr.drop 3 (Token.value open_token)) in
    if negb (String.eqb language "python" || String.eqb language "js") then
      Raise (invalid_language language)
    else
      '(blocks, self) <- conditional_body fuel self [] ;;
      if negb (_check self [CONDITIONAL_BLOCK_CLOSE]) then
        Raise (missing_close open_token)
      else
        '(close_token, self) <- _advance self ;;
        OK (ConditionalBlock (Token.line open_token)
              (Token.line close_token + 1) language blocks
              (Token.indent open_token), self).

(** the [while] loop of [Parser.parse] *)
Fixpoint parse_loop (fuel : nat) (self : Parser) (blocks : list Node)
  : Result (list Node * Parser) :=
  match fuel with
  | O => OutOfFuel
  | S fuel =>
      if negb (_check self [EOF]) then
        '(matched, self) <- _match self [BLANK] ;;
        if (matched : bool) then parse_loop fuel self blocks
        else
          '(block, self) <- _parse_block self ;;
          parse_loop fuel self (blocks ++ [block])%list
      else OK (blocks, self)
  end.

End BlockParsers.

(** [_parse_block]: the dispatch on the kind of the look-ahead.  One unit of
    fuel is spent per nesting level. *)
Fixpoint _parse_block (fuel : nat) (self : Parser) : Result (Node * Parser) :=
  match fuel with
  | O => OutOfFuel
  | S fuel =>
      if _check self [HEADING] then _parse_heading self
      else if _check self [FENCE] then _parse_code_block self
      else if _check self [UL_MARKER] then
        _parse_list (_parse_block fuel) fuel false self
      else if _check self [OL_MARKER] then
        _parse_list (_parse_block fuel) fuel true self
      else if _check self [BLOCKQUOTE] then _parse_quote_block self
      else if _check self [ADMONITION] then
        _parse_admonition (_parse_block fuel) fuel self
      else if _check self [TAB_HEADER] then
        _parse_tab_block (_parse_block fuel) fuel self
      else if _check self [HTML_TAG] then _parse_html_block self
      else if _check self [CONDITIONAL_BLOCK_OPEN] then
        _parse_conditional_block (_parse_block fuel) fuel self
      else _parse_paragraph self
  end.

(** [Parser.parse] *)
Definition parse (fuel : nat) (self : Parser) : Result Node :=
  '(blocks, self) <-
     (if _check self [FRONT_MATTER] then
        '(fm, self) <- _parse_front_matter self ;; OK ([fm], self)
      else OK ([], self)) ;;
  '(blocks, self) <- parse_loop (_parse_block fuel) fuel self blocks ;;
  OK (Document 1 (Token.line (_token self)) blocks).

(** [Parser.__init__] on the token sequence [lex(source)] *)
Definition Parser_init (tokens : list Token) : Result Parser :=
  match tokens with
  | [] => Raise StopIteration
  | t :: rest => OK {| _tokens := rest; _token := t |}
  end.

(** ** The printer *)

(** The fields of a [MintPrinter]. *)
Record MintPrinter : Type := mkPrinter
  { output : list string;
    indent_level : Z;
    printed_first_heading : bool }.

(** [MintPrinter.__init__] *)
Definition MintPrinter_init : MintPrinter :=
  {| output := []; indent_level := 0; printed_first_heading := false |}.

Definition _add_line (self : MintPrinter) (line : string) : MintPrinter :=
  let indent := PyStr.mul "  " (indent_level self) in
  {| output := List.app (output self) [indent ++ line];
     indent_level := indent_level self;
     printed_first_heading := printed_first_heading self |}.

(** [self.indent_level += d] *)
Definition shift_indent (d : Z) (self : MintPrinter) : MintPrinter :=
  {| output := output self;
     indent_level := indent_level self + d;
     printed_first_heading := printed_first_heading self |}.

Definition add_lines (self : MintPrinter) (lines : list string) : MintPrinter :=
  fold_left _add_line lines self.

(** [for i, x in enumerate(l, start): body], threading the printer *)
Definition for_each {A St : Type} (body : nat -> A -> St -> Result St)
  : list A -> nat -> St -> Result St :=
  fix loop (l : list A) (i : nat) (self : St) : Result St :=
    match l with
    | [] => OK self
    | x :: r => self <- body i x self ;; loop r (S i) self
    end.

(** The anchor of a heading and the heading text without it: the explicit
    curly-brace form first, else a trailing parenthesised suffix. *)
Definition extract_anchor (value : string) : option string * string :=
  match Re.search_acorn value with
  | Some g => (Some g, PyStr.strip (Re.sub_acorn value))
  | None =>
      match Re.search_paren value with
      | Some g => (Some g, PyStr.strip (Re.sub_paren value))
      | None => (None, value)
      end
  end.

(** the anchor id after [if anchor_id: anchor_id = _slugify(anchor_id)] *)
Definition heading_anchor (value : string) : option string :=
  match fst (extract_anchor value) with
  | Some a => if PyStr.truthy a then Some (Re._slugify a) else Some a
  | None => None
  end.

Definition heading_text (value : string) : string :=
  snd (extract_anchor value).

Definition _visit_heading (level : Z) (value : string) (self : MintPrinter)
  : MintPrinter :=
  let anchor_id := heading_anchor value in
  let heading_text := heading_text value in
  if printed_first_heading self then
    let self :=
      match anchor_id with
      | Some a =>
          if PyStr.truthy a
          then _add_line self ("<a id=" ++ PyStr.quoted a ++ "></a>")
          else self
      | None => self
      end in
    let prefix := PyStr.mul "#" level in
    _add_line self (prefix ++ " " ++ heading_text)
  else
    let self := _add_line self "---" in
    let self := _add_line self ("title: " ++ heading_text) in
    let self := _add_line self "---" in
    {| output := output self;
       indent_level := indent_level self;
       printed_first_heading := true |}.

Definition _visit_paragraph (value : list string) (self : MintPrinter)
  : MintPrinter :=
  add_lines self (map PyStr.strip value).

Definition opt_truthy (o : option string) : bool :=
  match o with Some s => PyStr.truthy s | None => false end.

Definition _visit_codeblock (language meta : option string) (content : string)
  (self : MintPrinter) : MintPrinter :=
  let fence := "```" in
  let fence_line :=
    match language with
    | Some lang =>
        if PyStr.truthy lang then
          match meta with
          | Some m =>
              if PyStr.truthy m then fence ++ lang ++ " " ++ m
              else fence ++ lang
          | None => fence ++ lang
          end
        else fence
    | None => fence
    end in
  let self := _add_line self fence_line in
  let self :=
    if PyStr.truthy content
    then add_lines self (PyStr.split PyStr.newline content)
    else self in
  _add_line self fence.

Definition _visit_quoteblock (lines : list string) (self : MintPrinter)
  : MintPrinter :=
  add_lines self (map (fun line => "> " ++ line) lines).

Definition _visit_htmlblock (content : string) (self : MintPrinter)
  : MintPrinter :=
  let lines := PyStr.split PyStr.newline content in
  snd (fold_left
         (fun '(i, self) line =>
            (S i,
             if PyStr.truthy (PyStr.strip line) || Nat.eqb i 0
             then _add_line self line
             else _add_line self ""))
         lines (O, self)).

(** the table [kind_to_callout] *)
Definition kind_to_callout (kind : string) : option string :=
  if String.eqb kind "note" then Some "Note"
  else if String.eqb kind "warning" then Some "Warning"
  else if String.eqb kind "info" then Some "Info"
  else if String.eqb kind "tip" then Some "Tip"
  else if String.eqb kind "danger" then Some "Danger"
  else if String.eqb kind "important" then Some "Warning"
  else None.

Definition unsupported_kind (kind : string) : Exn :=
  NotImplementedError (Some ("Unsupported admonition kind: " ++ kind)).

(** The handlers that visit child nodes, given the [_visit] they call. *)
Section Visitors.

Variable _visit : Node -> MintPrinter -> Result MintPrinter.

(** [_visit_document] *)
Definition _visit_document (blocks : list Node) (self : MintPrinter)
  : Result MintPrinter :=
  for_each
    (fun i block self =>
       self <- _visit block self ;;
       OK (if (0 <? i)%nat then _add_line self "" else self))
    blocks O self.

(** the loop shared by tabs, admonitions and conditional blocks:
    [if i > 0: self._add_line(''); self._visit(block)] *)
Definition visit_separated (blocks : list Node) (self : MintPrinter)
  : Result MintPrinter :=
  for_each
    (fun i block self =>
       _visit block (if (0 <? i)%nat then _add_line self "" else self))
    blocks O self.

(** the body of the loop of [_visit_list_item] *)
Definition visit_item_block (prefix : string) (i : nat) (block : Node)
  (self : MintPrinter) : Result MintPrinter :=
  if Nat.eqb i 0 then
    match block with
    | Paragraph _ _ value =>
        OK (_add_line self (prefix ++ PyStr.join " " value))
    | _ => _visit block (_add_line self prefix)
    end
  else
    self <- _visit block (shift_indent 1 self) ;;
    OK (shift_indent (-1) self).

(** [_visit_list_item]; [item.blocks] exists on the node classes that
    declare a [blocks] field *)
Definition _visit_list_item (item : Node) (prefix : string)
  (self : MintPrinter) : Result MintPrinter :=
  match item with
  | Document _ _ blocks | ListItem _ _ blocks | Tab _ _ _ blocks
  | Admonition _ _ _ _ _ blocks | ConditionalBlock _ _ _ blocks _ =>
      for_each (visit_item_block prefix) blocks O self
  | _ => Raise AttributeError
  end.

Definition _visit_unorderedlist (items : list Node) (self : MintPrinter)
  : Result MintPrinter :=
  for_each (fun _ item self => _visit_list_item item "* " self)
    items 1%nat self.

Definition _visit_orderedlist (items : list Node) (self : MintPrinter)
  : Result MintPrinter :=
  for_each
    (fun i item self =>
       _visit_list_item item (PyStr.of_Z (Z.of_nat i) ++ ". ") self)
    items 1%nat self.

(** one iteration of the loop over [node.tabs] *)
Definition visit_one_tab (tab : Node) (self : MintPrinter)
  : Result MintPrinter :=
  let body (title : string) (blocks : list Node) :=
    let title := PyStr.strip_chars "`" title in
    let self :=
      _add_line self ("<Tab title=" ++ PyStr.quoted title ++ ">") in
    let self := shift_indent 1 self in
    self <- visit_separated blocks self ;;
    let self := shift_indent (-1) self in
    OK (_add_line self "</Tab>") in
  match tab with
  | Tab _ _ title blocks => body title blocks
  | Admonition _ _ _ _ title blocks => body title blocks
  | _ => Raise AttributeError
  end.

Definition _visit_tabblock (tabs : list Node) (self : MintPrinter)
  : Result MintPrinter :=
  let self := _add_line self "<Tabs>" in
  let self := shift_indent 1 self in
  self <- for_each (fun _ tab self => visit_one_tab tab self) tabs O self ;;
  let self := shift_indent (-1) self in
  OK (_add_line self "</Tabs>").

Definition _visit_admonition (tag kind title : string) (blocks : list Node)
  (self : MintPrinter) : Result MintPrinter :=
  if String.eqb tag "???" then
    let self :=
      if PyStr.truthy title
      then _add_line self ("<Accordion title=" ++ PyStr.quoted title ++ ">")
      else _add_line self "<Accordion>" in
    let self := shift_indent 1 self in
    self <- visit_separated blocks self ;;
    let self := shift_indent (-1) self in
    OK (_add_line self "</Accordion>")
  else if String.eqb tag "!!!" then
    let kind := PyStr.lower kind in
    match kind_to_callout kind with
    | None => Raise (unsupported_kind kind)
    | Some callout =>
        let self := _add_line self ("<" ++ callout ++ ">") in
        let self := shift_indent 1 self in
        let self :=
          if PyStr.truthy title
          then _add_line self ("**" ++ title ++ "**")
          else self in
        self <- visit_separated blocks self ;;
        let self := shift_indent (-1) self in
        OK (_add_line self ("</" ++ callout ++ ">"))
    end
  else Raise (NotImplementedError None).

Definition _visit_conditionalblock (language : string) (blocks : list Node)
  (self : MintPrinter) : Result MintPrinter :=
  let self := _add_line self (":::" ++ language) in
  self <- visit_separated blocks self ;;
  OK (_add_line self ":::").

End Visitors.

(** [_visit]: the dispatch on the class of the node.  Every node class has a
    handler of its own, so [_visit_generic] is never selected.  When a handler
    raises, the fields of the printer at that point are not kept. *)
Fixpoint _visit (node : Node) (self : MintPrinter) : Result MintPrinter :=
  match node with
  | Document _ _ blocks => _visit_document _visit blocks self
  | Heading _ _ level value => OK (_visit_heading level value self)
  | Paragraph _ _ value => OK (_visit_paragraph value self)
  | CodeBlock _ _ language meta content =>
      OK (_visit_codeblock language meta content self)
  | ListItem _ _ _ => Raise (NotImplementedError None)
  | UnorderedList _ _ items => _visit_unorderedlist _visit items self
  | OrderedList _ _ items => _visit_orderedlist _visit items self
  | QuoteBlock _ _ lines => OK (_visit_quoteblock lines self)
  | Tab _ _ _ _ => Raise (NotImplementedError None)
  | TabBlock _ _ tabs => _visit_tabblock _visit tabs self
  | Admonition _ _ tag kind title blocks =>
      _visit_admonition _visit tag kind title blocks self
  | FrontMatter _ _ _ => OK self
  | HTMLBlock _ _ content => OK (_visit_htmlblock content self)
  | ConditionalBlock _ _ language blocks _ =>
      _visit_conditionalblock _visit language blocks self
  end.

(** [MintPrinter.print]: the text and the printer after the call *)
Definition print (self : MintPrinter) (node : Node)
  : Result (string * MintPrinter) :=
  let self :=
    {| output := [];
       indent_level := 0;
       printed_first_heading := printed_first_heading self |} in
  self <- _visit node self ;;
  OK (PyStr.rstrip (PyStr.join PyStr.nl (output self)) ++ PyStr.nl, self).

(** ** The entry point *)

Section Pipeline.

(** The tokenizer [lex] of [pipeline/tools/lexer.py] is not among the
    sources; the entry point is stated for any tokenizer. *)
Variable lex : string -> list Token.

(** the [to_mint] body inside [try] *)
Definition convert (fuel : nat) (markdown : string) : Result string :=
  parser <- Parser_init (lex markdown) ;;
  doc <- parse fuel parser ;;
  '(text, _) <- print MintPrinter_init doc ;;
  OK text.

Definition to_mint (fuel : nat) (markdown : string)
  (file_path : option string) : Result string :=
  if negb (PyStr.truthy markdown) then OK ""
  else
    match convert fuel markdown with
    | Raise (ParseError e) =>
        match ParseError.file_path e, file_path with
        | None, Some fp =>
            Raise (ParseError
                     {| ParseError.message := ParseError.message e;
                        ParseError.line := ParseError.line e;
                        ParseError.token := ParseError.token e;
                        ParseError.expected := ParseError.expected e;
                        ParseError.found := ParseError.found e;
                        ParseError.file_path := Some fp |})
        | _, _ => Raise (ParseError e)
        end
    | r => r
    end.

End Pipeline.

(** * Vocabulary of the statements *)

Definition first_char (s : string) : option ascii :=
  match s with
  | EmptyString => None
  | String c _ => Some c
  end.

Fixpoint last_char (s : string) : option ascii :=
  match s with
  | EmptyString => None
  | String c r =>
      match r with
      | EmptyString => Some c
      | String _ _ => last_char r
      end
  end.

Definition opt_space (o : option ascii) : bool :=
  match o with
  | Some c => PyStr.is_space c
  | None => false
  end.

(** no whitespace at either end *)
Definition outer_space_free (s : string) : bool :=
  negb (opt_space (first_char s)) && negb (opt_space (last_char s)).

Definition indent_of (self : MintPrinter) : string :=
  PyStr.mul "  " (indent_level self).

(** the tokenizer whose output on the document at hand is [tokens] *)
Definition lex_of (tokens : list Token) : string -> list Token :=
  fun _ => tokens.

Definition tok (kind : TokenType) (value : string) (line indent : Z) : Token :=
  {| Token.type := kind; Token.value := value;
     Token.line := line; Token.indent := indent |}.

(** a document made of one level-1 heading *)
Definition heading_doc : Node := Document 1 2 [Heading 1 2 1 "Title"].

(** a lone close marker [:::] on line 1 *)
Definition stray_close : Parser :=
  {| _token := tok CONDITIONAL_BLOCK_CLOSE ":::" 1 0;
     _tokens := [tok EOF "" 2 0] |}.

(** a line of text followed by a front-matter delimiter *)
Definition late_front_matter : Parser :=
  {| _token := tok TEXT "intro" 1 0;
     _tokens := [tok FRONT_MATTER "---" 2 0; tok EOF "" 3 0] |}.

(** the loop condition of [_parse_code_block] *)
Definition fence_test (open_token : Token) (t : Token) : LoopTest :=
  if is_kind [FENCE] t then Stop
  else if is_kind [EOF] t then Fail (unclosed_code_block open_token)
  else Go.

(** the error of an unterminated fence as [to_mint] raises it *)
Definition unclosed_from_to_mint (open_token : Token)
  (file_path : option string) : Exn :=
  ParseError
    {| ParseError.message := "Unclosed code block";
       ParseError.line := Some (Token.line open_token);
       ParseError.token := Some open_token;
       ParseError.expected := Some "closing fence '```'";
       ParseError.found := Some "end of file";
       ParseError.file_path := file_path |}.

(** a printed body line of a fenced block: the printer's indent, then the
    indentation of the source line beyond the fence clamped at zero, then the
    text of the line *)
Definition printed_body_line (self : MintPrinter) (open_token t : Token)
  : string :=
  indent_of self
  ++ PyStr.mul " " (Z.max 0 (Token.indent t - Token.indent open_token))
  ++ Token.value t.

Definition no_newline (t : Token) : bool :=
  negb (PyStr.contains_char PyStr.newline (Token.value t)).

(** the child nodes of a node *)
Definition children (n : Node) : list Node :=
  match n with
  | Document _ _ blocks | ListItem _ _ blocks | Tab _ _ _ blocks
  | Admonition _ _ _ _ _ blocks | ConditionalBlock _ _ _ blocks _ => blocks
  | UnorderedList _ _ items | OrderedList _ _ items => items
  | TabBlock _ _ tabs => tabs
  | _ => []
  end.

(** a heading occurs in the subtree *)
Fixpoint contains_heading (n : Node) : bool :=
  match n with
  | Heading _ _ _ _ => true
  | Document _ _ blocks | ListItem _ _ blocks | Tab _ _ _ blocks
  | Admonition _ _ _ _ _ blocks | ConditionalBlock _ _ _ blocks _ =>
      existsb contains_heading blocks
  | UnorderedList _ _ items | OrderedList _ _ items =>
      existsb contains_heading items
  | TabBlock _ _ tabs => existsb contains_heading tabs
  | _ => false
  end.

(** What a successful visit does to the printer: the indent level is back
    where it was, the buffer has only grown, the first-heading flag is never
    cleared, and it is left as it was when [may_set] is false. *)
Definition extends (may_set : bool) (s s' : MintPrinter) : Prop :=
  indent_level s' = indent_level s
  /\ (exists out, output s' = List.app (output s) out)
  /\ (printed_first_heading s = true -> printed_first_heading s' = true)
  /\ (may_set = false -> printed_first_heading s' = printed_first_heading s).

(** a successful visit of [n] extends the printer *)
Definition visit_extends_at (n : Node) : Prop :=
  forall s s', _visit n s = OK s' -> extends (contains_heading n) s s'.



(** a printer that has already printed a first heading *)
Definition after_first_heading : MintPrinter :=
  {| output := []; indent_level := 0; printed_first_heading := true |}.

(** the kinds the admonition table recognises *)
Definition recognized_kinds : list string :=
  ["note"; "warning"; "info"; "tip"; "danger"; "important"].

(** the five kinds named after their callout *)
Definition callout_named_kinds : list string :=
  ["note"; "warning"; "info"; "tip"; "danger"].

(** the indent one level deeper than the printer's *)
Definition inner_indent_of (self : MintPrinter) : string :=
  PyStr.mul "  " (indent_level self + 1).

(** the opening line of a foldable admonition *)
Definition accordion_open (title : string) : string :=
  if PyStr.truthy title
  then "<Accordion title=" ++ PyStr.quoted title ++ ">"
  else "<Accordion>".

(** the line that carries the title of a callout, when there is a title *)
Definition bold_title_lines (self : MintPrinter) (title : string)
  : list string :=
  if PyStr.truthy title
  then [inner_indent_of self ++ "**" ++ title ++ "**"]
  else [].

(** the fields of a parse error other than the file path *)
Definition same_diagnostic (e e' : ParseError.t) : Prop :=
  ParseError.message e' = ParseError.message e
  /\ ParseError.line e' = ParseError.line e
  /\ ParseError.token e' = ParseError.token e
  /\ ParseError.expected e' = ParseError.expected e
  /\ ParseError.found e' = ParseError.found e.

Definition is_parse_error (x : Exn) : bool :=
  match x with
  | ParseError _ => true
  | _ => false
  end.

(** a conditional block opened with a language that is not allowed *)
Definition ruby_block_tokens : list Token :=
  [tok CONDITIONAL_BLOCK_OPEN ":::ruby" 1 0; tok TEXT "puts 1" 2 0;
   tok CONDITIONAL_BLOCK_CLOSE ":::" 3 0; tok EOF "" 4 0].

(** an admonition of a kind the table does not have *)
Definition hint_admonition_tokens : list Token :=
  [tok ADMONITION "!!! hint" 1 0; tok TEXT "text" 2 4; tok EOF "" 3 0].

(** the language of an opening marker of a conditional block *)
Definition block_language (open_token : Token) : string :=
  PyStr.strip (PyStr.drop 3 (Token.value open_token)).

Definition allowed_language (language : string) : bool :=
  String.eqb language "python" || String.eqb language "js".

(** a conditional block whose body is a heading *)
Definition heading_in_block_tokens : list Token :=
  [tok CONDITIONAL_BLOCK_OPEN ":::python" 1 0; tok HEADING "# Setup" 2 0;
   tok CONDITIONAL_BLOCK_CLOSE ":::" 3 0; tok EOF "" 4 0].

(** a conditional block whose body is a list item and whose close marker is
    indented by two columns *)
Definition indented_close_tokens : list Token :=
  [tok CONDITIONAL_BLOCK_OPEN ":::python" 1 0; tok UL_MARKER "- item" 2 0;
   tok CONDITIONAL_BLOCK_CLOSE ":::" 3 2; tok EOF "" 4 0].

(** the marker of the item at 1-based position [k] of an ordered list *)
Definition ordered_marker (k : nat) : string :=
  PyStr.of_Z (Z.of_nat k) ++ ". ".

(** the lines an item contributes start with the indent and the marker *)
Definition starts_with_marker (self : MintPrinter) (marker : string)
  (chunk : list string) : Prop :=
  exists text more, chunk = (indent_of self ++ marker ++ text) :: more.

(** an ordered list whose first item has a marker and nothing else *)
Definition empty_item_tokens : list Token :=
  [tok OL_MARKER "1." 1 0; tok OL_MARKER "2. b" 2 0; tok EOF "" 3 0].

(** the items of a list of three one-line items *)
Definition three_items : list Node :=
  [ListItem 1 2 [Paragraph 1 2 ["a"]]; ListItem 2 3 [Paragraph 2 3 ["b"]];
   ListItem 3 4 [Paragraph 3 4 ["c"]]].

(** the tokens a parser still has: the look-ahead, then the unread ones *)
Definition stream (p : Parser) : list Token := _token p :: _tokens p.

(** [q] is [p] after some tokens were consumed: at least one when [strict] *)
Definition advanced (strict : bool) (p q : Parser) : Prop :=
  exists pre,
    stream p = List.app pre (stream q) /\ (strict = true -> pre <> []).

(** the kinds on which [_parse_block] consumes at least one token *)
Definition consuming (t : Token) : bool :=
  negb (is_kind [EOF; CONDITIONAL_BLOCK_CLOSE; FRONT_MATTER] t).

(** token lines never decrease along the list *)
Fixpoint lines_sorted (l : list Token) : bool :=
  match l with
  | [] => true
  | t :: r =>
      forallb (fun u => Token.line t <=? Token.line u) r && lines_sorted r
  end.

(** every node of the subtree starts no later than it ends *)
Fixpoint spans_ok (n : Node) : bool :=
  (start_line n <=? limit_line n)
  && match n with
     | Document _ _ blocks | ListItem _ _ blocks | Tab _ _ _ blocks
     | Admonition _ _ _ _ _ blocks | ConditionalBlock _ _ _ blocks _ =>
         forallb spans_ok blocks
     | UnorderedList _ _ items | OrderedList _ _ items =>
         forallb spans_ok items
     | TabBlock _ _ tabs => forallb spans_ok tabs
     | _ => true
     end.

Definition is_item (n : Node) : bool :=
  match n with ListItem _ _ _ => true | _ => false end.

Definition is_tab (n : Node) : bool :=
  match n with Tab _ _ _ _ => true | _ => false end.

(** a node that [_visit] has a working handler for, when reached as a block *)
Definition block_like (n : Node) : bool := negb (is_item n || is_tab n).

(** the tree is shaped as the dataclasses declare it: blocks are blocks, the
    items of a list are [ListItem]s and the tabs of a tab block are [Tab]s *)
Fixpoint well_typed (n : Node) : bool :=
  match n with
  | Document _ _ blocks | ListItem _ _ blocks | Tab _ _ _ blocks
  | Admonition _ _ _ _ _ blocks | ConditionalBlock _ _ _ blocks _ =>
      forallb (fun b => block_like b && well_typed b) blocks
  | UnorderedList _ _ items | OrderedList _ _ items =>
      forallb (fun i => is_item i && well_typed i) items
  | TabBlock _ _ tabs => forallb (fun t => is_tab t && well_typed t) tabs
  | _ => true
  end.

(** what a block parser that returned [n] and the parser [q] has done *)
Definition parsed_block (p : Parser) (n : Node) (q : Parser) : Prop :=
  advanced (consuming (_token p)) p q
  /\ start_line n = Token.line (_token p)
  /\ block_like n = true
  /\ well_typed n = true
  /\ (lines_sorted (stream p) = true -> spans_ok n = true).

(** no token of the list is a close marker or a front-matter delimiter *)
Definition no_stray_delimiter (l : list Token) : bool :=
  forallb
    (fun t => negb (is_kind [CONDITIONAL_BLOCK_CLOSE; FRONT_MATTER] t)) l.

(** the computation has finished: it returned or raised *)
Definition finished {A : Type} (r : Result A) : Prop :=
  match r with
  | OutOfFuel => False
  | _ => True
  end.

(** a parser at the start of a heading, a blank line and a two-line
    paragraph *)
Definition small_document : Parser :=
  {| _token := tok HEADING "## Usage" 1 0;
     _tokens := [tok BLANK "" 2 0; tok TEXT "first" 3 0; tok TEXT "second" 4 2;
                 tok EOF "" 5 0] |}.

(** every admonition of the subtree has a tag and a kind the printer knows *)
Fixpoint supported (n : Node) : bool :=
  match n with
  | Admonition _ _ tag kind _ blocks =>
      (String.eqb tag "???"
       || (String.eqb tag "!!!"
           && match kind_to_callout (PyStr.lower kind) with
              | Some _ => true
              | None => false
              end))
      && forallb supported blocks
  | Document _ _ blocks | ListItem _ _ blocks | Tab _ _ _ blocks
  | ConditionalBlock _ _ _ blocks _ => forallb supported blocks
  | UnorderedList _ _ items | OrderedList _ _ items => forallb supported items
  | TabBlock _ _ tabs => forallb supported tabs
  | _ => true
  end.

(** the result of a visit is a printer, or [NotImplementedError] when
    [may_fail] *)
Definition prints_or_unsupported (may_fail : bool) (r : Result MintPrinter)
  : Prop :=
  match r with
  | OK _ => True
  | Raise (NotImplementedError _) => may_fail = true
  | _ => False
  end.

(** a list item holding a paragraph and a code block *)
Definition item_with_code : Node :=
  UnorderedList 1 5
    [ListItem 1 5 [Paragraph 1 2 ["run"]; CodeBlock 2 5 None (Some "") "ls"]].

(** an admonition header followed by an indented line, a blank line and a
    line at the indent of the header *)
Definition admonition_scope : Parser :=
  {| _token := tok TEXT "inside" 2 4;
     _tokens := [tok BLANK "" 3 0; tok TEXT "outside" 4 0; tok EOF "" 5 0] |}.



Fixpoint all_chars (q : ascii -> bool) (s : string) : bool :=
  match s with
  | EmptyString => true
  | String c r => q c && all_chars q r
  end.




(** the tokens after an opening front-matter delimiter with two content
    lines, up to the end of the input *)
Definition front_matter_body : list Token :=
  [tok TEXT "title: Guide" 2 0; tok TEXT "tags: [a]" 3 0].

(** the line of a quote block taken from a blockquote token *)
Definition quote_line (t : Token) : string :=
  PyStr.lstrip_chars "> " (Token.value t).

(** the first character of [s], if any, is neither [>] nor a space *)
Definition starts_plain (s : string) : bool :=
  match first_char s with
  | Some c => negb (PyStr.in_chars "> " c)
  | None => true
  end.

(** the line of an HTML block taken from a raw-tag token *)
Definition html_line (t : Token) : string :=
  PyStr.mul " " (Token.indent t) ++ Token.value t.

(** the text holds a character that is not whitespace *)
Definition visible (s : string) : bool := negb (all_chars PyStr.is_space s).

(** an ordered list of two items followed by a bullet at the same indent *)
Definition list_then_bullet : Parser :=
  {| _token := tok OL_MARKER "1. one" 1 2;
     _tokens := [tok OL_MARKER "2. two" 2 2; tok UL_MARKER "- other" 3 2;
                 tok EOF "" 4 0] |}.

(** the token kind of the markers of a list *)
Definition marker_kind (ordered : bool) : TokenType :=
  if ordered then OL_MARKER else UL_MARKER.

(** the token is a marker of the list that started at [list_indent] *)
Definition sibling_marker (ordered : bool) (list_indent : Z) (t : Token)
  : bool :=
  is_kind [marker_kind ordered] t && (Token.indent t =? list_indent).

(** a bullet whose text is two indented lines, the first ending in two
    spaces *)
Definition item_of_two_lines : list Token :=
  [tok UL_MARKER "-" 1 0; tok TEXT "line one  " 2 2; tok TEXT "two" 3 2;
   tok EOF "" 4 0].

(** a bullet whose own text ends in two spaces, followed by another bullet *)
Definition item_with_trailing_spaces : list Token :=
  [tok UL_MARKER "- item  " 1 0; tok UL_MARKER "- next" 2 0; tok EOF "" 3 0].

(** a conditional block of one text line that is never closed *)
Definition unclosed_block_tokens : list Token :=
  [tok CONDITIONAL_BLOCK_OPEN ":::python" 1 0; tok TEXT "x = 1" 2 0;
   tok EOF "" 3 0].

(** * Properties *)

(** ** Strings *)

Lemma append_nil_r (s : string) : s ++ "" = s.
Proof. induction s as [|c s IH]; simpl; congruence. Qed.

Lemma lstrip_by_first (p : ascii -> bool) (s : string) (c : ascii) :
  first_char (PyStr.lstrip_by p s) = Some c -> p c = false.
Proof.
  induction s as [|x s IH]; simpl; [discriminate|].
  destruct (p x) eqn:E; [exact IH|].
  simpl. intros H. injection H as <-. exact E.
Qed.

Lemma rstrip_by_last (p : ascii -> bool) (s : string) (c : ascii) :
  last_char (PyStr.rstrip_by p s) = Some c -> p c = false.
Proof.
  induction s as [|x s IH]; simpl; [discriminate|].
  destruct (PyStr.rstrip_by p s) as [|y r] eqn:E.
  - destruct (p x) eqn:Px; simpl; [discriminate|].
    intros H. injection H as <-. exact Px.
  - simpl. exact IH.
Qed.

Lemma lstrip_by_last (p : ascii -> bool) (s : string) (c : ascii) :
  last_char (PyStr.lstrip_by p s) = Some c -> last_char s = Some c.
Proof.
  induction s as [|x s IH]; simpl; [discriminate|].
  destruct (p x).
  - intros H. specialize (IH H). destruct s; [discriminate|exact IH].
  - simpl. auto.
Qed.

Lemma strip_by_ends (p : ascii -> bool) (s : string) (c : ascii) :
  first_char (PyStr.strip_by p s) = Some c
  \/ last_char (PyStr.strip_by p s) = Some c ->
  p c = false.
Proof.
  unfold PyStr.strip_by. intros [H|H].
  - eapply lstrip_by_first; eauto.
  - eapply rstrip_by_last. eapply lstrip_by_last; eauto.
Qed.

Lemma strip_outer_space_free (s : string) :
  outer_space_free (PyStr.strip s) = true.
Proof.
  unfold outer_space_free, PyStr.strip.
  apply andb_true_intro; split; apply negb_true_iff.
  - destruct (first_char _) as [c|] eqn:E; simpl; [|reflexivity].
    eapply strip_by_ends; eauto.
  - destruct (last_char _) as [c|] eqn:E; simpl; [|reflexivity].
    eapply strip_by_ends; eauto.
Qed.

(** ** The output buffer *)

Lemma add_lines_eq (lines : list string) : forall self,
  add_lines self lines =
  {| output :=
       List.app (output self) (map (fun l => indent_of self ++ l) lines);
     indent_level := indent_level self;
     printed_first_heading := printed_first_heading self |}.
Proof.
  unfold add_lines.
  induction lines as [|l lines IH]; intros self; simpl.
  - rewrite app_nil_r. destruct self; reflexivity.
  - rewrite IH. unfold _add_line, indent_of; simpl.
    rewrite <- app_assoc. reflexivity.
Qed.

(** ** Paragraphs *)

(** C10, as amended: a paragraph that is visited as a block prints one line
    per stored line, each stripped of the whitespace at both ends and then
    prefixed with the current indent, so that the stripped text never begins
    or ends with a whitespace character; this is how a document prints a
    paragraph, and how a list item prints a paragraph that is not its first
    block, one indent level deeper.  A
    paragraph that is the first block of a list item is not printed that way:
    its stored lines are joined by single spaces, unstripped, into the one
    line that carries the marker, so a single stored line follows the marker
    exactly as it is stored. *)
Theorem paragraph_prints_stripped_lines :
  (forall (s l : Z) (value : list string) (self : MintPrinter),
      _visit (Paragraph s l value) self =
      OK {| output :=
              List.app (output self)
                (map (fun line => indent_of self ++ PyStr.strip line) value);
            indent_level := indent_level self;
            printed_first_heading := printed_first_heading self |}
      /\ Forall (fun line => outer_space_free (PyStr.strip line) = true)
           value)
  /\ (forall (prefix : string) (i : nat) (s l : Z) (value : list string)
             (self : MintPrinter),
        visit_item_block _visit prefix (S i) (Paragraph s l value) self =
        OK {| output :=
                List.app (output self)
                  (map (fun line => inner_indent_of self ++ PyStr.strip line)
                     value);
              indent_level := indent_level self;
              printed_first_heading := printed_first_heading self |})
  /\ (forall (prefix : string) (s l : Z) (value : list string)
             (self : MintPrinter),
        visit_item_block _visit prefix 0 (Paragraph s l value) self =
        OK {| output :=
                List.app (output self)
                  [indent_of self ++ prefix ++ PyStr.join " " value];
              indent_level := indent_level self;
              printed_first_heading := printed_first_heading self |})
  /\ (forall (a b c d s l : Z) (value : list string) (self : MintPrinter),
        _visit (UnorderedList a b [ListItem c d [Paragraph s l value]]) self =
        OK {| output :=
                List.app (output self)
                  [indent_of self ++ "* " ++ PyStr.join " " value];
              indent_level := indent_level self;
              printed_first_heading := printed_first_heading self |})
  /\ (forall line : string, PyStr.join " " [line] = line)
  /\ (forall (a b s l : Z) (value : list string) (self : MintPrinter),
        _visit (Document a b [Paragraph s l value]) self =
        OK {| output :=
                List.app (output self)
                  (map (fun line => indent_of self ++ PyStr.strip line) value);
              indent_level := indent_level self;
              printed_first_heading := printed_first_heading self |}).
Proof.
  split; [|split; [|split; [|split; [|split]]]].
  - intros s l value self. split.
    + simpl. unfold _visit_paragraph. rewrite add_lines_eq, map_map.
      reflexivity.
    + apply Forall_forall. intros line _. apply strip_outer_space_free.
  - intros prefix i s l value self. unfold visit_item_block.
    cbn [Nat.eqb _visit bind]. unfold _visit_paragraph.
    rewrite add_lines_eq, map_map. unfold shift_indent, inner_indent_of.
    cbn [output indent_level printed_first_heading bind indent_of].
    unfold indent_of. cbn [indent_level].
    replace (indent_level self + 1 + -1) with (indent_level self) by lia.
    reflexivity.
  - intros prefix s l value self. reflexivity.
  - intros a b c d s l value self. reflexivity.
  - intros line. reflexivity.
  - intros a b s l value self. cbn [_visit]. unfold _visit_document.
    cbn [for_each _visit bind Nat.ltb Nat.leb]. unfold _visit_paragraph.
    rewrite add_lines_eq, map_map. reflexivity.
Qed.

(** C10 as stated fails: the paragraph that opens a list item is not printed
    line by line and is not stripped.  A bullet followed by two indented text
    lines prints them as one line with the spaces that ended the first line
    kept, and the text of a bullet keeps the spaces it ends with. *)
Lemma first_paragraph_of_list_item_is_not_stripped :
  bind (Parser_init item_of_two_lines) (parse 4)
  = OK (Document 1 4
          [UnorderedList 1 4
             [ListItem 1 4 [Paragraph 2 4 ["line one  "; "two"]]]])
  /\ to_mint (lex_of item_of_two_lines) 4 "doc" None
     = OK ("* line one   two" ++ PyStr.nl)
  /\ to_mint (lex_of item_with_trailing_spaces) 4 "doc" None
     = OK ("* item  " ++ PyStr.nl ++ "* next" ++ PyStr.nl).
Proof. repeat split; reflexivity. Qed.

(** ** Re-printing with the same printer *)

(** C1: [print] clears the buffer and the indent level but keeps
    [printed_first_heading]; a document with a heading printed twice by one
    printer comes out as front matter the first time and as a heading line the
    second time. *)
Theorem reprint_with_same_printer_differs :
  let used :=
    {| output := ["---"; "title: Title"; "---"];
       indent_level := 0;
       printed_first_heading := true |} in
  print MintPrinter_init heading_doc
  = OK ("---" ++ PyStr.nl ++ "title: Title" ++ PyStr.nl ++ "---" ++ PyStr.nl,
        used)
  /\ print used heading_doc
     = OK ("# Title" ++ PyStr.nl,
           {| output := ["# Title"];
              indent_level := 0;
              printed_first_heading := true |}).
Proof. split; reflexivity. Qed.

(** ** The parse loop on a token no block parser consumes *)

Lemma while_advance_unfold {A : Type} (test : Token -> LoopTest)
  (step : A -> Token -> A) (cur : Token) (rest : list Token) (acc : A) :
  while_advance test step cur rest acc =
  match test cur with
  | Stop => OK (acc, {| _tokens := rest; _token := cur |})
  | Fail e => Raise e
  | Go =>
      match rest with
      | [] => Raise (end_of_input cur)
      | t :: r => while_advance test step t r (step acc cur)
      end
  end.
Proof. destruct rest; reflexivity. Qed.

Lemma while_kind_stop {A : Type} (go : Token -> bool)
  (step : A -> Token -> A) (self : Parser) (acc : A) :
  go (_token self) = false -> while_kind go step self acc = OK (acc, self).
Proof.
  intros H. unfold while_kind. rewrite while_advance_unfold, H.
  destruct self; reflexivity.
Qed.

Lemma paragraph_consumes_nothing (fuel : nat) (self : Parser) :
  is_kind [CONDITIONAL_BLOCK_CLOSE; FRONT_MATTER] (_token self) = true ->
  _parse_block (S fuel) self
  = OK (Paragraph (Token.line (_token self)) (Token.line (_token self)) [],
        self).
Proof.
  destruct self as [toks [ty v l i]]. unfold is_kind; simpl.
  destruct ty; simpl; intros H; try discriminate;
    unfold _parse_paragraph;
    rewrite while_kind_stop by reflexivity; cbn [bind];
    rewrite while_kind_stop by reflexivity; reflexivity.
Qed.

Lemma parse_loop_step_block (pb : Parser -> Result (Node * Parser))
  (fuel : nat) (self : Parser) (blocks : list Node) :
  _check self [EOF] = false -> _check self [BLANK] = false ->
  parse_loop pb (S fuel) self blocks =
  bind (pb self)
    (fun r => parse_loop pb fuel (snd r) (List.app blocks [fst r])).
Proof.
  intros E1 E2. cbn [parse_loop]. unfold _match. rewrite E1, E2.
  cbn [negb bind]. destruct (pb self) as [[b q]| |]; reflexivity.
Qed.

Lemma parse_loop_stuck (self : Parser) :
  is_kind [CONDITIONAL_BLOCK_CLOSE; FRONT_MATTER] (_token self) = true ->
  forall k fuel blocks,
    parse_loop (_parse_block k) fuel self blocks = OutOfFuel.
Proof.
  intros H k fuel. induction fuel as [|fuel IH]; intros blocks; [reflexivity|].
  assert (E : _check self [EOF] = false /\ _check self [BLANK] = false).
  { destruct self as [toks [ty v l i]]. unfold _check, is_kind in *; simpl in *.
    destruct ty; simpl in *; try discriminate; auto. }
  destruct E as [E1 E2]. cbn [parse_loop]. unfold _match.
  rewrite E1, E2. cbn [negb bind].
  destruct k as [|k]; [reflexivity|].
  rewrite (paragraph_consumes_nothing k self H). cbn [bind]. apply IH.
Qed.

(** C2: on a close marker or a front-matter delimiter in block position
    [_parse_block] falls through to [_parse_paragraph], which returns an empty
    paragraph and leaves the parser where it was; the loop of [parse] then
    repeats on the same token and no amount of fuel lets it finish. *)
Theorem parse_does_not_terminate_on_stray_close :
  (forall fuel,
      _parse_block (S fuel) stray_close = OK (Paragraph 1 1 [], stray_close))
  /\ (forall fuel, parse fuel stray_close = OutOfFuel)
  /\ (forall fuel, parse fuel late_front_matter = OutOfFuel).
Proof.
  split; [|split].
  - intros fuel. apply (paragraph_consumes_nothing fuel stray_close).
    reflexivity.
  - intros fuel. unfold parse. simpl.
    rewrite (parse_loop_stuck stray_close); reflexivity.
  - intros [|fuel]; [reflexivity|].
    unfold parse.
    change (_check late_front_matter [FRONT_MATTER]) with false.
    cbn [bind]. rewrite parse_loop_step_block by reflexivity.
    change (_parse_block (S fuel) late_front_matter)
      with (OK (Paragraph 1 2 ["intro"],
                {| _tokens := [tok EOF "" 3 0];
                   _token := tok FRONT_MATTER "---" 2 0 |})).
    cbn [bind snd fst]. rewrite parse_loop_stuck; reflexivity.
Qed.


(** ** Fenced code blocks *)

Lemma fence_body_unterminated (open_token : Token)
  (step : list string -> Token -> list string) :
  forall body eof tail cur rest acc,
    cur :: rest = List.app body (eof :: tail) ->
    Forall (fun t => is_kind [FENCE] t = false) body ->
    Token.type eof = EOF ->
    while_advance (fence_test open_token) step cur rest acc
    = Raise (unclosed_code_block open_token).
Proof.
  induction body as [|b body IH]; intros eof tail cur rest acc E HB HE.
  - simpl in E. injection E as -> ->.
    rewrite while_advance_unfold. unfold fence_test, is_kind. simpl.
    rewrite HE. reflexivity.
  - simpl in E. injection E as -> ->. inversion HB as [|? ? Hb HB']; subst.
    rewrite while_advance_unfold. unfold fence_test at 1. rewrite Hb.
    destruct (is_kind [EOF] b); [reflexivity|].
    destruct body as [|b' body]; simpl.
    + apply (IH eof tail eof tail); auto.
    + apply (IH eof tail b' (List.app body (eof :: tail))); auto.
Qed.

Lemma fence_body_terminated (open_token : Token) (fi : Z) :
  forall body close_token tail cur rest acc,
    cur :: rest = List.app body (close_token :: tail) ->
    Forall (fun t => is_kind [FENCE; EOF] t = false) body ->
    is_kind [FENCE] close_token = true ->
    while_advance (fence_test open_token)
      (fun acc tok => List.app acc [body_line fi tok]) cur rest acc
    = OK (List.app acc (map (body_line fi) body),
          {| _tokens := tail; _token := close_token |}).
Proof.
  induction body as [|b body IH]; intros close_token tail cur rest acc E HB HC.
  - simpl in E. injection E as -> ->.
    rewrite while_advance_unfold. unfold fence_test. rewrite HC.
    simpl. rewrite app_nil_r. reflexivity.
  - simpl in E. injection E as -> ->. inversion HB as [|? ? Hb HB']; subst.
    rewrite while_advance_unfold. unfold fence_test at 1.
    assert (Hb' : is_kind [FENCE] b = false /\ is_kind [EOF] b = false).
    { unfold is_kind in *. simpl in *.
      destruct (TokenType.eqb (Token.type b) FENCE); [discriminate|].
      destruct (TokenType.eqb (Token.type b) EOF); [discriminate|]. auto. }
    destruct Hb' as [-> ->].
    destruct body as [|b' body]; simpl.
    + rewrite (IH close_token tail close_token tail); auto.
      simpl. rewrite app_nil_r. reflexivity.
    + rewrite (IH close_token tail b' (List.app body (close_token :: tail)));
        auto.
      simpl. rewrite <- app_assoc. reflexivity.
Qed.

Lemma dispatch_fence (fuel : nat) (self : Parser) :
  Token.type (_token self) = FENCE ->
  _parse_block (S fuel) self = _parse_code_block self.
Proof.
  intros H. cbn [_parse_block]. unfold _check, is_kind. simpl.
  rewrite H. reflexivity.
Qed.

Lemma parse_code_block_unfold (open_token first : Token) (rest : list Token) :
  _parse_code_block {| _tokens := first :: rest; _token := open_token |} =
  let fence_body := PyStr.strip (PyStr.drop 3 (Token.value open_token)) in
  let parts := PyStr.split_max " " 1 fence_body in
  let lm :=
    match parts with
    | [lang; meta] => (Some lang, meta)
    | _ => (if PyStr.truthy (hd "" parts) then Some (hd "" parts) else None,
            "")
    end in
  bind (while_advance (fence_test open_token)
          (fun acc tok =>
             List.app acc [body_line (Token.indent open_token) tok])
          first rest [])
    (fun r =>
       bind (_advance (snd r))
         (fun a =>
            OK (CodeBlock (Token.line open_token) (Token.line (fst a) + 1)
                  (fst lm) (Some (snd lm)) (PyStr.join PyStr.nl (fst r)),
                snd a))).
Proof.
  unfold _parse_code_block, _advance. cbn [_tokens _token bind].
  cbv zeta.
  destruct (match PyStr.split_max " " 1 _ with [lang; meta] => _ | _ => _ end)
    as [language meta].
  cbn [fst snd]. unfold fence_test.
  destruct (while_advance _ _ first rest []) as [[bl q]| |]; cbn [bind];
    [|reflexivity|reflexivity].
  cbn [fst snd]. destruct (_tokens q); reflexivity.
Qed.

Lemma truthy_ne (s : string) : s <> "" -> PyStr.truthy s = true.
Proof. destruct s; [congruence|reflexivity]. Qed.

(** C8: a fence that reaches the end-of-input token without meeting a closing
    fence makes [_parse_block] raise the parse error of an unclosed code
    block, whose line is the line of the opening fence; the loop of [parse]
    and [parse] itself pass it on, and [to_mint] raises it with the file path
    it was given. *)
Theorem unterminated_fence_raises_at_opening_line :
  forall (fuel : nat) (open_token eof : Token) (body tail : list Token),
    Token.type open_token = FENCE ->
    Forall (fun t => is_kind [FENCE] t = false) body ->
    Token.type eof = EOF ->
    let self :=
      {| _tokens := List.app body (eof :: tail); _token := open_token |} in
    _parse_block (S fuel) self = Raise (unclosed_code_block open_token)
    /\ (forall k blocks,
           parse_loop (_parse_block (S fuel)) (S k) self blocks
           = Raise (unclosed_code_block open_token))
    /\ parse (S fuel) self = Raise (unclosed_code_block open_token)
    /\ (forall lex markdown file_path,
           markdown <> "" ->
           lex markdown = open_token :: List.app body (eof :: tail) ->
           to_mint lex (S fuel) markdown file_path
           = Raise (unclosed_from_to_mint open_token file_path)).
Proof.
  intros fuel open_token eof body tail HO HB HE self.
  assert (B : _parse_block (S fuel) self = Raise (unclosed_code_block open_token)).
  { rewrite dispatch_fence by exact HO. unfold self.
    destruct (List.app body (eof :: tail)) as [|first rest] eqn:E.
    { destruct body; discriminate. }
    rewrite parse_code_block_unfold. cbv zeta.
    rewrite (fence_body_unterminated open_token _ body eof tail); auto. }
  assert (C : _check self [EOF] = false /\ _check self [BLANK] = false
              /\ _check self [FRONT_MATTER] = false).
  { unfold _check, is_kind, self. simpl. rewrite HO. auto. }
  destruct C as (C1 & C2 & C3).
  assert (L : forall k blocks,
             parse_loop (_parse_block (S fuel)) (S k) self blocks
             = Raise (unclosed_code_block open_token)).
  { intros k blocks. rewrite parse_loop_step_block by assumption.
    rewrite B. reflexivity. }
  assert (P : parse (S fuel) self = Raise (unclosed_code_block open_token)).
  { unfold parse. rewrite C3. cbn [bind]. rewrite L. reflexivity. }
  repeat split; auto.
  intros lex markdown file_path HM HL.
  unfold to_mint, convert. rewrite (truthy_ne _ HM), HL.
  cbn [negb Parser_init bind]. fold self. rewrite P. cbn [bind].
  unfold unclosed_code_block, unclosed_from_to_mint. cbn.
  destruct file_path; reflexivity.
Qed.

Lemma unterminated_fence_witness :
  let open_token := tok FENCE "```python" 3 2 in
  to_mint (lex_of [open_token; tok TEXT "x = 1" 4 2; tok EOF "" 5 0])
    2 "doc" (Some "guide.md")
  = Raise (unclosed_from_to_mint open_token (Some "guide.md"))
  /\ ParseError.line
       {| ParseError.message := "Unclosed code block";
          ParseError.line := Some (Token.line open_token);
          ParseError.token := Some open_token;
          ParseError.expected := Some "closing fence '```'";
          ParseError.found := Some "end of file";
          ParseError.file_path := Some "guide.md" |} = Some 3.
Proof.
  intros open_token. split; [|reflexivity].
  apply (unterminated_fence_raises_at_opening_line 1 open_token
           (tok EOF "" 5 0) [tok TEXT "x = 1" 4 2] []).
  - reflexivity.
  - repeat constructor.
  - reflexivity.
  - discriminate.
  - reflexivity.
Defined.

Lemma split_no_sep (c : ascii) (s : string) :
  PyStr.contains_char c s = false -> PyStr.split c s = [s].
Proof.
  unfold PyStr.contains_char.
  induction s as [|x s IH]; simpl; [reflexivity|].
  intros H. apply orb_false_iff in H as [Hx Hs].
  rewrite Hx, (IH Hs). reflexivity.
Qed.

Lemma split_app_sep (c : ascii) (a rest : string) :
  PyStr.contains_char c a = false ->
  PyStr.split c (a ++ String c rest) = a :: PyStr.split c rest.
Proof.
  unfold PyStr.contains_char.
  induction a as [|x a IH]; simpl.
  - intros _. rewrite Ascii.eqb_refl. reflexivity.
  - intros H. apply orb_false_iff in H as [Hx Ha].
    rewrite Hx, (IH Ha). reflexivity.
Qed.

Lemma split_join (c : ascii) (ls : list string) :
  ls <> [] ->
  Forall (fun l => PyStr.contains_char c l = false) ls ->
  PyStr.split c (PyStr.join (String c "") ls) = ls.
Proof.
  induction ls as [|x ls IH]; [congruence|].
  intros _ H. inversion H as [|? ? Hx Hls]; subst.
  destruct ls as [|y ls].
  - simpl. apply split_no_sep; assumption.
  - change (PyStr.join (String c "") (x :: y :: ls))
      with (x ++ String c (PyStr.join (String c "") (y :: ls))).
    rewrite split_app_sep by assumption.
    rewrite IH; [reflexivity|discriminate|assumption].
Qed.

Lemma contains_char_app (c : ascii) (a b : string) :
  PyStr.contains_char c (a ++ b)
  = PyStr.contains_char c a || PyStr.contains_char c b.
Proof.
  unfold PyStr.contains_char.
  induction a as [|x a IH]; simpl; [reflexivity|].
  rewrite IH, orb_assoc. reflexivity.
Qed.

Lemma repeat_space_no_newline (n : nat) :
  PyStr.contains_char PyStr.newline (PyStr.repeat_str " " n) = false.
Proof. induction n as [|n IH]; [reflexivity|exact IH]. Qed.

Lemma body_line_no_newline (fi : Z) (t : Token) :
  no_newline t = true ->
  PyStr.contains_char PyStr.newline (body_line fi t) = false.
Proof.
  unfold no_newline, body_line, PyStr.mul. intros H.
  apply negb_true_iff in H.
  rewrite contains_char_app, repeat_space_no_newline, H. reflexivity.
Qed.

Lemma visit_codeblock_output (language meta : option string)
  (content : string) (self : MintPrinter) :
  exists fence_line,
    _visit_codeblock language meta content self =
    {| output :=
         List.app (output self)
           ((indent_of self ++ fence_line)
            :: List.app
                 (if PyStr.truthy content
                  then map (fun l => indent_of self ++ l)
                         (PyStr.split PyStr.newline content)
                  else [])
                 [indent_of self ++ "```"]);
       indent_level := indent_level self;
       printed_first_heading := printed_first_heading self |}.
Proof.
  unfold _visit_codeblock. cbv zeta.
  match goal with
  | |- context [_add_line self ?fl] => exists fl; generalize fl
  end.
  intros fl. destruct (PyStr.truthy content).
  - rewrite add_lines_eq. unfold _add_line, indent_of. simpl.
    rewrite <- !app_assoc. reflexivity.
  - unfold _add_line, indent_of. simpl.
    rewrite <- !app_assoc. reflexivity.
Qed.

(** C7: a fenced block whose body tokens lie between the opening and the
    closing fence parses to a [CodeBlock], and printing it emits, for each
    body line in order, the printer's indent followed by exactly
    [max 0 (line_indent - fence_indent)] spaces and the text of the line;
    nothing is printed for the body when its content is the empty string. *)
Theorem fence_body_keeps_relative_indent :
  forall (fuel : nat) (open_token close_token next : Token)
         (body tail : list Token) (self : MintPrinter),
    Token.type open_token = FENCE ->
    Forall (fun t => is_kind [FENCE; EOF] t = false) body ->
    Forall (fun t => no_newline t = true) body ->
    Token.type close_token = FENCE ->
    exists (language meta : option string) (fence_line : string),
      let content :=
        PyStr.join PyStr.nl (map (body_line (Token.indent open_token)) body) in
      let node :=
        CodeBlock (Token.line open_token) (Token.line close_token + 1)
          language meta content in
      _parse_block (S fuel)
        {| _tokens := List.app body (close_token :: next :: tail);
           _token := open_token |}
      = OK (node, {| _tokens := tail; _token := next |})
      /\ _visit node self
         = OK {| output :=
                   List.app (output self)
                     ((indent_of self ++ fence_line)
                      :: List.app
                           (if PyStr.truthy content
                            then map (printed_body_line self open_token) body
                            else [])
                           [indent_of self ++ "```"]);
                 indent_level := indent_level self;
                 printed_first_heading := printed_first_heading self |}.
Proof.
  intros fuel open_token close_token next body tail self HO HB HN HC.
  pose (parts := PyStr.split_max " " 1
                   (PyStr.strip (PyStr.drop 3 (Token.value open_token)))).
  pose (lm := match parts with
              | [lang; meta] => (Some lang, meta)
              | _ => (if PyStr.truthy (hd "" parts)
                      then Some (hd "" parts) else None, "")
              end).
  destruct (visit_codeblock_output (fst lm) (Some (snd lm))
              (PyStr.join PyStr.nl (map (body_line (Token.indent open_token)) body)) self)
    as [fence_line HV].
  exists (fst lm), (Some (snd lm)), fence_line. cbv zeta. split.
  - rewrite dispatch_fence by exact HO.
    destruct (List.app body (close_token :: next :: tail))
      as [|first rest] eqn:E.
    { destruct body; discriminate. }
    rewrite parse_code_block_unfold. cbv zeta.
    assert (HC' : is_kind [FENCE] close_token = true).
    { unfold is_kind. simpl. rewrite HC. reflexivity. }
    rewrite (fence_body_terminated open_token (Token.indent open_token) body close_token
               (next :: tail) first rest [] (eq_sym E) HB HC').
    reflexivity.
  - cbn [_visit]. rewrite HV.
    set (content :=
           PyStr.join PyStr.nl
             (map (body_line (Token.indent open_token)) body)).
    assert (M : (if PyStr.truthy content
                 then map (fun l => indent_of self ++ l)
                        (PyStr.split PyStr.newline content)
                 else [])
                = (if PyStr.truthy content
                   then map (printed_body_line self open_token) body
                   else [])).
    { destruct (PyStr.truthy content) eqn:T; [|reflexivity].
      unfold content. change PyStr.nl with (String PyStr.newline "").
      rewrite split_join.
      - rewrite map_map. reflexivity.
      - destruct body; [discriminate T|discriminate].
      - apply Forall_forall. intros l Hl.
        apply in_map_iff in Hl as (t & <- & Ht).
        apply body_line_no_newline.
        rewrite Forall_forall in HN. auto. }
    rewrite M. reflexivity.
Qed.

Lemma fence_body_keeps_relative_indent_witness :
  let open_token := tok FENCE "```python" 1 2 in
  let close_token := tok FENCE "```" 4 2 in
  let body := [tok TEXT "deep" 2 4; tok TEXT "shallow" 3 0] in
  exists (language meta : option string) (fence_line : string),
    _parse_block 1
      {| _tokens := List.app body [close_token; tok EOF "" 5 0];
         _token := open_token |}
    = OK (CodeBlock 1 5 language meta ("  deep" ++ PyStr.nl ++ "shallow"),
          {| _tokens := []; _token := tok EOF "" 5 0 |})
    /\ _visit (CodeBlock 1 5 language meta ("  deep" ++ PyStr.nl ++ "shallow"))
         MintPrinter_init
       = OK {| output := [fence_line; "  deep"; "shallow"; "```"];
               indent_level := 0;
               printed_first_heading := false |}.
Proof.
  intros open_token close_token body.
  apply (fence_body_keeps_relative_indent 0 open_token close_token
           (tok EOF "" 5 0) body [] MintPrinter_init).
  - reflexivity.
  - repeat constructor.
  - repeat constructor.
  - reflexivity.
Defined.

(** ** What a visit does to the printer *)

Lemma Node_children_ind (P : Node -> Prop) :
  (forall n, Forall P (children n) -> P n) -> forall n, P n.
Proof.
  intros H.
  refine (fix IH (n : Node) : P n :=
            let all :=
              fix all (l : list Node) : Forall P l :=
                match l with
                | [] => Forall_nil P
                | x :: r => Forall_cons x (IH x) (all r)
                end in
            _).
  apply H. destruct n; simpl; try apply all; constructor.
Qed.

Lemma extends_refl (b : bool) (s : MintPrinter) : extends b s s.
Proof.
  repeat split; auto. exists []. rewrite app_nil_r. reflexivity.
Qed.

Lemma extends_trans (b1 b2 : bool) (s1 s2 s3 : MintPrinter) :
  extends b1 s1 s2 -> extends b2 s2 s3 -> extends (b1 || b2) s1 s3.
Proof.
  intros (I1 & [o1 O1] & F1 & G1) (I2 & [o2 O2] & F2 & G2).
  repeat split.
  - congruence.
  - exists (List.app o1 o2). rewrite O2, O1, app_assoc. reflexivity.
  - auto.
  - intros E. apply orb_false_iff in E as [E1 E2].
    rewrite (G2 E2), (G1 E1). reflexivity.
Qed.

Lemma extends_weaken (b : bool) (s s' : MintPrinter) :
  extends false s s' -> extends b s s'.
Proof.
  intros (I & O & F & G). repeat split; auto.
Qed.

Lemma extends_trans_l (b : bool) (s1 s2 s3 : MintPrinter) :
  extends false s1 s2 -> extends b s2 s3 -> extends b s1 s3.
Proof. intros H1 H2. exact (extends_trans false b _ _ _ H1 H2). Qed.

Lemma extends_trans_r (b : bool) (s1 s2 s3 : MintPrinter) :
  extends b s1 s2 -> extends false s2 s3 -> extends b s1 s3.
Proof.
  intros H1 H2. rewrite <- (orb_false_r b).
  exact (extends_trans b false _ _ _ H1 H2).
Qed.

Lemma extends_add_line (s : MintPrinter) (line : string) :
  extends false s (_add_line s line).
Proof.
  repeat split; auto. eexists. reflexivity.
Qed.

Lemma extends_add_lines (s : MintPrinter) (lines : list string) :
  extends false s (add_lines s lines).
Proof.
  rewrite add_lines_eq. repeat split; auto. eexists. reflexivity.
Qed.

(** a visit one indent level deeper, then back *)
Lemma extends_shifted (b : bool) (d : Z) (s s1 : MintPrinter) :
  extends b (shift_indent d s) s1 -> extends b s (shift_indent (- d) s1).
Proof.
  intros (I & O & F & G). unfold extends, shift_indent in *. simpl in *.
  split; [lia|]. split; [exact O|]. split; assumption.
Qed.

Lemma for_each_extends {A : Type} (h : A -> bool)
  (body : nat -> A -> MintPrinter -> Result MintPrinter) (l : list A) :
  Forall (fun x => forall i s s', body i x s = OK s' -> extends (h x) s s') l ->
  forall i s s', for_each body l i s = OK s' -> extends (existsb h l) s s'.
Proof.
  induction 1 as [|x l Hx Hl IH]; intros i s s' E; simpl in *.
  - injection E as <-. apply extends_refl.
  - destruct (body i x s) as [s1| |] eqn:B; simpl in E; try discriminate.
    eapply extends_trans; eauto.
Qed.

Lemma bind_OK {A B : Type} (m : Result A) (k : A -> Result B) (b : B) :
  bind m k = OK b -> exists a, m = OK a /\ k a = OK b.
Proof. destruct m; simpl; intros H; try discriminate. eauto. Qed.

Lemma visit_heading_extends (level : Z) (value : string) (s : MintPrinter) :
  extends true s (_visit_heading level value s).
Proof.
  unfold _visit_heading. cbv zeta.
  destruct (printed_first_heading s) eqn:F.
  - apply extends_trans_r with
      (s2 := match heading_anchor value with
             | Some a =>
                 if PyStr.truthy a
                 then _add_line s ("<a id=" ++ PyStr.quoted a ++ "></a>")
                 else s
             | None => s
             end).
    + apply extends_weaken.
      destruct (heading_anchor value) as [a|]; [destruct (PyStr.truthy a)|];
        auto using extends_refl, extends_add_line.
    + apply extends_add_line.
  - repeat split; simpl; auto; try discriminate.
    eexists. rewrite <- !app_assoc. reflexivity.
Qed.

Lemma visit_htmlblock_extends (content : string) (s : MintPrinter) :
  extends false s (_visit_htmlblock content s).
Proof.
  unfold _visit_htmlblock.
  generalize (PyStr.split PyStr.newline content) as lines.
  generalize O at 2 as i. intros i lines. revert i s.
  induction lines as [|l lines IH]; intros i s; simpl.
  - apply extends_refl.
  - eapply extends_trans_l; [|apply IH].
    destruct (_ || _); apply extends_add_line.
Qed.

Section VisitChildren.

Variable blocks : list Node.
Hypothesis IH : Forall visit_extends_at blocks.

Lemma visit_separated_extends (s s' : MintPrinter) :
  visit_separated _visit blocks s = OK s' ->
  extends (existsb contains_heading blocks) s s'.
Proof.
  unfold visit_separated. apply for_each_extends.
  eapply Forall_impl; [|exact IH].
  intros b Hb i s0 s1 E. apply Hb in E.
  eapply extends_trans_l; [|exact E].
  destruct (0 <? i)%nat; auto using extends_refl, extends_add_line.
Qed.

Lemma visit_document_extends (s s' : MintPrinter) :
  _visit_document _visit blocks s = OK s' ->
  extends (existsb contains_heading blocks) s s'.
Proof.
  unfold _visit_document. apply for_each_extends.
  eapply Forall_impl; [|exact IH].
  intros b Hb i s0 s1 E. apply bind_OK in E as (s2 & E1 & E2).
  apply Hb in E1. injection E2 as <-.
  eapply extends_trans_r; [exact E1|].
  destruct (0 <? i)%nat; auto using extends_refl, extends_add_line.
Qed.

Lemma visit_item_blocks_extends (prefix : string) (i : nat)
  (s s' : MintPrinter) :
  for_each (visit_item_block _visit prefix) blocks i s = OK s' ->
  extends (existsb contains_heading blocks) s s'.
Proof.
  apply for_each_extends.
  eapply Forall_impl; [|exact IH].
  intros b Hb j s0 s1 E. unfold visit_item_block in E.
  destruct (Nat.eqb j 0).
  - destruct b;
      try (apply Hb in E; eapply extends_trans_l;
           [apply extends_add_line|exact E]).
    injection E as <-. apply extends_add_line.
  - apply bind_OK in E as (s2 & E1 & E2). injection E2 as <-.
    apply Hb in E1. apply (extends_shifted _ 1). exact E1.
Qed.

Lemma visit_tab_body_extends (line : string) (s s' : MintPrinter) :
  bind (visit_separated _visit blocks (shift_indent 1 (_add_line s line)))
    (fun self => OK (_add_line (shift_indent (-1) self) "</Tab>")) = OK s' ->
  extends (existsb contains_heading blocks) s s'.
Proof.
  intros E. apply bind_OK in E as (s2 & E1 & E2). injection E2 as <-.
  apply visit_separated_extends in E1.
  eapply extends_trans_r; [|apply extends_add_line].
  eapply extends_trans_l; [apply (extends_add_line s line)|].
  apply (extends_shifted _ 1). exact E1.
Qed.

Lemma visit_admonition_extends (tag kind title : string)
  (s s' : MintPrinter) :
  _visit_admonition _visit tag kind title blocks s = OK s' ->
  extends (existsb contains_heading blocks) s s'.
Proof.
  unfold _visit_admonition. cbv zeta.
  destruct (String.eqb tag "???").
  - intros E. apply bind_OK in E as (s2 & E1 & E2). injection E2 as <-.
    apply visit_separated_extends in E1.
    eapply extends_trans_r; [|apply extends_add_line].
    apply (extends_shifted _ 1) in E1.
    eapply extends_trans_l; [|exact E1].
    destruct (PyStr.truthy title); apply extends_add_line.
  - destruct (String.eqb tag "!!!"); [|discriminate].
    destruct (kind_to_callout (PyStr.lower kind)) as [callout|];
      [|discriminate].
    intros E. apply bind_OK in E as (s2 & E1 & E2). injection E2 as <-.
    apply visit_separated_extends in E1.
    eapply extends_trans_r; [|apply extends_add_line].
    destruct (PyStr.truthy title).
    + assert (E0 : extends (existsb contains_heading blocks)
                     (shift_indent 1 (_add_line s ("<" ++ callout ++ ">")))
                     s2).
      { eapply extends_trans_l; [apply extends_add_line|exact E1]. }
      apply (extends_shifted _ 1) in E0.
      eapply extends_trans_l; [apply extends_add_line|exact E0].
    + apply (extends_shifted _ 1) in E1.
      eapply extends_trans_l; [apply extends_add_line|exact E1].
Qed.

Lemma visit_conditionalblock_extends (language : string)
  (s s' : MintPrinter) :
  _visit_conditionalblock _visit language blocks s = OK s' ->
  extends (existsb contains_heading blocks) s s'.
Proof.
  unfold _visit_conditionalblock. cbv zeta. intros E.
  apply bind_OK in E as (s2 & E1 & E2). injection E2 as <-.
  apply visit_separated_extends in E1.
  eapply extends_trans_r; [|apply extends_add_line].
  eapply extends_trans_l; [apply extends_add_line|exact E1].
Qed.

End VisitChildren.

Lemma visit_codeblock_extends (language meta : option string)
  (content : string) (s : MintPrinter) :
  extends false s (_visit_codeblock language meta content s).
Proof.
  destruct (visit_codeblock_output language meta content s) as [fl ->].
  split; [reflexivity|]. split; [|split; auto].
  eexists. reflexivity.
Qed.

Lemma visit_extends_all (n : Node) :
  visit_extends_at n
  /\ (forall prefix s s',
        _visit_list_item _visit n prefix s = OK s' ->
        extends (contains_heading n) s s')
  /\ (forall s s',
        visit_one_tab _visit n s = OK s' ->
        extends (contains_heading n) s s').
Proof.
  induction n as [n IH] using Node_children_ind.
  assert (IH1 : Forall visit_extends_at (children n)).
  { eapply Forall_impl; [|exact IH]. intros a H. apply H. }
  assert (IHitem : forall s s',
             _visit_unorderedlist _visit (children n) s = OK s' ->
             extends (existsb contains_heading (children n)) s s').
  { unfold _visit_unorderedlist. intros s s'. apply for_each_extends.
    eapply Forall_impl; [|exact IH]. intros a H i s0 s1. apply H. }
  assert (IHoitem : forall s s',
             _visit_orderedlist _visit (children n) s = OK s' ->
             extends (existsb contains_heading (children n)) s s').
  { unfold _visit_orderedlist. intros s s'. apply for_each_extends.
    eapply Forall_impl; [|exact IH]. intros a H i s0 s1. apply H. }
  assert (IHtab : forall s s',
             _visit_tabblock _visit (children n) s = OK s' ->
             extends (existsb contains_heading (children n)) s s').
  { unfold _visit_tabblock. cbv zeta. intros s s' E.
    apply bind_OK in E as (s2 & E1 & E2). injection E2 as <-.
    eapply extends_trans_r; [|apply extends_add_line].
    eapply extends_trans_l; [apply (extends_add_line s "<Tabs>")|].
    apply (extends_shifted _ 1). revert E1. apply for_each_extends.
    eapply Forall_impl; [|exact IH]. intros a H i s0 s1. apply H. }
  unfold visit_extends_at.
  destruct n; cbn [children] in *; (split; [|split]);
    cbn [_visit _visit_list_item visit_one_tab contains_heading];
    try (intros; discriminate).
  all: intros.
  all: try (match goal with H : OK _ = OK _ |- _ => injection H as <- end).
  all: eauto using visit_document_extends, visit_item_blocks_extends,
         visit_heading_extends, extends_add_lines, visit_admonition_extends,
         visit_conditionalblock_extends, visit_htmlblock_extends,
         extends_refl, visit_tab_body_extends.
  all: try (apply extends_add_lines).
  all: try (eapply visit_tab_body_extends; eauto).
  apply visit_codeblock_extends.
Qed.

Lemma visit_extends (n : Node) (s s' : MintPrinter) :
  _visit n s = OK s' -> extends (contains_heading n) s s'.
Proof. apply (visit_extends_all n). Qed.

(** ** Headings *)

Lemma search_acorn_nonempty (value g : string) :
  Re.search_acorn value = Some g -> PyStr.truthy g = true.
Proof.
  induction value as [|c value IH].
  - simpl. discriminate.
  - cbn [Re.search_acorn].
    destruct (Re.match_acorn_here (String c value)) as [[g' r]|] eqn:M;
      [|exact IH].
    intros E. injection E as ->.
    unfold Re.match_acorn_here in M.
    repeat match type of M with
           | match ?x with _ => _ end = _ => destruct x eqn:?; try discriminate
           | (if ?x then _ else _) = _ => destruct x eqn:?; try discriminate
           | (let (_, _) := ?x in _) = _ => destruct x eqn:?
           end.
    injection M as -> _. unfold PyStr.truthy.
    match goal with H : PyStr.is_empty _ = false |- _ => rewrite H end.
    reflexivity.
Qed.

Lemma search_paren_nonempty (value g : string) :
  Re.search_paren value = Some g -> PyStr.truthy g = true.
Proof.
  induction value as [|c value IH].
  - simpl. discriminate.
  - cbn [Re.search_paren].
    destruct (Re.match_paren_here (String c value)) as [g'|] eqn:M;
      [|exact IH].
    intros E. injection E as ->.
    unfold Re.match_paren_here in M.
    repeat match type of M with
           | match ?x with _ => _ end = _ => destruct x eqn:?; try discriminate
           | (if ?x then _ else _) = _ => destruct x eqn:?; try discriminate
           | (let (_, _) := ?x in _) = _ => destruct x eqn:?
           end.
    injection M as ->. unfold PyStr.truthy.
    match goal with H : PyStr.is_empty _ = false |- _ => rewrite H end.
    reflexivity.
Qed.


Lemma heading_anchor_cases (value : string) :
  match Re.search_acorn value, Re.search_paren value with
  | Some g, _ =>
      heading_anchor value = Some (Re._slugify g)
      /\ heading_text value = PyStr.strip (Re.sub_acorn value)
  | None, Some g =>
      heading_anchor value = Some (Re._slugify g)
      /\ heading_text value = PyStr.strip (Re.sub_paren value)
  | None, None => heading_anchor value = None /\ heading_text value = value
  end.
Proof.
  unfold heading_anchor, heading_text, extract_anchor.
  destruct (Re.search_acorn value) as [g|] eqn:A.
  - simpl. rewrite (search_acorn_nonempty _ _ A). auto.
  - destruct (Re.search_paren value) as [g|] eqn:B.
    + simpl. rewrite (search_paren_nonempty _ _ B). auto.
    + auto.
Qed.




(** ** Admonitions *)

Lemma all_visits_extend (blocks : list Node) : Forall visit_extends_at blocks.
Proof.
  apply Forall_forall. intros n _ s s'. apply visit_extends.
Qed.

Lemma visit_separated_grows (blocks : list Node) (s s' : MintPrinter) :
  visit_separated _visit blocks s = OK s' ->
  indent_level s' = indent_level s
  /\ exists out, output s' = List.app (output s) out.
Proof.
  intros E.
  apply (visit_separated_extends blocks (all_visits_extend blocks)) in E.
  destruct E as (I & O & _). auto.
Qed.

Lemma kind_to_callout_recognized (kind : string) :
  kind_to_callout kind <> None -> In kind recognized_kinds.
Proof.
  unfold kind_to_callout, recognized_kinds.
  repeat match goal with
         | |- context [String.eqb kind ?k] =>
             destruct (String.eqb_spec kind k); [subst; simpl; tauto|]
         end.
  congruence.
Qed.

Lemma parse_admonition_default_kind
  (pb : Parser -> Result (Node * Parser)) (fuel : nat)
  (self self' : Parser) (node : Node) (tag : string) :
  PyStr.split_ws 2 (Token.value (_token self)) = [tag] ->
  _parse_admonition pb fuel self = OK (node, self') ->
  exists limit blocks,
    node = Admonition (Token.line (_token self)) limit tag "note" "" blocks.
Proof.
  intros S E. unfold _parse_admonition in E.
  apply bind_OK in E as ([header q] & A & E).
  unfold _advance in A. destruct (_tokens self); [discriminate|].
  injection A as <- <-. rewrite S in E.
  apply bind_OK in E as ([body q'] & _ & E). injection E as <- _.
  eauto.
Qed.

Lemma visit_callout_output (s l : Z) (kind title callout : string)
  (blocks : list Node) (self self' : MintPrinter) :
  kind_to_callout (PyStr.lower kind) = Some callout ->
  _visit (Admonition s l "!!!" kind title blocks) self = OK self' ->
  exists start inner body,
    start = List.app (output self)
              ((indent_of self ++ "<" ++ callout ++ ">")
               :: bold_title_lines self title)
    /\ visit_separated _visit blocks
         {| output := start;
            indent_level := indent_level self + 1;
            printed_first_heading := printed_first_heading self |} = OK inner
    /\ output inner = List.app start body
    /\ output self'
       = List.app start
           (List.app body [indent_of self ++ "</" ++ callout ++ ">"]).
Proof.
  intros K E. cbn [_visit] in E. unfold _visit_admonition in E.
  change (String.eqb "!!!" "???") with false in E.
  change (String.eqb "!!!" "!!!") with true in E.
  cbv zeta in E. cbv iota in E. rewrite K in E.
  apply bind_OK in E as (inner & V & E). injection E as <-.
  match type of V with
  | visit_separated _ _ ?s0 = _ =>
      assert (S0 : s0 =
                   {| output :=
                        List.app (output self)
                          ((indent_of self ++ "<" ++ callout ++ ">")
                           :: bold_title_lines self title);
                      indent_level := indent_level self + 1;
                      printed_first_heading := printed_first_heading self |})
  end.
  { unfold bold_title_lines, inner_indent_of, indent_of, _add_line,
      shift_indent.
    destruct (PyStr.truthy title); simpl; rewrite <- ?app_assoc; reflexivity. }
  rewrite S0 in V.
  destruct (visit_separated_grows _ _ _ V) as (I & body & O).
  simpl in I, O.
  eexists; exists inner, body. split; [reflexivity|].
  split; [exact V|]. split; [exact O|].
  unfold _add_line, shift_indent, indent_of. simpl. rewrite O, I.
  replace (indent_level self + 1 + -1) with (indent_level self) by lia.
  rewrite <- app_assoc. reflexivity.
Qed.

Lemma visit_accordion_output (s l : Z) (kind title : string)
  (blocks : list Node) (self self' : MintPrinter) :
  _visit (Admonition s l "???" kind title blocks) self = OK self' ->
  exists start inner body,
    start = List.app (output self) [indent_of self ++ accordion_open title]
    /\ visit_separated _visit blocks
         {| output := start;
            indent_level := indent_level self + 1;
            printed_first_heading := printed_first_heading self |} = OK inner
    /\ output inner = List.app start body
    /\ output self'
       = List.app start (List.app body [indent_of self ++ "</Accordion>"]).
Proof.
  intros E. cbn [_visit] in E. unfold _visit_admonition in E.
  change (String.eqb "???" "???") with true in E.
  cbv zeta in E. cbv iota in E.
  apply bind_OK in E as (inner & V & E). injection E as <-.
  match type of V with
  | visit_separated _ _ ?s0 = _ =>
      assert (S0 : s0 =
                   {| output :=
                        List.app (output self)
                          [indent_of self ++ accordion_open title];
                      indent_level := indent_level self + 1;
                      printed_first_heading := printed_first_heading self |})
  end.
  { unfold accordion_open, indent_of, _add_line, shift_indent.
    destruct (PyStr.truthy title); reflexivity. }
  rewrite S0 in V.
  destruct (visit_separated_grows _ _ _ V) as (I & body & O).
  simpl in I, O.
  eexists; exists inner, body. split; [reflexivity|].
  split; [exact V|]. split; [exact O|].
  unfold _add_line, shift_indent, indent_of. simpl. rewrite O, I.
  replace (indent_level self + 1 + -1) with (indent_level self) by lia.
  rewrite <- app_assoc. reflexivity.
Qed.

Lemma visit_admonition_unsupported (s l : Z) (kind title : string)
  (blocks : list Node) (self : MintPrinter) :
  kind_to_callout (PyStr.lower kind) = None ->
  _visit (Admonition s l "!!!" kind title blocks) self
  = Raise (unsupported_kind (PyStr.lower kind)).
Proof.
  intros K. cbn [_visit]. unfold _visit_admonition.
  change (String.eqb "!!!" "???") with false.
  change (String.eqb "!!!" "!!!") with true.
  cbv zeta. cbv iota. rewrite K. reflexivity.
Qed.

(** C6, as amended: the table recognises six kinds, the five named after
    their callout and [important], which shares the callout of [warning]; an
    admonition with tag [!!!] and a recognised kind (in any letter case)
    prints between the opening and closing tags of that callout, with its
    title, if any, as a bold line; any other kind raises
    [NotImplementedError]; a header without a kind parses with kind [note];
    an admonition with tag [???] prints between accordion tags with its title
    as the title attribute of the opening tag and no bold line. *)
Theorem admonition_kinds_map_to_callouts :
  (kind_to_callout "note" = Some "Note"
   /\ kind_to_callout "warning" = Some "Warning"
   /\ kind_to_callout "info" = Some "Info"
   /\ kind_to_callout "tip" = Some "Tip"
   /\ kind_to_callout "danger" = Some "Danger"
   /\ kind_to_callout "important" = Some "Warning")
  /\ (forall kind, kind_to_callout kind <> None -> In kind recognized_kinds)
  /\ (forall s l kind title callout blocks self self',
        kind_to_callout (PyStr.lower kind) = Some callout ->
        _visit (Admonition s l "!!!" kind title blocks) self = OK self' ->
        exists start inner body,
          start = List.app (output self)
                    ((indent_of self ++ "<" ++ callout ++ ">")
                     :: bold_title_lines self title)
          /\ visit_separated _visit blocks
               {| output := start;
                  indent_level := indent_level self + 1;
                  printed_first_heading := printed_first_heading self |}
             = OK inner
          /\ output inner = List.app start body
          /\ output self'
             = List.app start
                 (List.app body [indent_of self ++ "</" ++ callout ++ ">"]))
  /\ (forall s l kind title blocks self,
        kind_to_callout (PyStr.lower kind) = None ->
        _visit (Admonition s l "!!!" kind title blocks) self
        = Raise (unsupported_kind (PyStr.lower kind)))
  /\ (forall pb fuel self self' node tag,
        PyStr.split_ws 2 (Token.value (_token self)) = [tag] ->
        _parse_admonition pb fuel self = OK (node, self') ->
        exists limit blocks,
          node = Admonition (Token.line (_token self)) limit tag "note" ""
                   blocks)
  /\ (forall s l kind title blocks self self',
        _visit (Admonition s l "???" kind title blocks) self = OK self' ->
        exists start inner body,
          start = List.app (output self)
                    [indent_of self ++ accordion_open title]
          /\ visit_separated _visit blocks
               {| output := start;
                  indent_level := indent_level self + 1;
                  printed_first_heading := printed_first_heading self |}
             = OK inner
          /\ output inner = List.app start body
          /\ output self'
             = List.app start
                 (List.app body [indent_of self ++ "</Accordion>"])).
Proof.
  split; [repeat split|].
  split; [exact kind_to_callout_recognized|].
  split; [exact visit_callout_output|].
  split; [exact visit_admonition_unsupported|].
  split; [exact parse_admonition_default_kind|].
  exact visit_accordion_output.
Qed.

Lemma admonition_kinds_map_to_callouts_witness :
  let self' :=
    {| output := ["<Tip>"; "  **Read me**"; "  text"; "</Tip>"];
       indent_level := 0;
       printed_first_heading := false |} in
  exists start inner body,
    start = List.app (output MintPrinter_init)
              ((indent_of MintPrinter_init ++ "<" ++ "Tip" ++ ">")
               :: bold_title_lines MintPrinter_init "Read me")
    /\ visit_separated _visit [Paragraph 2 3 ["text"]]
         {| output := start;
            indent_level := indent_level MintPrinter_init + 1;
            printed_first_heading :=
              printed_first_heading MintPrinter_init |} = OK inner
    /\ output inner = List.app start body
    /\ output self'
       = List.app start
           (List.app body [indent_of MintPrinter_init ++ "</" ++ "Tip" ++ ">"]).
Proof.
  intros self'.
  destruct admonition_kinds_map_to_callouts as (_ & _ & H & _).
  apply (H 1 3 "TIP" "Read me" "Tip" [Paragraph 2 3 ["text"]]
           MintPrinter_init self');
    reflexivity.
Defined.

(** C6 as stated fails: [important] is not one of the five kinds named after
    a callout, and an admonition of that kind prints as a warning callout
    instead of failing. *)
Lemma important_is_a_sixth_recognized_kind :
  ~ In "important" callout_named_kinds
  /\ _visit (Admonition 1 2 "!!!" "important" "" []) MintPrinter_init
     = OK {| output := ["<Warning>"; "</Warning>"];
             indent_level := 0;
             printed_first_heading := false |}.
Proof.
  split; [|reflexivity].
  unfold callout_named_kinds. simpl.
  intros H. repeat destruct H as [H|H]; try discriminate H. exact H.
Qed.

(** ** Conditional blocks *)

Lemma parse_conditional_block_bad_language
  (pb : Parser -> Result (Node * Parser)) (fuel : nat)
  (open_token next : Token) (rest : list Token) :
  PyStr.startswith ":::" (Token.value open_token) = true ->
  String.eqb (PyStr.strip (PyStr.drop 3 (Token.value open_token))) "python"
  || String.eqb (PyStr.strip (PyStr.drop 3 (Token.value open_token))) "js"
  = false ->
  _parse_conditional_block pb fuel
    {| _tokens := next :: rest; _token := open_token |}
  = Raise (invalid_language
             (PyStr.strip (PyStr.drop 3 (Token.value open_token)))).
Proof.
  intros P L. unfold _parse_conditional_block, _advance.
  cbn [_tokens _token bind]. rewrite P. cbn [negb]. cbv zeta.
  rewrite L. reflexivity.
Qed.


Lemma while_kind_run {A : Type} (go : Token -> bool) (step : A -> Token -> A) :
  forall body stop tail cur rest acc,
    cur :: rest = List.app body (stop :: tail) ->
    Forall (fun t => go t = true) body ->
    go stop = false ->
    while_kind go step {| _tokens := rest; _token := cur |} acc
    = OK (fold_left step body acc, {| _tokens := tail; _token := stop |}).
Proof.
  unfold while_kind. cbn [_token _tokens].
  induction body as [|b body IH]; intros stop tail cur rest acc E HB HS.
  - simpl in E. injection E as -> ->.
    rewrite while_advance_unfold, HS. reflexivity.
  - simpl in E. injection E as -> ->. inversion HB as [|? ? Hb HB']; subst.
    rewrite while_advance_unfold, Hb.
    destruct body as [|b' body]; simpl.
    + apply (IH stop tail stop tail); auto.
    + apply (IH stop tail b' (List.app body (stop :: tail))); auto.
Qed.

Lemma fold_left_snoc_values (texts : list Token) : forall acc,
  fold_left (fun acc t => List.app acc [Token.value t]) texts acc
  = List.app acc (map Token.value texts).
Proof.
  induction texts as [|t texts IH]; intros acc; simpl.
  - rewrite app_nil_r. reflexivity.
  - rewrite IH, <- app_assoc. reflexivity.
Qed.

Lemma parse_paragraph_texts (texts : list Token) (stop cur : Token)
  (tail rest : list Token) :
  cur :: rest = List.app texts (stop :: tail) ->
  Forall (fun t => is_kind [TEXT] t = true) texts ->
  is_kind [TEXT] stop = false ->
  is_kind [BLANK] stop = false ->
  _parse_paragraph {| _tokens := rest; _token := cur |}
  = OK (Paragraph (Token.line cur) (Token.line stop) (map Token.value texts),
        {| _tokens := tail; _token := stop |}).
Proof.
  intros E HT HS HB. unfold _parse_paragraph.
  rewrite (while_kind_run _ _ texts stop tail cur rest [] E HT HS).
  cbn [bind]. rewrite while_kind_stop by exact HB.
  cbn [bind]. rewrite fold_left_snoc_values. reflexivity.
Qed.

Lemma conditional_body_stops (pb : Parser -> Result (Node * Parser)) :
  forall fuel self blocks blocks' self',
    conditional_body pb fuel self blocks = OK (blocks', self') ->
    _check self' [EOF] = true \/ _check self' [CONDITIONAL_BLOCK_CLOSE] = true.
Proof.
  induction fuel as [|fuel IH]; intros self blocks blocks' self' E;
    [discriminate|].
  cbn [conditional_body] in E.
  destruct (_check self [EOF]) eqn:C1; cbn [negb] in E.
  - injection E as <- <-. auto.
  - destruct (_check self [CONDITIONAL_BLOCK_CLOSE]) eqn:C2.
    + injection E as <- <-. auto.
    + apply bind_OK in E as ([m q] & _ & E). destruct m.
      * eapply IH; eauto.
      * apply bind_OK in E as ([b q'] & _ & E). eapply IH; eauto.
Qed.

Lemma parse_conditional_block_allowed
  (pb : Parser -> Result (Node * Parser)) (fuel : nat)
  (open_token next : Token) (rest : list Token) :
  PyStr.startswith ":::" (Token.value open_token) = true ->
  allowed_language (block_language open_token) = true ->
  _parse_conditional_block pb fuel
    {| _tokens := next :: rest; _token := open_token |}
  = bind (conditional_body pb fuel {| _tokens := rest; _token := next |} [])
      (fun r =>
         if _check (snd r) [CONDITIONAL_BLOCK_CLOSE] then
           bind (_advance (snd r))
             (fun a =>
                OK (ConditionalBlock (Token.line open_token)
                      (Token.line (fst a) + 1) (block_language open_token)
                      (fst r) (Token.indent open_token), snd a))
         else Raise (missing_close open_token)).
Proof.
  intros P L. unfold _parse_conditional_block, _advance.
  cbn [_tokens _token bind]. rewrite P. cbn [negb]. cbv zeta.
  unfold allowed_language, block_language in L. rewrite L. cbn [negb].
  destruct (conditional_body pb fuel _ []) as [[blocks q]| |];
    cbn [bind fst snd]; try reflexivity.
  destruct (_check q [CONDITIONAL_BLOCK_CLOSE]); cbn [negb]; [|reflexivity].
  destruct (_tokens q); reflexivity.
Qed.

Lemma visit_conditionalblock_output (s l ind : Z) (language : string)
  (blocks : list Node) (self self' : MintPrinter) :
  _visit (ConditionalBlock s l language blocks ind) self = OK self' ->
  exists inner body,
    visit_separated _visit blocks (_add_line self (":::" ++ language))
    = OK inner
    /\ output inner
       = List.app (output self)
           ((indent_of self ++ ":::" ++ language) :: body)
    /\ output self'
       = List.app (output self)
           ((indent_of self ++ ":::" ++ language)
            :: List.app body [indent_of self ++ ":::"]).
Proof.
  intros E. cbn [_visit] in E. unfold _visit_conditionalblock in E.
  cbv zeta in E. apply bind_OK in E as (inner & V & E). injection E as <-.
  destruct (visit_separated_grows _ _ _ V) as (I & body & O).
  exists inner, body. split; [exact V|].
  unfold _add_line, indent_of in *. simpl in *.
  rewrite O, I, <- !app_assoc. simpl. auto.
Qed.

Lemma check_kind (t : Token) (rest : list Token) (kind : TokenType)
  (kinds : list TokenType) :
  Token.type t = kind ->
  _check {| _tokens := rest; _token := t |} kinds
  = existsb (TokenType.eqb kind) kinds.
Proof. intros <-. reflexivity. Qed.

Lemma parse_conditional_text_body (k : nat) (open_token first close_token
  after : Token) (texts tail : list Token) :
  Token.type open_token = CONDITIONAL_BLOCK_OPEN ->
  PyStr.startswith ":::" (Token.value open_token) = true ->
  allowed_language (block_language open_token) = true ->
  Forall (fun t => Token.type t = TEXT) (first :: texts) ->
  Token.type close_token = CONDITIONAL_BLOCK_CLOSE ->
  _parse_block (S (S (S k)))
    {| _tokens := first :: List.app texts (close_token :: after :: tail);
       _token := open_token |}
  = OK (ConditionalBlock (Token.line open_token) (Token.line close_token + 1)
          (block_language open_token)
          [Paragraph (Token.line first) (Token.line close_token)
             (map Token.value (first :: texts))]
          (Token.indent open_token),
        {| _tokens := tail; _token := after |}).
Proof.
  intros HO HP HL HT HC.
  assert (HF : Token.type first = TEXT) by (inversion HT; assumption).
  cbn [_parse_block].
  rewrite !(check_kind _ _ _ _ HO). cbn [existsb TokenType.eqb orb].
  rewrite parse_conditional_block_allowed by assumption.
  cbn [conditional_body].
  rewrite !(check_kind _ _ _ _ HF). cbn [existsb TokenType.eqb orb negb].
  unfold _match. rewrite !(check_kind _ _ _ _ HF).
  cbn [existsb TokenType.eqb orb bind _parse_block].
  rewrite !(check_kind _ _ _ _ HF). cbn [existsb TokenType.eqb orb].
  rewrite (parse_paragraph_texts (first :: texts) close_token first
             (after :: tail)).
  - cbn [bind]. rewrite !(check_kind _ _ _ _ HC).
    cbn [existsb TokenType.eqb orb negb bind fst snd].
    rewrite !(check_kind _ _ _ _ HC).
    cbn [existsb TokenType.eqb orb negb bind fst snd].
    reflexivity.
  - reflexivity.
  - eapply Forall_impl; [|exact HT]. intros t Ht.
    unfold is_kind. simpl. rewrite Ht. reflexivity.
  - unfold is_kind. simpl. rewrite HC. reflexivity.
  - unfold is_kind. simpl. rewrite HC. reflexivity.
Qed.

Lemma parse_conditional_text_unclosed (k : nat) (open_token eof : Token)
  (texts tail : list Token) :
  Token.type open_token = CONDITIONAL_BLOCK_OPEN ->
  PyStr.startswith ":::" (Token.value open_token) = true ->
  allowed_language (block_language open_token) = true ->
  Forall (fun t => Token.type t = TEXT) texts ->
  Token.type eof = EOF ->
  _parse_block (S (S (S k)))
    {| _tokens := List.app texts (eof :: tail); _token := open_token |}
  = Raise (missing_close open_token).
Proof.
  intros HO HP HL HT HE.
  cbn [_parse_block].
  rewrite !(check_kind _ _ _ _ HO). cbn [existsb TokenType.eqb orb].
  destruct texts as [|first texts]; cbn [List.app].
  - rewrite parse_conditional_block_allowed by assumption.
    cbn [conditional_body].
    rewrite !(check_kind _ _ _ _ HE). cbn [existsb TokenType.eqb orb negb].
    cbn [bind fst snd]. rewrite !(check_kind _ _ _ _ HE). reflexivity.
  - assert (HF : Token.type first = TEXT) by (inversion HT; assumption).
    rewrite parse_conditional_block_allowed by assumption.
    cbn [conditional_body].
    rewrite !(check_kind _ _ _ _ HF). cbn [existsb TokenType.eqb orb negb].
    unfold _match. rewrite !(check_kind _ _ _ _ HF).
    cbn [existsb TokenType.eqb orb bind _parse_block].
    rewrite !(check_kind _ _ _ _ HF). cbn [existsb TokenType.eqb orb].
    rewrite (parse_paragraph_texts (first :: texts) eof first tail).
    + cbn [bind]. rewrite !(check_kind _ _ _ _ HE).
      cbn [existsb TokenType.eqb orb negb bind fst snd].
      rewrite !(check_kind _ _ _ _ HE). reflexivity.
    + reflexivity.
    + eapply Forall_impl; [|exact HT]. intros t Ht.
      unfold is_kind. simpl. rewrite Ht. reflexivity.
    + unfold is_kind. simpl. rewrite HE. reflexivity.
    + unfold is_kind. simpl. rewrite HE. reflexivity.
Qed.

Lemma visit_conditional_text (s l ind a b : Z) (language : string)
  (lines : list string) (self : MintPrinter) :
  _visit (ConditionalBlock s l language [Paragraph a b lines] ind) self
  = OK {| output :=
            List.app (output self)
              (map (fun line => indent_of self ++ line)
                 ((":::" ++ language)
                  :: List.app (map PyStr.strip lines) [":::"]));
          indent_level := indent_level self;
          printed_first_heading := printed_first_heading self |}.
Proof.
  cbn [_visit]. unfold _visit_conditionalblock, visit_separated.
  cbn [for_each Nat.ltb Nat.leb _visit bind]. unfold _visit_paragraph.
  rewrite add_lines_eq. unfold _add_line, indent_of. simpl.
  rewrite map_app, <- !app_assoc. simpl. reflexivity.
Qed.

(** ** The errors of the entry point *)

(** C3, as amended: a [ParseError] raised inside [to_mint] leaves it as a
    [ParseError] with the same message, line, token, expected and found
    fields, and with the file path of the call when the inner error carried
    none; any other exception leaves [to_mint] as it is, with no file path:
    a conditional block with a language that is not allowed raises
    [ValueError], so does one with an allowed language whose body of text
    lines runs to the end of the input without a close marker, and an
    admonition of an unknown kind raises [NotImplementedError]. *)
Theorem to_mint_error_surface :
  forall (lex : string -> list Token) (fuel : nat) (markdown : string)
         (file_path : option string),
    markdown <> "" ->
    (forall e,
        convert lex fuel markdown = Raise (ParseError e) ->
        exists e',
          to_mint lex fuel markdown file_path = Raise (ParseError e')
          /\ same_diagnostic e e'
          /\ ParseError.file_path e'
             = match ParseError.file_path e with
               | Some f => Some f
               | None => file_path
               end)
    /\ (forall x,
          convert lex fuel markdown = Raise x ->
          is_parse_error x = false ->
          to_mint lex fuel markdown file_path = Raise x)
    /\ (forall open_token next rest k,
          lex markdown = open_token :: next :: rest ->
          Token.type open_token = CONDITIONAL_BLOCK_OPEN ->
          PyStr.startswith ":::" (Token.value open_token) = true ->
          String.eqb (PyStr.strip (PyStr.drop 3 (Token.value open_token)))
            "python"
          || String.eqb (PyStr.strip (PyStr.drop 3 (Token.value open_token)))
               "js" = false ->
          fuel = S (S k) ->
          to_mint lex fuel markdown file_path
          = Raise (invalid_language
                     (PyStr.strip (PyStr.drop 3 (Token.value open_token)))))
    /\ (forall open_token eof texts tail k,
          lex markdown = open_token :: List.app texts (eof :: tail) ->
          Token.type open_token = CONDITIONAL_BLOCK_OPEN ->
          PyStr.startswith ":::" (Token.value open_token) = true ->
          allowed_language (block_language open_token) = true ->
          Forall (fun t => Token.type t = TEXT) texts ->
          Token.type eof = EOF ->
          fuel = S (S (S k)) ->
          to_mint lex fuel markdown file_path
          = Raise (ValueError
                     ("Missing closing tag ':::' for conditional "
                      ++ "block starting at line "
                      ++ PyStr.of_Z (Token.line open_token))))
    /\ (forall s l kind title blocks self,
          kind_to_callout (PyStr.lower kind) = None ->
          _visit (Admonition s l "!!!" kind title blocks) self
          = Raise (NotImplementedError
                     (Some ("Unsupported admonition kind: "
                            ++ PyStr.lower kind)))).
Proof.
  intros lex fuel markdown file_path HM.
  assert (T : PyStr.truthy markdown = true) by (apply truthy_ne; exact HM).
  split; [|split; [|split; [|split]]].
  - intros e E. unfold to_mint. rewrite T, E. cbn [negb].
    destruct e as [m ln t ex fo fp]. unfold same_diagnostic.
    destruct fp as [f|]; [|destruct file_path as [f|]];
      eexists; (split; [reflexivity|]); simpl; auto 10.
  - intros x E N. unfold to_mint. rewrite T, E. cbn [negb].
    destruct x; try reflexivity. discriminate N.
  - intros open_token next rest k HL HT HP HLang ->.
    unfold to_mint, convert. rewrite T, HL. cbn [negb Parser_init bind].
    assert (P : parse (S (S k))
                  {| _tokens := next :: rest; _token := open_token |}
                = Raise (invalid_language
                           (PyStr.strip
                              (PyStr.drop 3 (Token.value open_token))))).
    { unfold parse.
      assert (C : forall kinds,
                 _check {| _tokens := next :: rest; _token := open_token |}
                   kinds
                 = existsb (TokenType.eqb CONDITIONAL_BLOCK_OPEN) kinds).
      { intros kinds. unfold _check, is_kind. simpl. rewrite HT.
        reflexivity. }
      rewrite C. cbn [existsb TokenType.eqb orb bind].
      rewrite parse_loop_step_block by (rewrite C; reflexivity).
      cbn [_parse_block]. rewrite !C.
      cbn [existsb TokenType.eqb orb].
      rewrite parse_conditional_block_bad_language by assumption.
      reflexivity. }
    rewrite P. reflexivity.
  - intros open_token eof texts tail k HL HT HP HLang HTx HE ->.
    unfold to_mint, convert. rewrite T, HL. cbn [negb Parser_init bind].
    assert (C : forall kinds,
               _check {| _tokens := List.app texts (eof :: tail);
                         _token := open_token |} kinds
               = existsb (TokenType.eqb CONDITIONAL_BLOCK_OPEN) kinds).
    { intros kinds. apply check_kind. exact HT. }
    unfold parse. rewrite C. cbn [existsb TokenType.eqb orb bind].
    rewrite parse_loop_step_block by (rewrite C; reflexivity).
    rewrite parse_conditional_text_unclosed by assumption.
    reflexivity.
  - intros s l kind title blocks self K.
    apply visit_admonition_unsupported. exact K.
Qed.

Lemma to_mint_error_surface_witness :
  let open_token := tok FENCE "```" 7 0 in
  exists e',
    to_mint (lex_of [open_token; tok EOF "" 8 0]) 2 "doc" (Some "guide.md")
    = Raise (ParseError e')
    /\ same_diagnostic
         {| ParseError.message := "Unclosed code block";
            ParseError.line := Some 7;
            ParseError.token := Some open_token;
            ParseError.expected := Some "closing fence '```'";
            ParseError.found := Some "end of file";
            ParseError.file_path := None |} e'
    /\ ParseError.file_path e' = Some "guide.md".
Proof.
  intros open_token.
  assert (M : "doc" <> "") by discriminate.
  destruct (to_mint_error_surface (lex_of [open_token; tok EOF "" 8 0]) 2
              "doc" (Some "guide.md") M) as (H & _).
  apply (H {| ParseError.message := "Unclosed code block";
              ParseError.line := Some 7;
              ParseError.token := Some open_token;
              ParseError.expected := Some "closing fence '```'";
              ParseError.found := Some "end of file";
              ParseError.file_path := None |}).
  reflexivity.
Defined.

(** C3 as stated fails: a conditional block with a language that is not
    allowed leaves [to_mint] as a [ValueError], and an admonition of an
    unknown kind as a [NotImplementedError]; neither is a [ParseError] and
    neither carries the file path of the call.  The same holds of a
    conditional block that is not closed before the end of the input. *)
Lemma to_mint_raises_other_exceptions :
  to_mint (lex_of ruby_block_tokens) 3 "doc" (Some "guide.md")
  = Raise (ValueError
             ("Invalid conditional block language: ruby. "
              ++ "Must be 'python' or 'js'"))
  /\ to_mint (lex_of hint_admonition_tokens) 3 "doc" (Some "guide.md")
     = Raise (NotImplementedError (Some "Unsupported admonition kind: hint"))
  /\ to_mint (lex_of unclosed_block_tokens) 3 "doc" (Some "guide.md")
     = Raise (ValueError
                ("Missing closing tag ':::' for conditional "
                 ++ "block starting at line 1")).
Proof. repeat split; reflexivity. Qed.

(** ** Lists and the end of the output *)

Lemma visit_list_item_starts_with_marker (item : Node) (prefix : string)
  (self self' : MintPrinter) :
  _visit_list_item _visit item prefix self = OK self' ->
  children item <> [] ->
  indent_level self' = indent_level self
  /\ exists chunk,
      output self' = List.app (output self) chunk
      /\ starts_with_marker self prefix chunk.
Proof.
  intros E NE.
  assert (B : for_each (visit_item_block _visit prefix) (children item) O self
              = OK self').
  { destruct item; try discriminate E; exact E. }
  clear E. destruct (children item) as [|b0 bs]; [congruence|]. clear NE.
  cbn [for_each] in B. apply bind_OK in B as (s1 & F & R).
  apply (visit_item_blocks_extends bs (all_visits_extend bs)) in R.
  destruct R as (I & [out O] & _).
  assert (F' : indent_level s1 = indent_level self
               /\ exists text more,
                   output s1
                   = List.app (output self)
                       ((indent_of self ++ prefix ++ text) :: more)).
  { unfold visit_item_block in F. cbn [Nat.eqb] in F.
    destruct b0;
      try (apply visit_extends in F; destruct F as (I1 & [o1 O1] & _);
           split; [exact I1|]; exists "", o1; rewrite O1;
           unfold _add_line, indent_of; simpl;
           rewrite append_nil_r, <- app_assoc; reflexivity).
    injection F as <-. split; [reflexivity|].
    eexists; exists []. reflexivity. }
  destruct F' as (I1 & text & more & O1). split; [congruence|].
  exists ((indent_of self ++ prefix ++ text) :: List.app more out).
  split.
  - rewrite O, O1, <- app_assoc. reflexivity.
  - exists text, (List.app more out). reflexivity.
Qed.

Lemma visit_items_chunks (marker : nat -> string) (items : list Node) :
  Forall (fun item => children item <> []) items ->
  forall i self self',
    for_each (fun i item self => _visit_list_item _visit item (marker i) self)
      items i self = OK self' ->
    indent_level self' = indent_level self
    /\ exists chunks,
        List.length chunks = List.length items
        /\ output self' = List.app (output self) (List.concat chunks)
        /\ forall k chunk,
             nth_error chunks k = Some chunk ->
             starts_with_marker self (marker (i + k)%nat) chunk.
Proof.
  induction 1 as [|item items Hitem Hitems IH]; intros i self self' E.
  - injection E as <-. split; [reflexivity|]. exists [].
    repeat split; [simpl; rewrite app_nil_r; reflexivity|].
    intros [|k] chunk N; discriminate N.
  - cbn [for_each] in E. apply bind_OK in E as (s1 & F & R).
    destruct (visit_list_item_starts_with_marker _ _ _ _ F Hitem)
      as (I1 & chunk & O1 & M1).
    destruct (IH _ _ _ R) as (I2 & chunks & L & O2 & M2).
    split; [congruence|]. exists (chunk :: chunks).
    split; [simpl; congruence|]. split.
    + rewrite O2, O1, <- app_assoc. reflexivity.
    + intros [|k] c N; simpl in N.
      * injection N as <-. rewrite Nat.add_0_r. exact M1.
      * specialize (M2 k c N).
        replace (i + S k)%nat with (S i + k)%nat by lia.
        destruct M2 as (text & more & ->). exists text, more.
        unfold indent_of. rewrite I1. reflexivity.
Qed.

Lemma to_mint_OK_inv (lex : string -> list Token) (fuel : nat)
  (markdown : string) (file_path : option string) (out : string) :
  markdown <> "" ->
  to_mint lex fuel markdown file_path = OK out ->
  exists doc self,
    print MintPrinter_init doc = OK (out, self).
Proof.
  intros HM E. unfold to_mint in E. rewrite (truthy_ne _ HM) in E.
  cbn [negb] in E.
  destruct (convert lex fuel markdown) as [o|x|] eqn:C.
  - injection E as ->. unfold convert in C.
    apply bind_OK in C as (parser & _ & C).
    apply bind_OK in C as (doc & _ & C).
    apply bind_OK in C as ([text self] & P & C). injection C as ->.
    eauto.
  - destruct x as [e| | | | |]; try discriminate E.
    destruct (ParseError.file_path e), file_path; discriminate E.
  - discriminate E.
Qed.

(** C9, as amended: for an ordered list whose items each hold at least one
    block, the printed lines fall into one group per item, in item order, and
    the group of the item at 1-based position [k] starts with the line of the
    marker [k.], whatever the source marker was; for such an unordered list
    every group starts with the same bullet; when [to_mint] succeeds on a
    non-empty input its output is a text that does not end in whitespace
    followed by one newline; the empty input gives the empty output. *)
Theorem list_markers_and_final_newline :
  (forall s l items self self',
      _visit (OrderedList s l items) self = OK self' ->
      Forall (fun item => children item <> []) items ->
      exists chunks,
        List.length chunks = List.length items
        /\ output self' = List.app (output self) (List.concat chunks)
        /\ forall k chunk,
             nth_error chunks k = Some chunk ->
             starts_with_marker self (ordered_marker (k + 1)) chunk)
  /\ (forall s l items self self',
        _visit (UnorderedList s l items) self = OK self' ->
        Forall (fun item => children item <> []) items ->
        exists chunks,
          List.length chunks = List.length items
          /\ output self' = List.app (output self) (List.concat chunks)
          /\ forall k chunk,
               nth_error chunks k = Some chunk ->
               starts_with_marker self "* " chunk)
  /\ (ordered_marker 1 = "1. " /\ ordered_marker 2 = "2. "
      /\ ordered_marker 3 = "3. " /\ ordered_marker 12 = "12. ")
  /\ (forall lex fuel markdown file_path out,
        markdown <> "" ->
        to_mint lex fuel markdown file_path = OK out ->
        exists body,
          out = body ++ PyStr.nl /\ opt_space (last_char body) = false)
  /\ (forall lex fuel file_path, to_mint lex fuel "" file_path = OK "").
Proof.
  split; [|split; [|split; [|split]]].
  - intros s l items self self' E NE. cbn [_visit] in E.
    unfold _visit_orderedlist in E.
    destruct (visit_items_chunks ordered_marker items NE _ _ _ E)
      as (_ & chunks & L & O & M).
    exists chunks. repeat split; auto.
    intros k chunk N. rewrite Nat.add_comm. apply M. exact N.
  - intros s l items self self' E NE. cbn [_visit] in E.
    unfold _visit_unorderedlist in E.
    destruct (visit_items_chunks (fun _ => "* ") items NE _ _ _ E)
      as (_ & chunks & L & O & M).
    exists chunks. repeat split; auto.
  - repeat split.
  - intros lex fuel markdown file_path out HM E.
    destruct (to_mint_OK_inv _ _ _ _ _ HM E) as (doc & self & P).
    unfold print in P. apply bind_OK in P as (s1 & _ & P).
    injection P as <- _.
    eexists. split; [reflexivity|].
    destruct (last_char _) as [c|] eqn:LC; [|reflexivity].
    simpl. eapply rstrip_by_last. exact LC.
  - reflexivity.
Qed.

Lemma list_markers_witness :
  let self' :=
    {| output := ["1. a"; "2. b"; "3. c"];
       indent_level := 0;
       printed_first_heading := false |} in
  exists chunks,
    List.length chunks = List.length three_items
    /\ output self'
       = List.app (output MintPrinter_init) (List.concat chunks)
    /\ forall k chunk,
         nth_error chunks k = Some chunk ->
         starts_with_marker MintPrinter_init (ordered_marker (k + 1)) chunk.
Proof.
  intros self'.
  destruct list_markers_and_final_newline as (H & _).
  apply (H 1 4 three_items MintPrinter_init self').
  - reflexivity.
  - repeat constructor; discriminate.
Defined.

(** C9 as stated fails: an item with a bare marker and no nested block has no
    block to carry its marker, so a list of two items whose first is empty
    prints the single marker [2.]. *)
Lemma empty_item_prints_no_marker :
  to_mint (lex_of empty_item_tokens) 4 "doc" None = OK ("2. b" ++ PyStr.nl)
  /\ _visit (OrderedList 1 3
               [ListItem 1 2 []; ListItem 2 3 [Paragraph 2 3 ["b"]]])
       MintPrinter_init
     = OK {| output := ["2. b"];
             indent_level := 0;
             printed_first_heading := false |}.
Proof. split; reflexivity. Qed.

(** ** What re-printing does preserve *)

(** X6: printing again with the same printer gives the same text when the
    node holds no heading, or when the printer had already printed one. *)
Lemma reprint_is_stable (self self' : MintPrinter) (node : Node)
  (text : string) :
  contains_heading node = false \/ printed_first_heading self = true ->
  print self node = OK (text, self') ->
  print self' node = OK (text, self').
Proof.
  intros H E. unfold print in *.
  apply bind_OK in E as (s1 & V & E). injection E as <- <-.
  assert (F : printed_first_heading s1 = printed_first_heading self).
  { destruct (visit_extends _ _ _ V) as (_ & _ & Keep & Same).
    simpl in Keep, Same. destruct H as [H|H]; [auto|].
    rewrite H. auto. }
  rewrite F, V. reflexivity.
Qed.

(** ** Worked examples *)

(** the example of the specification: a heading with a parenthesised anchor,
    a blank line and a paragraph *)
Example hello_world :
  to_mint
    (lex_of [tok HEADING "# Hello (hello-anchor)" 1 0; tok BLANK "" 2 0;
             tok TEXT "World" 3 0; tok EOF "" 4 0])
    6 "doc" None
  = OK ("---" ++ PyStr.nl ++ "title: Hello" ++ PyStr.nl ++ "---" ++ PyStr.nl
        ++ "World" ++ PyStr.nl).
Proof. reflexivity. Qed.

(** source markers 7, 3 and 9 come out as 1, 2 and 3 *)
Example renumbered_list :
  to_mint
    (lex_of [tok OL_MARKER "7. a" 1 0; tok OL_MARKER "3. b" 2 0;
             tok OL_MARKER "9. c" 3 0; tok EOF "" 4 0])
    6 "doc" None
  = OK ("1. a" ++ PyStr.nl ++ "2. b" ++ PyStr.nl ++ "3. c" ++ PyStr.nl).
Proof. reflexivity. Qed.

(** a fence at indent 2 with a line at indent 4 and a line at indent 0 *)
Example fenced_block :
  to_mint
    (lex_of [tok FENCE "```python" 1 2; tok TEXT "deep" 2 4;
             tok TEXT "shallow" 3 0; tok FENCE "```" 4 2; tok EOF "" 5 0])
    6 "doc" None
  = OK ("```python" ++ PyStr.nl ++ "  deep" ++ PyStr.nl ++ "shallow"
        ++ PyStr.nl ++ "```" ++ PyStr.nl).
Proof. reflexivity. Qed.

(** a fence whose only body line is blank prints no body line *)
Example blank_fenced_line_is_dropped :
  to_mint
    (lex_of [tok FENCE "```" 1 0; tok BLANK "" 2 0; tok FENCE "```" 3 0;
             tok EOF "" 4 0])
    6 "doc" None
  = OK ("```" ++ PyStr.nl ++ "```" ++ PyStr.nl).
Proof. reflexivity. Qed.

(** a paragraph that is the first block of a list item is joined onto the
    marker line by [_visit_list_item] and is not visited as a paragraph *)
Example first_paragraph_of_item_is_joined :
  _visit (UnorderedList 1 4 [ListItem 1 4 [Paragraph 2 4 ["one "; "two"]]])
    MintPrinter_init
  = OK {| output := ["* one  two"];
          indent_level := 0;
          printed_first_heading := false |}.
Proof. reflexivity. Qed.

(** a conditional block of plain text comes out as it went in *)
Example conditional_round_trip :
  to_mint
    (lex_of [tok CONDITIONAL_BLOCK_OPEN ":::python" 1 0;
             tok TEXT "import os" 2 0; tok TEXT "print(os.name)" 3 4;
             tok CONDITIONAL_BLOCK_CLOSE ":::" 4 0; tok EOF "" 5 0])
    6 "doc" None
  = OK (":::python" ++ PyStr.nl ++ "import os" ++ PyStr.nl
        ++ "print(os.name)" ++ PyStr.nl ++ ":::" ++ PyStr.nl).
Proof. reflexivity. Qed.

(** the text of a parse error, with the file path first *)
Example unclosed_fence_message :
  ParseError.str
    {| ParseError.message := "Unclosed code block";
       ParseError.line := Some 3;
       ParseError.token := Some (tok FENCE "```python" 3 2);
       ParseError.expected := Some "closing fence '```'";
       ParseError.found := Some "end of file";
       ParseError.file_path := Some "guide.md" |}
  = "'guide.md':, Unclosed code block, at line 3, "
    ++ "found token FENCE '```python', expected closing fence '```', "
    ++ "but found end of file".
Proof. reflexivity. Qed.

(** * The parser as a whole *)

(** ** The cursor *)

Lemma advanced_refl (p : Parser) : advanced false p p.
Proof. exists []. split; [reflexivity|discriminate]. Qed.

Lemma advanced_trans (b1 b2 : bool) (p q r : Parser) :
  advanced b1 p q -> advanced b2 q r -> advanced (b1 || b2) p r.
Proof.
  intros (pre1 & E1 & S1) (pre2 & E2 & S2).
  exists (List.app pre1 pre2). split.
  - rewrite E1, E2, app_assoc. reflexivity.
  - intros H. apply orb_true_iff in H. intros N.
    apply app_eq_nil in N as [N1 N2].
    destruct H as [H|H]; [exact (S1 H N1)|exact (S2 H N2)].
Qed.

Lemma advanced_weaken (b : bool) (p q : Parser) :
  advanced true p q -> advanced b p q.
Proof. intros (pre & E & S). exists pre. split; auto. Qed.

Lemma advanced_false (b : bool) (p q : Parser) :
  advanced b p q -> advanced false p q.
Proof. intros (pre & E & S). exists pre. split; [auto|discriminate]. Qed.

Lemma advanced_then (b : bool) (p q r : Parser) :
  advanced true p q -> advanced b q r -> advanced true p r.
Proof. intros H1 H2. exact (advanced_trans true b _ _ _ H1 H2). Qed.

Lemma advance_OK (p q : Parser) (t : Token) :
  _advance p = OK (t, q) -> t = _token p /\ stream p = t :: stream q.
Proof.
  unfold _advance, stream. destruct p as [toks cur]; simpl.
  destruct toks as [|t' r]; [discriminate|].
  intros E. injection E as <- <-. auto.
Qed.

Lemma advance_advanced (p q : Parser) (t : Token) :
  _advance p = OK (t, q) -> advanced true p q.
Proof.
  intros E. apply advance_OK in E as [-> E].
  exists [_token p]. split; [exact E|discriminate].
Qed.

Lemma while_advance_OK {A : Type} (test : Token -> LoopTest)
  (step : A -> Token -> A) :
  forall rest cur acc acc' q,
    while_advance test step cur rest acc = OK (acc', q) ->
    exists pre,
      cur :: rest = List.app pre (stream q)
      /\ Forall (fun t => test t = Go) pre
      /\ test (_token q) = Stop
      /\ acc' = fold_left step pre acc.
Proof.
  induction rest as [|t r IH]; intros cur acc acc' q E;
    rewrite while_advance_unfold in E; destruct (test cur) eqn:T;
    try discriminate.
  - injection E as <- <-. exists []. simpl. auto.
  - destruct (IH _ _ _ _ E) as (pre & E1 & F & S & A1).
    exists (cur :: pre). simpl. rewrite E1. auto.
  - injection E as <- <-. exists []. simpl. auto.
Qed.

Lemma while_kind_OK {A : Type} (go : Token -> bool) (step : A -> Token -> A)
  (p q : Parser) (acc acc' : A) :
  while_kind go step p acc = OK (acc', q) ->
  exists pre,
    stream p = List.app pre (stream q)
    /\ Forall (fun t => go t = true) pre
    /\ go (_token q) = false
    /\ acc' = fold_left step pre acc.
Proof.
  unfold while_kind. intros E. apply while_advance_OK in E.
  destruct E as (pre & E & F & S & A1). exists pre.
  split; [exact E|]. split; [|split; [|exact A1]].
  - eapply Forall_impl; [|exact F]. intros t. simpl.
    destruct (go t); [auto|discriminate].
  - destruct (go (_token q)); [discriminate|reflexivity].
Qed.

Lemma lines_sorted_app (pre l : list Token) :
  lines_sorted (List.app pre l) = true ->
  lines_sorted l = true
  /\ forall t u, In t pre -> In u l -> Token.line t <= Token.line u.
Proof.
  induction pre as [|x pre IH]; simpl; intros H.
  - split; [exact H|]. intros t u [].
  - apply andb_true_iff in H as [H1 H2]. destruct (IH H2) as [S L].
    split; [exact S|]. intros t u [<-|Ht] Hu.
    + rewrite forallb_forall in H1. apply Z.leb_le, H1.
      apply in_or_app. auto.
    + auto.
Qed.

Lemma advanced_sorted (b : bool) (p q : Parser) :
  advanced b p q ->
  lines_sorted (stream p) = true ->
  lines_sorted (stream q) = true
  /\ Token.line (_token p) <= Token.line (_token q).
Proof.
  intros (pre & E & _) S. rewrite E in S.
  destruct (lines_sorted_app _ _ S) as [S' L]. split; [exact S'|].
  destruct pre as [|x pre].
  - simpl in E. unfold stream in E. injection E as -> _. lia.
  - simpl in E. unfold stream in E at 1. injection E as <- _.
    apply L; [left; reflexivity|left; reflexivity].
Qed.

Ltac inv_bind H :=
  repeat match type of H with
         | bind _ _ = OK _ =>
             let a := fresh "a" in
             let E := fresh "E" in
             apply bind_OK in H as (a & E & H);
             try (destruct a as [? ?])
         end.

Lemma while_kind_advanced {A : Type} (go : Token -> bool)
  (step : A -> Token -> A) (p q : Parser) (acc acc' : A) :
  while_kind go step p acc = OK (acc', q) ->
  advanced (go (_token p)) p q /\ go (_token q) = false.
Proof.
  intros E. apply while_kind_OK in E as (pre & E & F & S & _).
  split; [|exact S]. exists pre. split; [exact E|].
  intros G ->. simpl in E. unfold stream in E. injection E as E _.
  congruence.
Qed.

(** ** The block parsers that do not recurse *)

Lemma parsed_block_intro (p q : Parser) (n : Node) :
  advanced true p q ->
  start_line n = Token.line (_token p) ->
  block_like n = true ->
  well_typed n = true ->
  (lines_sorted (stream p) = true -> spans_ok n = true) ->
  parsed_block p n q.
Proof.
  intros A S B W L. unfold parsed_block.
  split; [apply advanced_weaken; exact A|auto].
Qed.

Lemma parse_heading_post (p q : Parser) (n : Node) :
  _parse_heading p = OK (n, q) -> parsed_block p n q.
Proof.
  unfold _parse_heading. intros H. inv_bind H.
  destruct (PyStr.split_max " " 1 (Token.value t)) as [|h [|x [|? ?]]];
    try discriminate H.
  injection H as <- <-.
  pose proof (advance_advanced _ _ _ E) as A.
  apply advance_OK in E as [-> _].
  apply parsed_block_intro; auto.
  intros _. simpl. apply andb_true_iff. split; [apply Z.leb_le; lia|auto].
Qed.

Lemma parse_code_block_post (p q : Parser) (n : Node) :
  _parse_code_block p = OK (n, q) -> parsed_block p n q.
Proof.
  unfold _parse_code_block. intros H. inv_bind H.
  destruct (match PyStr.split_max " " 1 _ with [lang; meta] => _ | _ => _ end)
    as [language meta].
  inv_bind H. injection H as <- <-.
  pose proof (advance_advanced _ _ _ E) as A1.
  apply advance_OK in E as [-> _].
  apply while_advance_OK in E0 as (pre & E0 & _).
  pose proof (advance_advanced _ _ _ E1) as A3.
  apply advance_OK in E1 as [-> _].
  assert (A2 : advanced false p0 p1).
  { exists pre. split; [exact E0|discriminate]. }
  apply parsed_block_intro; auto.
  - eapply advanced_then; [exact A1|].
    eapply advanced_trans; [exact A2|exact A3].
  - intros S. simpl. apply andb_true_iff. split; [|reflexivity].
    apply Z.leb_le.
    destruct (advanced_sorted _ _ _ (advanced_then _ _ _ _ A1 A2) S)
      as [_ L].
    lia.
Qed.

Lemma parse_quote_block_post (p q : Parser) (n : Node) :
  _parse_quote_block p = OK (n, q) -> parsed_block p n q.
Proof.
  unfold _parse_quote_block. intros H. inv_bind H. injection H as <- ->.
  pose proof (advance_advanced _ _ _ E) as A1.
  apply advance_OK in E as [-> _].
  apply while_kind_advanced in E0 as [A2 _].
  assert (A : advanced true p q) by (eapply advanced_then; eauto).
  apply parsed_block_intro; auto.
  intros S. simpl. apply andb_true_iff. split; [|reflexivity].
  apply Z.leb_le. apply (advanced_sorted _ _ _ A S).
Qed.

Lemma parse_html_block_post (p q : Parser) (n : Node) :
  _parse_html_block p = OK (n, q) -> parsed_block p n q.
Proof.
  unfold _parse_html_block. intros H. inv_bind H. injection H as <- ->.
  pose proof (advance_advanced _ _ _ E) as A1.
  apply advance_OK in E as [-> _].
  apply while_kind_advanced in E0 as [A2 _].
  assert (A : advanced true p q) by (eapply advanced_then; eauto).
  apply parsed_block_intro; auto.
  intros S. simpl. apply andb_true_iff. split; [|reflexivity].
  apply Z.leb_le. apply (advanced_sorted _ _ _ A S).
Qed.

Lemma parse_paragraph_post (p q : Parser) (n : Node) :
  _parse_paragraph p = OK (n, q) ->
  advanced (is_kind [TEXT; BLANK] (_token p)) p q
  /\ start_line n = Token.line (_token p)
  /\ block_like n = true
  /\ well_typed n = true
  /\ (lines_sorted (stream p) = true -> spans_ok n = true).
Proof.
  unfold _parse_paragraph. intros H. inv_bind H. injection H as <- ->.
  assert (A : advanced (is_kind [TEXT; BLANK] (_token p)) p q).
  { destruct (is_kind [TEXT] (_token p)) eqn:K1.
    - apply while_kind_advanced in E as [A1 _].
      apply while_kind_advanced in E0 as [A2 _].
      rewrite K1 in A1. apply advanced_weaken.
      eapply advanced_then; eauto.
    - rewrite while_kind_stop in E by exact K1. injection E as _ <-.
      apply while_kind_advanced in E0 as [A2 _].
      replace (is_kind [TEXT; BLANK] (_token p))
        with (is_kind [BLANK] (_token p)); [exact A2|].
      unfold is_kind in *. simpl in *. rewrite orb_false_r in K1.
      rewrite K1. reflexivity. }
  split; [exact A|]. repeat split; auto.
  intros S. simpl. apply andb_true_iff. split; [|reflexivity].
  apply Z.leb_le. apply (advanced_sorted _ _ _ A S).
Qed.

Lemma match_OK (p q : Parser) (kinds : list TokenType) (m : bool) :
  _match p kinds = OK (m, q) ->
  (m = true /\ advanced true p q) \/ (m = false /\ q = p).
Proof.
  unfold _match. destruct (_check p kinds).
  - intros H. apply bind_OK in H as ([t p1] & E & H). injection H as <- <-.
    left. split; [reflexivity|]. eapply advance_advanced; eauto.
  - intros H. injection H as <- <-. auto.
Qed.

Lemma forallb_snoc {A : Type} (f : A -> bool) (l : list A) (x : A) :
  forallb f (List.app l [x]) = forallb f l && f x.
Proof. rewrite forallb_app. simpl. rewrite andb_true_r. reflexivity. Qed.

(** ** The block parsers that recurse, for any block parser they call *)

Section BlockPost.

Variable pb : Parser -> Result (Node * Parser).
Hypothesis Hpb : forall p n q, pb p = OK (n, q) -> parsed_block p n q.

(** what a loop that collects blocks has done *)
Definition collected (p q : Parser) (new : list Node) : Prop :=
  advanced false p q
  /\ forallb (fun b => block_like b && well_typed b) new = true
  /\ (lines_sorted (stream p) = true -> forallb spans_ok new = true).

Lemma collected_nil (p : Parser) : collected p p [].
Proof. split; [apply advanced_refl|split; reflexivity]. Qed.

Lemma collected_skip (b : bool) (p p1 q : Parser) (new : list Node) :
  advanced b p p1 -> collected p1 q new -> collected p q new.
Proof.
  intros A (A' & W & S). split; [|split; [exact W|]].
  - eapply advanced_false. eapply advanced_trans; eauto.
  - intros L. apply S. apply (advanced_sorted _ _ _ A L).
Qed.

Lemma collected_cons (p p1 q : Parser) (n : Node) (new : list Node) :
  parsed_block p n p1 -> collected p1 q new -> collected p q (n :: new).
Proof.
  intros (A & _ & B & W & S) (A' & W' & S'). split; [|split].
  - eapply advanced_false. eapply advanced_trans; eauto.
  - simpl. rewrite B, W, W'. reflexivity.
  - intros L. simpl. rewrite (S L). apply S'.
    apply (advanced_sorted _ _ _ A L).
Qed.

Lemma parse_blocks_until_indent_post (min_indent : Z) :
  forall fuel p blocks blocks' q,
    _parse_blocks_until_indent pb fuel min_indent p blocks = OK (blocks', q) ->
    exists new,
      blocks' = List.app blocks new
      /\ collected p q new
      /\ (is_kind [EOF] (_token q) = true
          \/ (Token.indent (_token q) <= min_indent
              /\ is_kind [BLANK] (_token q) = false)).
Proof.
  induction fuel as [|fuel IH]; intros p blocks blocks' q H;
    [discriminate|].
  cbn [_parse_blocks_until_indent] in H.
  destruct (negb (_check p [EOF])
            && ((Token.indent (_token p) >? min_indent)
                || TokenType.eqb (Token.type (_token p)) BLANK)) eqn:C.
  - destruct (_check p [CONDITIONAL_BLOCK_CLOSE; FRONT_MATTER]).
    { destruct (TokenType.eqb _ CONDITIONAL_BLOCK_CLOSE); discriminate H. }
    apply bind_OK in H as ([m p1] & M & H).
    apply match_OK in M as [[-> A]|[-> ->]].
    + destruct (IH _ _ _ _ H) as (new & -> & Col & X).
      exists new. split; [reflexivity|]. split; [|exact X].
      eapply collected_skip; eauto.
    + apply bind_OK in H as ([b p2] & B & H).
      destruct (IH _ _ _ _ H) as (new & -> & Col & X).
      exists (b :: new). split; [rewrite <- app_assoc; reflexivity|].
      split; [|exact X]. eapply collected_cons; eauto.
  - injection H as <- ->. exists []. rewrite app_nil_r.
    split; [reflexivity|]. split; [apply collected_nil|].
    unfold _check in C. apply andb_false_iff in C as [C|C].
    + left. apply negb_false_iff in C. exact C.
    + right. apply orb_false_iff in C as [C1 C2]. split.
      * destruct (Z.gtb_spec (Token.indent (_token q)) min_indent);
          [discriminate|lia].
      * unfold is_kind. simpl. rewrite C2. reflexivity.
Qed.

Lemma parse_list_item_post (fuel : nat) (list_indent : Z) (p q : Parser)
  (n : Node) :
  _parse_list_item pb fuel list_indent p = OK (n, q) ->
  advanced true p q
  /\ start_line n = Token.line (_token p)
  /\ is_item n = true
  /\ well_typed n = true
  /\ (lines_sorted (stream p) = true -> spans_ok n = true).
Proof.
  unfold _parse_list_item. intros H.
  apply bind_OK in H as ([marker p1] & A & H).
  apply bind_OK in H as (first_text & _ & H).
  apply bind_OK in H as ([nested p2] & B & H).
  injection H as <- ->.
  pose proof (advance_advanced _ _ _ A) as A1.
  apply advance_OK in A as [-> _].
  apply parse_blocks_until_indent_post in B as (new & -> & (A2 & W & S) & _).
  simpl in W.
  assert (Adv : advanced true p q) by (eapply advanced_then; eauto).
  split; [exact Adv|]. split; [reflexivity|]. split; [reflexivity|].
  split.
  - destruct (PyStr.truthy first_text); simpl; exact W.
  - intros L. destruct (advanced_sorted _ _ _ A1 L) as [L1 _].
    specialize (S L1). simpl in S.
    pose proof (proj2 (advanced_sorted _ _ _ Adv L)) as Le.
    apply Z.leb_le in Le.
    assert (Lp : (Token.line (_token p) <=? Token.line (_token p) + 1)
                 = true) by (apply Z.leb_le; lia).
    destruct (PyStr.truthy first_text); simpl; rewrite Le, S, ?Lp;
      reflexivity.
Qed.

(** what a loop that collects list items or tabs has done; [kind_ok] is
    [is_item] or [is_tab] *)
Definition collected_members (kind_ok : Node -> bool) (p q : Parser)
  (new : list Node) : Prop :=
  advanced false p q
  /\ forallb (fun i => kind_ok i && well_typed i) new = true
  /\ (lines_sorted (stream p) = true ->
      forallb spans_ok new = true
      /\ Forall (fun i => Token.line (_token p) <= start_line i) new)
  /\ match new with
     | [] => True
     | first :: _ =>
         advanced true p q /\ start_line first = Token.line (_token p)
     end.

Lemma collected_members_cons (kind_ok : Node -> bool) (p p1 q : Parser)
  (n : Node) (new : list Node) :
  advanced true p p1 ->
  start_line n = Token.line (_token p) ->
  kind_ok n = true ->
  well_typed n = true ->
  (lines_sorted (stream p) = true -> spans_ok n = true) ->
  collected_members kind_ok p1 q new ->
  collected_members kind_ok p q (n :: new).
Proof.
  intros A St K W Sp (A' & W' & S' & _).
  assert (Adv : advanced true p q) by (eapply advanced_then; eauto).
  split; [apply advanced_false with (b := true); exact Adv|].
  split; [simpl; rewrite K, W, W'; reflexivity|].
  split; [|split; [exact Adv|exact St]].
  intros L. destruct (advanced_sorted _ _ _ A L) as [L1 Le].
  destruct (S' L1) as [S1 F1]. split.
  - simpl. rewrite (Sp L), S1. reflexivity.
  - constructor; [lia|].
    eapply Forall_impl; [|exact F1]. intros i Hi. simpl in Hi. lia.
Qed.

Lemma collected_members_nil (kind_ok : Node -> bool) (p : Parser) :
  collected_members kind_ok p p [].
Proof.
  split; [apply advanced_refl|]. split; [reflexivity|].
  split; [|exact I]. intros _. split; [reflexivity|constructor].
Qed.

Lemma list_items_post (marker_type : TokenType) (list_indent : Z) :
  forall fuel p items items' q,
    list_items pb fuel marker_type list_indent p items = OK (items', q) ->
    exists new,
      items' = List.app items new /\ collected_members is_item p q new.
Proof.
  induction fuel as [|fuel IH]; intros p items items' q H; [discriminate|].
  cbn [list_items] in H.
  destruct (_check p [marker_type] && _).
  - apply bind_OK in H as ([item p1] & I & H).
    apply parse_list_item_post in I as (A & St & K & W & Sp).
    destruct (IH _ _ _ _ H) as (new & -> & Col).
    exists (item :: new). split; [rewrite <- app_assoc; reflexivity|].
    eapply collected_members_cons; eauto.
  - injection H as <- ->. exists []. rewrite app_nil_r.
    split; [reflexivity|apply collected_members_nil].
Qed.

Lemma spans_ok_le (n : Node) :
  spans_ok n = true -> start_line n <= limit_line n.
Proof.
  destruct n; simpl; intros H; apply andb_true_iff in H as [H _];
    apply Z.leb_le; exact H.
Qed.

Lemma last_In {A : Type} (l : list A) (x d : A) : In (List.last (x :: l) d) (x :: l).
Proof.
  revert x. induction l as [|y l IH]; intros x.
  - left. reflexivity.
  - right. apply (IH y).
Qed.

(** the span of a list or tab block built from its members *)
Lemma members_span (kind_ok : Node -> bool) (p q : Parser) (first : Node)
  (rest : list Node) :
  collected_members kind_ok p q (first :: rest) ->
  lines_sorted (stream p) = true ->
  start_line first <= limit_line (List.last (first :: rest) first)
  /\ forallb spans_ok (first :: rest) = true.
Proof.
  intros (_ & _ & S & _ & St) L. destruct (S L) as [Sp F]. split; [|exact Sp].
  pose proof (last_In rest first first) as I.
  rewrite Forall_forall in F. specialize (F _ I).
  rewrite forallb_forall in Sp. specialize (Sp _ I).
  apply spans_ok_le in Sp. lia.
Qed.

Lemma parse_list_post (fuel : nat) (ordered : bool) (p q : Parser) (n : Node) :
  _parse_list pb fuel ordered p = OK (n, q) -> parsed_block p n q.
Proof.
  unfold _parse_list. intros H.
  apply bind_OK in H as ([items p1] & I & H).
  apply list_items_post in I as (new & E & Col). simpl in E. subst new.
  destruct items as [|first rest]; [discriminate|].
  pose proof Col as (_ & W & _ & A & St).
  pose proof (members_span _ _ _ _ _ Col) as Sp.
  cbv zeta in H.
  destruct ordered; injection H as <- ->;
    (apply parsed_block_intro; [exact A|exact St|reflexivity|exact W|]);
    intros L; destruct (Sp L) as [Le Sp'];
    apply Z.leb_le in Le;
    change (spans_ok ?n) with ((start_line n <=? limit_line n)
                               && forallb spans_ok (children n));
    cbn [start_line limit_line children]; cbn [List.last] in Le;
    rewrite Le, Sp'; reflexivity.
Qed.

Lemma parse_admonition_post (fuel : nat) (p q : Parser) (n : Node) :
  _parse_admonition pb fuel p = OK (n, q) -> parsed_block p n q.
Proof.
  unfold _parse_admonition. intros H.
  apply bind_OK in H as ([header p1] & A & H).
  destruct (PyStr.split_ws 2 (Token.value header)) as [|tag tail];
    [discriminate|].
  apply bind_OK in H as ([body p2] & B & H). injection H as <- ->.
  pose proof (advance_advanced _ _ _ A) as A1.
  apply advance_OK in A as [-> _].
  apply parse_blocks_until_indent_post in B as (new & -> & (A2 & W & S) & _).
  assert (Adv : advanced true p q) by (eapply advanced_then; eauto).
  apply parsed_block_intro; auto.
  intros L. destruct (advanced_sorted _ _ _ A1 L) as [L1 _].
  pose proof (proj2 (advanced_sorted _ _ _ Adv L)) as Le.
  apply Z.leb_le in Le. simpl in *. rewrite Le, (S L1). reflexivity.
Qed.

Lemma tab_loop_post :
  forall fuel p tabs tabs' q,
    tab_loop pb fuel p tabs = OK (tabs', q) ->
    exists new,
      tabs' = List.app tabs new /\ collected_members is_tab p q new.
Proof.
  induction fuel as [|fuel IH]; intros p tabs tabs' q H; [discriminate|].
  cbn [tab_loop] in H.
  destruct (_check p [TAB_HEADER]).
  - apply bind_OK in H as ([header p1] & A & H).
    destruct (PyStr.split_max PyStr.dquote 1 (Token.value header))
      as [|x [|after rest]]; try discriminate H.
    apply bind_OK in H as ([inner p2] & B & H).
    destruct (IH _ _ _ _ H) as (new & -> & Col).
    pose proof (advance_advanced _ _ _ A) as A1.
    apply advance_OK in A as [-> _].
    apply parse_blocks_until_indent_post in B
      as (blocks & E & (A2 & W & S) & _).
    simpl in E. subst blocks.
    assert (Adv : advanced true p p2) by (eapply advanced_then; eauto).
    eexists. split; [rewrite <- app_assoc; reflexivity|].
    eapply collected_members_cons; eauto.
    intros L. destruct (advanced_sorted _ _ _ A1 L) as [L1 _].
    pose proof (proj2 (advanced_sorted _ _ _ Adv L)) as Le.
    apply Z.leb_le in Le. simpl. rewrite Le, (S L1). reflexivity.
  - injection H as <- ->. exists []. rewrite app_nil_r.
    split; [reflexivity|apply collected_members_nil].
Qed.

Lemma parse_tab_block_post (fuel : nat) (p q : Parser) (n : Node) :
  _parse_tab_block pb fuel p = OK (n, q) -> parsed_block p n q.
Proof.
  unfold _parse_tab_block. intros H.
  apply bind_OK in H as ([tabs p1] & I & H).
  apply tab_loop_post in I as (new & E & Col). simpl in E. subst new.
  destruct tabs as [|first rest]; [discriminate|].
  pose proof Col as (_ & W & _ & A & St).
  pose proof (members_span _ _ _ _ _ Col) as Sp.
  injection H as <- ->.
  apply parsed_block_intro; [exact A|exact St|reflexivity|exact W|].
  intros L. destruct (Sp L) as [Le Sp']. apply Z.leb_le in Le.
  change (spans_ok ?n) with ((start_line n <=? limit_line n)
                             && forallb spans_ok (children n)).
  cbn [start_line limit_line children]. cbn [List.last] in Le.
  rewrite Le, Sp'. reflexivity.
Qed.

Lemma conditional_body_post :
  forall fuel p blocks blocks' q,
    conditional_body pb fuel p blocks = OK (blocks', q) ->
    exists new, blocks' = List.app blocks new /\ collected p q new.
Proof.
  induction fuel as [|fuel IH]; intros p blocks blocks' q H; [discriminate|].
  cbn [conditional_body] in H.
  destruct (negb (_check p [EOF])).
  - destruct (_check p [CONDITIONAL_BLOCK_CLOSE]).
    { injection H as <- ->. exists []. rewrite app_nil_r.
      split; [reflexivity|apply collected_nil]. }
    apply bind_OK in H as ([m p1] & M & H).
    apply match_OK in M as [[-> A]|[-> ->]].
    + destruct (IH _ _ _ _ H) as (new & -> & Col).
      exists new. split; [reflexivity|]. eapply collected_skip; eauto.
    + apply bind_OK in H as ([b p2] & B & H).
      destruct (IH _ _ _ _ H) as (new & -> & Col).
      exists (b :: new). split; [rewrite <- app_assoc; reflexivity|].
      eapply collected_cons; eauto.
  - injection H as <- ->. exists []. rewrite app_nil_r.
    split; [reflexivity|apply collected_nil].
Qed.

Lemma parse_conditional_block_post (fuel : nat) (p q : Parser) (n : Node) :
  _parse_conditional_block pb fuel p = OK (n, q) -> parsed_block p n q.
Proof.
  unfold _parse_conditional_block. intros H.
  apply bind_OK in H as ([open_token p1] & A & H).
  destruct (negb (PyStr.startswith ":::" (Token.value open_token)));
    [discriminate|].
  cbv zeta in H. destruct (negb (_ || _)); [discriminate|].
  apply bind_OK in H as ([blocks p2] & B & H).
  destruct (negb (_check p2 [CONDITIONAL_BLOCK_CLOSE])); [discriminate|].
  apply bind_OK in H as ([close_token p3] & C & H). injection H as <- ->.
  pose proof (advance_advanced _ _ _ A) as A1.
  apply advance_OK in A as [-> _].
  apply conditional_body_post in B as (new & E & (A2 & W & S)).
  simpl in E. subst new.
  pose proof (advance_advanced _ _ _ C) as A3.
  apply advance_OK in C as [-> _].
  assert (Adv2 : advanced true p p2) by (eapply advanced_then; eauto).
  apply parsed_block_intro; auto.
  - eapply advanced_then; eauto.
  - intros L. destruct (advanced_sorted _ _ _ A1 L) as [L1 _].
    pose proof (proj2 (advanced_sorted _ _ _ Adv2 L)) as Le.
    simpl in *. rewrite (S L1), andb_true_r. apply Z.leb_le. lia.
Qed.

Lemma parse_loop_post :
  forall fuel p blocks blocks' q,
    parse_loop pb fuel p blocks = OK (blocks', q) ->
    exists new,
      blocks' = List.app blocks new
      /\ collected p q new
      /\ is_kind [EOF] (_token q) = true.
Proof.
  induction fuel as [|fuel IH]; intros p blocks blocks' q H; [discriminate|].
  cbn [parse_loop] in H.
  destruct (negb (_check p [EOF])) eqn:C.
  - apply bind_OK in H as ([m p1] & M & H).
    apply match_OK in M as [[-> A]|[-> ->]].
    + destruct (IH _ _ _ _ H) as (new & -> & Col & X).
      exists new. split; [reflexivity|]. split; [|exact X].
      eapply collected_skip; eauto.
    + apply bind_OK in H as ([b p2] & B & H).
      destruct (IH _ _ _ _ H) as (new & -> & Col & X).
      exists (b :: new). split; [rewrite <- app_assoc; reflexivity|].
      split; [|exact X]. eapply collected_cons; eauto.
  - injection H as <- ->. exists []. rewrite app_nil_r.
    split; [reflexivity|]. split; [apply collected_nil|].
    apply negb_false_iff in C. exact C.
Qed.

End BlockPost.

(** ** [_parse_block] and [parse] *)

Lemma consuming_fallback (t : Token) :
  is_kind [HEADING] t = false -> is_kind [FENCE] t = false ->
  is_kind [UL_MARKER] t = false -> is_kind [OL_MARKER] t = false ->
  is_kind [BLOCKQUOTE] t = false -> is_kind [ADMONITION] t = false ->
  is_kind [TAB_HEADER] t = false -> is_kind [HTML_TAG] t = false ->
  is_kind [CONDITIONAL_BLOCK_OPEN] t = false ->
  consuming t = is_kind [TEXT; BLANK] t.
Proof.
  unfold consuming, is_kind. simpl. destruct (Token.type t); simpl;
    intros; try discriminate; reflexivity.
Qed.

Lemma parse_block_post :
  forall fuel p n q, _parse_block fuel p = OK (n, q) -> parsed_block p n q.
Proof.
  induction fuel as [|fuel IH]; intros p n q H; [discriminate|].
  cbn [_parse_block] in H. unfold _check in H.
  destruct (is_kind [HEADING] (_token p)) eqn:K1;
    [apply parse_heading_post; exact H|].
  destruct (is_kind [FENCE] (_token p)) eqn:K2;
    [apply parse_code_block_post; exact H|].
  destruct (is_kind [UL_MARKER] (_token p)) eqn:K3;
    [eapply parse_list_post; eauto|].
  destruct (is_kind [OL_MARKER] (_token p)) eqn:K4;
    [eapply parse_list_post; eauto|].
  destruct (is_kind [BLOCKQUOTE] (_token p)) eqn:K5;
    [apply parse_quote_block_post; exact H|].
  destruct (is_kind [ADMONITION] (_token p)) eqn:K6;
    [eapply parse_admonition_post; eauto|].
  destruct (is_kind [TAB_HEADER] (_token p)) eqn:K7;
    [eapply parse_tab_block_post; eauto|].
  destruct (is_kind [HTML_TAG] (_token p)) eqn:K8;
    [apply parse_html_block_post; exact H|].
  destruct (is_kind [CONDITIONAL_BLOCK_OPEN] (_token p)) eqn:K9;
    [eapply parse_conditional_block_post; eauto|].
  apply parse_paragraph_post in H. unfold parsed_block.
  rewrite consuming_fallback by assumption. exact H.
Qed.

Lemma parse_front_matter_post (p q : Parser) (n : Node) :
  _parse_front_matter p = OK (n, q) ->
  advanced true p q
  /\ block_like n = true /\ well_typed n = true
  /\ (lines_sorted (stream p) = true -> spans_ok n = true).
Proof.
  unfold _parse_front_matter. intros H.
  apply bind_OK in H as ([open_token p1] & A & H).
  apply bind_OK in H as ([content_lines p2] & B & H).
  apply bind_OK in H as ([close_token p3] & C & H). injection H as <- ->.
  pose proof (advance_advanced _ _ _ A) as A1.
  apply advance_OK in A as [-> _].
  apply while_kind_advanced in B as [A2 _].
  pose proof (advance_advanced _ _ _ C) as A3.
  apply advance_OK in C as [-> _].
  assert (Adv2 : advanced true p p2) by (eapply advanced_then; eauto).
  split; [eapply advanced_then; eauto|]. repeat split.
  intros L. pose proof (proj2 (advanced_sorted _ _ _ Adv2 L)) as Le.
  simpl. rewrite andb_true_r. apply Z.leb_le. lia.
Qed.

(** ** Termination *)

Lemma advanced_length (b : bool) (p q : Parser) :
  advanced b p q ->
  (List.length (stream q) <= List.length (stream p))%nat
  /\ (b = true -> (List.length (stream q) < List.length (stream p))%nat).
Proof.
  intros (pre & E & S). rewrite E, length_app. split; [lia|].
  intros B. specialize (S B). destruct pre; [congruence|simpl; lia].
Qed.

Lemma advanced_safe (b : bool) (p q : Parser) :
  advanced b p q ->
  no_stray_delimiter (stream p) = true ->
  no_stray_delimiter (stream q) = true.
Proof.
  intros (pre & E & _) S. unfold no_stray_delimiter in *.
  rewrite E, forallb_app in S. apply andb_true_iff in S as [_ S]. exact S.
Qed.

Lemma finished_bind {A B : Type} (m : Result A) (k : A -> Result B) :
  finished m -> (forall a, m = OK a -> finished (k a)) ->
  finished (bind m k).
Proof. destruct m; simpl; auto. Qed.

Lemma advance_finished (p : Parser) : finished (_advance p).
Proof. unfold _advance. destruct (_tokens p); exact I. Qed.

Lemma while_advance_finished {A : Type} (test : Token -> LoopTest)
  (step : A -> Token -> A) :
  forall rest cur acc, finished (while_advance test step cur rest acc).
Proof.
  induction rest as [|t r IH]; intros cur acc;
    rewrite while_advance_unfold; destruct (test cur); simpl; auto.
Qed.

Lemma while_kind_finished {A : Type} (go : Token -> bool)
  (step : A -> Token -> A) (p : Parser) (acc : A) :
  finished (while_kind go step p acc).
Proof. apply while_advance_finished. Qed.

Lemma match_finished (p : Parser) (kinds : list TokenType) :
  finished (_match p kinds).
Proof.
  unfold _match. destruct (_check p kinds); [|exact I].
  apply finished_bind; [apply advance_finished|]. intros [t q] _. exact I.
Qed.

Lemma parse_heading_finished (p : Parser) : finished (_parse_heading p).
Proof.
  unfold _parse_heading. apply finished_bind; [apply advance_finished|].
  intros [t q] _.
  destruct (PyStr.split_max " " 1 (Token.value t)) as [|h [|x [|? ?]]];
    exact I.
Qed.

Lemma parse_code_block_finished (p : Parser) : finished (_parse_code_block p).
Proof.
  unfold _parse_code_block. apply finished_bind; [apply advance_finished|].
  intros [t q] _.
  destruct (match PyStr.split_max " " 1 _ with [lang; meta] => _ | _ => _ end)
    as [language meta].
  apply finished_bind; [apply while_advance_finished|]. intros [l q1] _.
  apply finished_bind; [apply advance_finished|]. intros [c q2] _. exact I.
Qed.

Lemma parse_quote_block_finished (p : Parser) :
  finished (_parse_quote_block p).
Proof.
  unfold _parse_quote_block. apply finished_bind; [apply advance_finished|].
  intros [t q] _. apply finished_bind; [apply while_kind_finished|].
  intros [l q1] _. exact I.
Qed.

Lemma parse_html_block_finished (p : Parser) : finished (_parse_html_block p).
Proof.
  unfold _parse_html_block. apply finished_bind; [apply advance_finished|].
  intros [t q] _. apply finished_bind; [apply while_kind_finished|].
  intros [l q1] _. exact I.
Qed.

Lemma parse_paragraph_finished (p : Parser) : finished (_parse_paragraph p).
Proof.
  unfold _parse_paragraph. apply finished_bind; [apply while_kind_finished|].
  intros [l q] _. apply finished_bind; [apply while_kind_finished|].
  intros [u q1] _. exact I.
Qed.

Lemma parse_front_matter_finished (p : Parser) :
  finished (_parse_front_matter p).
Proof.
  unfold _parse_front_matter. apply finished_bind; [apply advance_finished|].
  intros [t q] _. apply finished_bind; [apply while_kind_finished|].
  intros [l q1] _. apply finished_bind; [apply advance_finished|].
  intros [c q2] _. exact I.
Qed.

Lemma stream_length_pos (p : Parser) : (1 <= List.length (stream p))%nat.
Proof. unfold stream. simpl. lia. Qed.

Lemma safe_head (p : Parser) :
  no_stray_delimiter (stream p) = true ->
  _check p [CONDITIONAL_BLOCK_CLOSE; FRONT_MATTER] = false.
Proof.
  unfold no_stray_delimiter, stream, _check. simpl. intros H.
  apply andb_true_iff in H as [H _]. apply negb_true_iff in H. exact H.
Qed.

Lemma consuming_when (p : Parser) :
  _check p [EOF] = false ->
  _check p [CONDITIONAL_BLOCK_CLOSE; FRONT_MATTER] = false ->
  consuming (_token p) = true.
Proof.
  unfold _check, consuming, is_kind. simpl.
  destruct (Token.type (_token p)); simpl; intros; try discriminate;
    reflexivity.
Qed.

Section BlockTermination.

Variable pb : Parser -> Result (Node * Parser).
Variable bound : nat.
Hypothesis Hpost : forall p n q, pb p = OK (n, q) -> parsed_block p n q.
Hypothesis Hterm :
  forall p,
    (List.length (stream p) <= bound)%nat ->
    no_stray_delimiter (stream p) = true ->
    finished (pb p).

(** the step shared by the loops that skip blank lines and collect blocks *)
Lemma block_step_finished (p : Parser)
  (loop : Parser -> list Node -> Result (list Node * Parser))
  (blocks : list Node) (fuel : nat) :
  _check p [EOF] = false ->
  (List.length (stream p) <= S fuel)%nat ->
  (List.length (stream p) <= bound)%nat ->
  no_stray_delimiter (stream p) = true ->
  (forall q l,
      (List.length (stream q) <= fuel)%nat ->
      (List.length (stream q) <= bound)%nat ->
      no_stray_delimiter (stream q) = true ->
      finished (loop q l)) ->
  finished
    (bind (_match p [BLANK])
       (fun r =>
          match r with
          | (matched, self) =>
              if (matched : bool) then loop self blocks
              else
                bind (pb self)
                  (fun r' =>
                     match r' with
                     | (block, self') =>
                         loop self' (List.app blocks [block])
                     end)
          end)).
Proof.
  intros C F B S L.
  apply finished_bind; [apply match_finished|].
  intros [m q] M. apply match_OK in M as [[-> A]|[-> ->]].
  - destruct (advanced_length _ _ _ A) as [_ Lt]. specialize (Lt eq_refl).
    apply L; [lia|lia|eapply advanced_safe; eauto].
  - apply finished_bind; [apply Hterm; assumption|].
    intros [b q] E. apply Hpost in E as (A & _).
    rewrite (consuming_when p C (safe_head p S)) in A.
    destruct (advanced_length _ _ _ A) as [_ Lt]. specialize (Lt eq_refl).
    apply L; [lia|lia|eapply advanced_safe; eauto].
Qed.

Lemma parse_blocks_until_indent_finished (min_indent : Z) :
  forall fuel p blocks,
    (List.length (stream p) <= fuel)%nat ->
    (List.length (stream p) <= bound)%nat ->
    no_stray_delimiter (stream p) = true ->
    finished (_parse_blocks_until_indent pb fuel min_indent p blocks).
Proof.
  induction fuel as [|fuel IH]; intros p blocks F B S.
  { pose proof (stream_length_pos p). lia. }
  cbn [_parse_blocks_until_indent].
  destruct (_check p [EOF]) eqn:C; cbn [negb andb]; [exact I|].
  destruct (_ || _); [|exact I].
  rewrite (safe_head p S).
  apply (block_step_finished p
           (_parse_blocks_until_indent pb fuel min_indent) blocks fuel);
    auto.
Qed.

Lemma parse_list_item_finished (fuel : nat) (list_indent : Z) (p : Parser) :
  (List.length (stream p) <= S fuel)%nat ->
  (List.length (stream p) <= S bound)%nat ->
  no_stray_delimiter (stream p) = true ->
  finished (_parse_list_item pb fuel list_indent p).
Proof.
  intros F B S. unfold _parse_list_item.
  apply finished_bind; [apply advance_finished|]. intros [t q] A.
  apply advance_advanced in A.
  destruct (advanced_length _ _ _ A) as [_ Lt]. specialize (Lt eq_refl).
  apply finished_bind.
  { destruct (PyStr.contains_char " " (Token.value t)); [|exact I].
    destruct (PyStr.split_ws 1 (Token.value t)) as [|x [|y r]]; exact I. }
  intros first_text _.
  apply finished_bind.
  { apply parse_blocks_until_indent_finished;
      [lia|lia|eapply advanced_safe; eauto]. }
  intros [nested q1] _. exact I.
Qed.

Lemma list_items_finished (marker_type : TokenType) (list_indent : Z) :
  forall fuel p items,
    (List.length (stream p) <= fuel)%nat ->
    (List.length (stream p) <= S bound)%nat ->
    no_stray_delimiter (stream p) = true ->
    finished (list_items pb fuel marker_type list_indent p items).
Proof.
  induction fuel as [|fuel IH]; intros p items F B S.
  { pose proof (stream_length_pos p). lia. }
  cbn [list_items]. destruct (_ && _); [|exact I].
  apply finished_bind; [apply parse_list_item_finished; auto; lia|].
  intros [item q] E.
  apply (parse_list_item_post pb Hpost) in E as (A & _).
  destruct (advanced_length _ _ _ A) as [_ Lt]. specialize (Lt eq_refl).
  apply IH; [lia|lia|eapply advanced_safe; eauto].
Qed.

Lemma parse_list_finished (fuel : nat) (ordered : bool) (p : Parser) :
  (List.length (stream p) <= fuel)%nat ->
  (List.length (stream p) <= S bound)%nat ->
  no_stray_delimiter (stream p) = true ->
  finished (_parse_list pb fuel ordered p).
Proof.
  intros F B S. unfold _parse_list.
  apply finished_bind; [apply list_items_finished; auto|].
  intros [items q] _. destruct items; [exact I|].
  cbv zeta. destruct ordered; exact I.
Qed.

Lemma parse_admonition_finished (fuel : nat) (p : Parser) :
  (List.length (stream p) <= S fuel)%nat ->
  (List.length (stream p) <= S bound)%nat ->
  no_stray_delimiter (stream p) = true ->
  finished (_parse_admonition pb fuel p).
Proof.
  intros F B S. unfold _parse_admonition.
  apply finished_bind; [apply advance_finished|]. intros [t q] A.
  apply advance_advanced in A.
  destruct (advanced_length _ _ _ A) as [_ Lt]. specialize (Lt eq_refl).
  destruct (PyStr.split_ws 2 (Token.value t)) as [|tag tail]; [exact I|].
  apply finished_bind.
  { apply parse_blocks_until_indent_finished;
      [lia|lia|eapply advanced_safe; eauto]. }
  intros [body q1] _. exact I.
Qed.

Lemma tab_loop_finished :
  forall fuel p tabs,
    (List.length (stream p) <= fuel)%nat ->
    (List.length (stream p) <= S bound)%nat ->
    no_stray_delimiter (stream p) = true ->
    finished (tab_loop pb fuel p tabs).
Proof.
  induction fuel as [|fuel IH]; intros p tabs F B S.
  { pose proof (stream_length_pos p). lia. }
  cbn [tab_loop]. destruct (_check p [TAB_HEADER]); [|exact I].
  apply finished_bind; [apply advance_finished|]. intros [t q] A.
  apply advance_advanced in A.
  destruct (advanced_length _ _ _ A) as [_ Lt]. specialize (Lt eq_refl).
  pose proof (advanced_safe _ _ _ A S) as S1.
  destruct (PyStr.split_max PyStr.dquote 1 (Token.value t))
    as [|x [|after rest]]; try exact I.
  apply finished_bind.
  { apply parse_blocks_until_indent_finished; [lia|lia|exact S1]. }
  intros [inner q1] E.
  apply (parse_blocks_until_indent_post pb Hpost) in E
    as (new & _ & (A2 & _) & _).
  destruct (advanced_length _ _ _ A2) as [Le _].
  apply IH; [lia|lia|eapply advanced_safe; eauto].
Qed.

Lemma parse_tab_block_finished (fuel : nat) (p : Parser) :
  (List.length (stream p) <= fuel)%nat ->
  (List.length (stream p) <= S bound)%nat ->
  no_stray_delimiter (stream p) = true ->
  finished (_parse_tab_block pb fuel p).
Proof.
  intros F B S. unfold _parse_tab_block.
  apply finished_bind; [apply tab_loop_finished; auto|].
  intros [tabs q] _. destruct tabs; exact I.
Qed.

Lemma conditional_body_finished :
  forall fuel p blocks,
    (List.length (stream p) <= fuel)%nat ->
    (List.length (stream p) <= bound)%nat ->
    no_stray_delimiter (stream p) = true ->
    finished (conditional_body pb fuel p blocks).
Proof.
  induction fuel as [|fuel IH]; intros p blocks F B S.
  { pose proof (stream_length_pos p). lia. }
  cbn [conditional_body].
  destruct (_check p [EOF]) eqn:C; cbn [negb]; [exact I|].
  destruct (_check p [CONDITIONAL_BLOCK_CLOSE]); [exact I|].
  apply (block_step_finished p (conditional_body pb fuel) blocks fuel); auto.
Qed.

Lemma parse_conditional_block_finished (fuel : nat) (p : Parser) :
  (List.length (stream p) <= S fuel)%nat ->
  (List.length (stream p) <= S bound)%nat ->
  no_stray_delimiter (stream p) = true ->
  finished (_parse_conditional_block pb fuel p).
Proof.
  intros F B S. unfold _parse_conditional_block.
  apply finished_bind; [apply advance_finished|]. intros [t q] A.
  apply advance_advanced in A.
  destruct (advanced_length _ _ _ A) as [_ Lt]. specialize (Lt eq_refl).
  destruct (negb (PyStr.startswith ":::" (Token.value t))); [exact I|].
  cbv zeta. destruct (negb (_ || _)); [exact I|].
  apply finished_bind.
  { apply conditional_body_finished; [lia|lia|eapply advanced_safe; eauto]. }
  intros [blocks q1] _.
  destruct (negb (_check q1 [CONDITIONAL_BLOCK_CLOSE])); [exact I|].
  apply finished_bind; [apply advance_finished|]. intros [c q2] _. exact I.
Qed.

Lemma parse_loop_finished :
  forall fuel p blocks,
    (List.length (stream p) <= fuel)%nat ->
    (List.length (stream p) <= bound)%nat ->
    no_stray_delimiter (stream p) = true ->
    finished (parse_loop pb fuel p blocks).
Proof.
  induction fuel as [|fuel IH]; intros p blocks F B S.
  { pose proof (stream_length_pos p). lia. }
  cbn [parse_loop].
  destruct (_check p [EOF]) eqn:C; cbn [negb]; [exact I|].
  apply (block_step_finished p (parse_loop pb fuel) blocks fuel); auto.
Qed.

End BlockTermination.

Lemma parse_block_finished :
  forall fuel p,
    (List.length (stream p) <= fuel)%nat ->
    no_stray_delimiter (stream p) = true ->
    finished (_parse_block (S fuel) p).
Proof.
  induction fuel as [|fuel IH]; intros p F Sf.
  { pose proof (stream_length_pos p). lia. }
  pose proof (parse_block_post (S fuel)) as Hpost.
  cbn [_parse_block].
  destruct (_check p [HEADING]); [apply parse_heading_finished|].
  destruct (_check p [FENCE]); [apply parse_code_block_finished|].
  destruct (_check p [UL_MARKER]);
    [apply (parse_list_finished _ fuel Hpost IH); auto|].
  destruct (_check p [OL_MARKER]);
    [apply (parse_list_finished _ fuel Hpost IH); auto|].
  destruct (_check p [BLOCKQUOTE]); [apply parse_quote_block_finished|].
  destruct (_check p [ADMONITION]);
    [apply (parse_admonition_finished _ fuel Hpost IH); auto|].
  destruct (_check p [TAB_HEADER]);
    [apply (parse_tab_block_finished _ fuel Hpost IH); auto|].
  destruct (_check p [HTML_TAG]); [apply parse_html_block_finished|].
  destruct (_check p [CONDITIONAL_BLOCK_OPEN]);
    [apply (parse_conditional_block_finished _ fuel Hpost IH); auto|].
  apply parse_paragraph_finished.
Qed.

Lemma parse_post (fuel : nat) (p : Parser) (doc : Node) :
  parse fuel p = OK doc ->
  exists blocks q,
    doc = Document 1 (Token.line (_token q)) blocks
    /\ advanced false p q
    /\ is_kind [EOF] (_token q) = true
    /\ forallb (fun b => block_like b && well_typed b) blocks = true
    /\ (lines_sorted (stream p) = true -> forallb spans_ok blocks = true).
Proof.
  unfold parse. intros H.
  apply bind_OK in H as ([blocks0 p1] & F & H).
  apply bind_OK in H as ([blocks q] & L & H). injection H as <-.
  apply (parse_loop_post _ (parse_block_post fuel)) in L
    as (new & -> & (A & W & Sp) & X).
  exists (List.app blocks0 new), q. split; [reflexivity|].
  destruct (_check p [FRONT_MATTER]).
  - apply bind_OK in F as ([fm p2] & F & E). injection E as <- <-.
    apply parse_front_matter_post in F as (A0 & B0 & W0 & S0).
    split; [|split; [exact X|split]].
    + eapply advanced_false. eapply advanced_trans; eauto.
    + simpl. rewrite B0, W0. exact W.
    + intros Ls. simpl. rewrite (S0 Ls). apply Sp.
      apply (advanced_sorted _ _ _ A0 Ls).
  - injection F as <- <-. simpl. auto.
Qed.

(** X1: a block parser never rewinds: after [_parse_block] returns, the
    tokens left are a suffix of the tokens it was given, at least one token
    was consumed unless the look-ahead was an end-of-input, close-marker or
    front-matter token, and the node starts on the line of the look-ahead. *)
Theorem parse_block_moves_forward :
  forall fuel p n q,
    _parse_block fuel p = OK (n, q) ->
    (exists consumed,
        stream p = List.app consumed (stream q)
        /\ (consuming (_token p) = true -> consumed <> []))
    /\ start_line n = Token.line (_token p).
Proof.
  intros fuel p n q H. apply parse_block_post in H as (A & St & _).
  split; [exact A|exact St].
Qed.

Lemma parse_block_moves_forward_witness :
  (exists consumed,
      stream small_document
      = List.app consumed
          (stream {| _token := tok BLANK "" 2 0;
                     _tokens := [tok TEXT "first" 3 0; tok TEXT "second" 4 2;
                                 tok EOF "" 5 0] |})
      /\ (consuming (_token small_document) = true -> consumed <> []))
  /\ start_line (Heading 1 2 2 "Usage") = Token.line (_token small_document).
Proof.
  apply (parse_block_moves_forward 1 small_document). reflexivity.
Defined.

(** X2: when the token lines never decrease and the first is at least 1,
    every node of the document that [parse] returns starts no later than it
    ends, the document included; the document ends on the line of the
    end-of-input token at which the parser stopped. *)
Theorem parsed_spans_are_ordered :
  forall fuel p doc,
    parse fuel p = OK doc ->
    lines_sorted (stream p) = true ->
    1 <= Token.line (_token p) ->
    spans_ok doc = true
    /\ exists q,
        advanced false p q
        /\ is_kind [EOF] (_token q) = true
        /\ limit_line doc = Token.line (_token q).
Proof.
  intros fuel p doc H L One.
  apply parse_post in H as (blocks & q & -> & A & X & _ & Sp).
  split; [|exists q; auto].
  pose proof (proj2 (advanced_sorted _ _ _ A L)) as Le.
  simpl. rewrite (Sp L), andb_true_r. apply Z.leb_le. lia.
Qed.

Lemma parsed_spans_are_ordered_witness :
  spans_ok
    (Document 1 5
       [Heading 1 2 2 "Usage"; Paragraph 3 5 ["first"; "second"]]) = true
  /\ exists q,
      advanced false small_document q
      /\ is_kind [EOF] (_token q) = true
      /\ limit_line
           (Document 1 5
              [Heading 1 2 2 "Usage"; Paragraph 3 5 ["first"; "second"]])
         = Token.line (_token q).
Proof.
  apply (parsed_spans_are_ordered 5 small_document).
  - reflexivity.
  - reflexivity.
  - simpl. lia.
Defined.

(** X3: on a token sequence without close markers and front-matter
    delimiters [parse] finishes, by returning or by raising, as soon as the
    fuel exceeds the number of tokens. *)
Theorem parse_terminates_without_stray_delimiters :
  forall fuel p,
    (List.length (stream p) < fuel)%nat ->
    no_stray_delimiter (stream p) = true ->
    finished (parse fuel p).
Proof.
  intros [|fuel] p F Sf; [lia|].
  unfold parse.
  assert (C : _check p [FRONT_MATTER] = false).
  { pose proof (safe_head p Sf) as H. unfold _check, is_kind in *.
    simpl in *. destruct (Token.type (_token p)); simpl in *;
      try discriminate; reflexivity. }
  rewrite C. cbn [bind].
  apply finished_bind.
  - apply (parse_loop_finished _ fuel (parse_block_post (S fuel))).
    + intros q Lq Sq. apply parse_block_finished; assumption.
    + lia.
    + lia.
    + exact Sf.
  - intros [blocks q] _. exact I.
Qed.

Lemma parse_terminates_witness : finished (parse 6 small_document).
Proof.
  apply (parse_terminates_without_stray_delimiters 6 small_document).
  - simpl. lia.
  - reflexivity.
Defined.

(** ** Printing what the parser built *)

Lemma pou_bind (may_fail : bool) (m : Result MintPrinter)
  (k : MintPrinter -> Result MintPrinter) :
  prints_or_unsupported may_fail m ->
  (forall a, prints_or_unsupported may_fail (k a)) ->
  prints_or_unsupported may_fail (bind m k).
Proof. destruct m as [a|e|]; simpl; auto. Qed.

Lemma pou_for_each {A : Type} (may_fail : bool)
  (body : nat -> A -> MintPrinter -> Result MintPrinter) (l : list A) :
  Forall (fun x => forall i s, prints_or_unsupported may_fail (body i x s)) l ->
  forall i s, prints_or_unsupported may_fail (for_each body l i s).
Proof.
  induction 1 as [|x l Hx Hl IH]; intros i s; simpl; [exact I|].
  apply pou_bind; auto.
Qed.

Lemma pou_OK (may_fail : bool) (s : MintPrinter) :
  prints_or_unsupported may_fail (OK s).
Proof. exact I. Qed.

(** what the induction proves of a node, by the place it is visited from *)
Definition visit_is_safe (n : Node) : Prop :=
  well_typed n = true ->
  forall may_fail,
    (may_fail = false -> supported n = true) ->
    (block_like n = true ->
     forall s, prints_or_unsupported may_fail (_visit n s))
    /\ (is_item n = true ->
        forall prefix s,
          prints_or_unsupported may_fail (_visit_list_item _visit n prefix s))
    /\ (is_tab n = true ->
        forall s, prints_or_unsupported may_fail (visit_one_tab _visit n s)).

Lemma safe_members (kind_ok : Node -> bool) (may_fail : bool)
  (l : list Node) :
  Forall visit_is_safe l ->
  forallb (fun b => kind_ok b && well_typed b) l = true ->
  (may_fail = false -> forallb supported l = true) ->
  Forall (fun b =>
            kind_ok b = true
            /\ (block_like b = true ->
                forall s, prints_or_unsupported may_fail (_visit b s))
            /\ (is_item b = true ->
                forall prefix s,
                  prints_or_unsupported may_fail
                    (_visit_list_item _visit b prefix s))
            /\ (is_tab b = true ->
                forall s,
                  prints_or_unsupported may_fail (visit_one_tab _visit b s)))
    l.
Proof.
  induction 1 as [|b l Hb Hl IH]; intros W Sup; constructor.
  - simpl in W. apply andb_true_iff in W as [W _].
    apply andb_true_iff in W as [K W]. split; [exact K|].
    apply (Hb W may_fail). intros F. specialize (Sup F). simpl in Sup.
    apply andb_true_iff in Sup as [Sup _]. exact Sup.
  - apply IH.
    + simpl in W. apply andb_true_iff in W as [_ W]. exact W.
    + intros F. specialize (Sup F). simpl in Sup.
      apply andb_true_iff in Sup as [_ Sup]. exact Sup.
Qed.

Lemma pou_separated (may_fail : bool) (blocks : list Node) :
  Forall visit_is_safe blocks ->
  forallb (fun b => block_like b && well_typed b) blocks = true ->
  (may_fail = false -> forallb supported blocks = true) ->
  forall s, prints_or_unsupported may_fail (visit_separated _visit blocks s).
Proof.
  intros IH W Sup s. unfold visit_separated. apply pou_for_each.
  eapply Forall_impl; [|exact (safe_members _ _ _ IH W Sup)].
  intros b (K & V & _) i s0. apply V. exact K.
Qed.

Lemma pou_item_blocks (may_fail : bool) (prefix : string)
  (blocks : list Node) :
  Forall visit_is_safe blocks ->
  forallb (fun b => block_like b && well_typed b) blocks = true ->
  (may_fail = false -> forallb supported blocks = true) ->
  forall s,
    prints_or_unsupported may_fail
      (for_each (visit_item_block _visit prefix) blocks O s).
Proof.
  intros IH W Sup s. apply pou_for_each.
  eapply Forall_impl; [|exact (safe_members _ _ _ IH W Sup)].
  intros b (K & V & _) i s0. unfold visit_item_block.
  destruct (Nat.eqb i 0).
  - destruct b; try (apply V; exact K). exact I.
  - apply pou_bind; [apply V; exact K|]. intros a. exact I.
Qed.

Lemma visit_is_safe_all (n : Node) : visit_is_safe n.
Proof.
  induction n as [n IH] using Node_children_ind.
  intros W may_fail Sup.
  destruct n; cbn [children] in IH; cbn [well_typed] in W;
    cbn [block_like is_item is_tab negb orb];
    (split; [|split]); try discriminate; intros _;
    cbn [_visit _visit_list_item visit_one_tab]; intros;
    try exact I.
  - (* Document *)
    unfold _visit_document. apply pou_for_each.
    eapply Forall_impl; [|exact (safe_members _ _ _ IH W Sup)].
    intros b (K & V & _) i s0. apply pou_bind; [apply V; exact K|].
    intros a. exact I.
  - (* ListItem *)
    apply pou_item_blocks; auto.
  - (* UnorderedList *)
    unfold _visit_unorderedlist. apply pou_for_each.
    eapply Forall_impl; [|exact (safe_members _ _ _ IH W Sup)].
    intros b (K & _ & V & _) i s0. apply V. exact K.
  - (* OrderedList *)
    unfold _visit_orderedlist. apply pou_for_each.
    eapply Forall_impl; [|exact (safe_members _ _ _ IH W Sup)].
    intros b (K & _ & V & _) i s0. apply V. exact K.
  - (* Tab *)
    apply pou_bind; [apply pou_separated; auto|]. intros a. exact I.
  - (* TabBlock *)
    unfold _visit_tabblock. cbv zeta. apply pou_bind; [|intros a; exact I].
    apply pou_for_each.
    eapply Forall_impl; [|exact (safe_members _ _ _ IH W Sup)].
    intros b (K & _ & _ & V) i s0. apply V. exact K.
  - (* Admonition *)
    assert (SupB : may_fail = false -> forallb supported blocks = true).
    { intros F. specialize (Sup F). simpl in Sup.
      apply andb_true_iff in Sup as [_ Sup]. exact Sup. }
    unfold _visit_admonition. cbv zeta.
    destruct (String.eqb tag "???") eqn:T1.
    { apply pou_bind; [apply pou_separated; auto|]. intros a. exact I. }
    destruct (String.eqb tag "!!!") eqn:T2.
    + destruct (kind_to_callout (PyStr.lower kind)) eqn:K.
      * apply pou_bind; [apply pou_separated; auto|]. intros a. exact I.
      * simpl. destruct may_fail; [reflexivity|]. specialize (Sup eq_refl).
        simpl in Sup. rewrite T1, T2, K in Sup. discriminate Sup.
    + simpl. destruct may_fail; [reflexivity|]. specialize (Sup eq_refl).
      simpl in Sup. rewrite T1, T2 in Sup. discriminate Sup.
  - (* ConditionalBlock *)
    unfold _visit_conditionalblock. cbv zeta.
    apply pou_bind; [apply pou_separated; auto|]. intros a. exact I.
Qed.

Lemma parsed_document_shape (fuel : nat) (p : Parser) (doc : Node) :
  parse fuel p = OK doc -> well_typed doc = true /\ block_like doc = true.
Proof.
  intros H. apply parse_post in H as (blocks & q & -> & _ & _ & W & _).
  split; [exact W|reflexivity].
Qed.

(** X4: the tree that [parse] returns is shaped as the dataclasses declare
    it, so printing it never reads a missing field and never reaches the
    handlers of [Tab] and [ListItem]: [print] succeeds when every admonition
    has a tag and a kind the printer knows, and otherwise either succeeds or
    raises [NotImplementedError]. *)
Theorem parsed_document_prints_unless_admonition_unsupported :
  forall fuel p doc self,
    parse fuel p = OK doc ->
    well_typed doc = true
    /\ (supported doc = true ->
        exists text self', print self doc = OK (text, self'))
    /\ (forall e,
          print self doc = Raise e ->
          supported doc = false /\ exists msg, e = NotImplementedError msg)
    /\ finished (print self doc).
Proof.
  intros fuel p doc self H.
  destruct (parsed_document_shape _ _ _ H) as [W B].
  split; [exact W|].
  set (start := {| output := []; indent_level := 0;
                   printed_first_heading := printed_first_heading self |}).
  assert (V : forall may_fail,
             (may_fail = false -> supported doc = true) ->
             prints_or_unsupported may_fail (_visit doc start)).
  { intros may_fail Sup.
    destruct (visit_is_safe_all doc W may_fail Sup) as (V & _). auto. }
  unfold print. fold start. split; [|split].
  - intros Sup. specialize (V false (fun _ => Sup)).
    destruct (_visit doc start) as [s'|e|]; simpl in V.
    + eexists; eexists; reflexivity.
    + destruct e; try contradiction. discriminate V.
    + contradiction.
  - intros e E. specialize (V (negb (supported doc))).
    destruct (_visit doc start) as [s'|e'|]; simpl in *; try discriminate E.
    injection E as ->.
    assert (V' : match e with
                 | NotImplementedError _ => negb (supported doc) = true
                 | _ => False
                 end).
    { apply V. intros F. apply negb_false_iff in F. exact F. }
    destruct e; try contradiction.
    split; [apply negb_true_iff; exact V'|eauto].
  - specialize (V true (fun F => ltac:(discriminate F))).
    destruct (_visit doc start) as [s'|e|]; simpl in *; auto.
Qed.

Lemma parsed_document_prints_witness :
  well_typed
    (Document 1 5 [Heading 1 2 2 "Usage"; Paragraph 3 5 ["first"; "second"]])
  = true
  /\ (supported
        (Document 1 5
           [Heading 1 2 2 "Usage"; Paragraph 3 5 ["first"; "second"]]) = true ->
      exists text self',
        print MintPrinter_init
          (Document 1 5
             [Heading 1 2 2 "Usage"; Paragraph 3 5 ["first"; "second"]])
        = OK (text, self'))
  /\ (forall e,
        print MintPrinter_init
          (Document 1 5
             [Heading 1 2 2 "Usage"; Paragraph 3 5 ["first"; "second"]])
        = Raise e ->
        supported
          (Document 1 5
             [Heading 1 2 2 "Usage"; Paragraph 3 5 ["first"; "second"]])
        = false
        /\ exists msg, e = NotImplementedError msg)
  /\ finished
       (print MintPrinter_init
          (Document 1 5
             [Heading 1 2 2 "Usage"; Paragraph 3 5 ["first"; "second"]])).
Proof.
  apply (parsed_document_prints_unless_admonition_unsupported 5
           small_document).
  reflexivity.
Defined.

Lemma reprint_is_stable_witness :
  print after_first_heading heading_doc
  = OK ("# Title" ++ PyStr.nl,
        {| output := ["# Title"];
           indent_level := 0;
           printed_first_heading := true |})
  /\ print {| output := ["# Title"];
              indent_level := 0;
              printed_first_heading := true |} heading_doc
     = OK ("# Title" ++ PyStr.nl,
           {| output := ["# Title"];
              indent_level := 0;
              printed_first_heading := true |}).
Proof.
  split; [reflexivity|].
  apply (reprint_is_stable after_first_heading).
  - right. reflexivity.
  - reflexivity.
Defined.

(** X5: a visit that succeeds leaves the indent level where it was and only
    appends to the output buffer: the lines that were there stay, in place. *)
Theorem visit_restores_indent_and_appends :
  forall n self self',
    _visit n self = OK self' ->
    indent_level self' = indent_level self
    /\ exists lines, output self' = List.app (output self) lines.
Proof.
  intros n self self' E. apply visit_extends in E as (I & O & _).
  split; assumption.
Qed.

Lemma visit_restores_indent_witness :
  indent_level
    {| output := ["intro"; "* run"; "  ```"; "  ls"; "  ```"];
       indent_level := 0;
       printed_first_heading := false |}
  = indent_level (_add_line MintPrinter_init "intro")
  /\ exists lines,
      output
        {| output := ["intro"; "* run"; "  ```"; "  ls"; "  ```"];
           indent_level := 0;
           printed_first_heading := false |}
      = List.app (output (_add_line MintPrinter_init "intro")) lines.
Proof.
  apply (visit_restores_indent_and_appends item_with_code). reflexivity.
Defined.

(** X13: the body of an indent-scoped construct ends at the end of input or
    at a token that is not blank and is indented no deeper than the floor;
    that token is left as the look-ahead, and the blocks found are appended
    to the blocks given. *)
Theorem indent_scope_ends_at_shallow_token :
  forall k fuel min_indent p blocks blocks' q,
    _parse_blocks_until_indent (_parse_block k) fuel min_indent p blocks
    = OK (blocks', q) ->
    (is_kind [EOF] (_token q) = true
     \/ (Token.indent (_token q) <= min_indent
         /\ is_kind [BLANK] (_token q) = false))
    /\ (exists new, blocks' = List.app blocks new)
    /\ exists consumed, stream p = List.app consumed (stream q).
Proof.
  intros k fuel min_indent p blocks blocks' q H.
  apply (parse_blocks_until_indent_post _ (parse_block_post k)) in H
    as (new & -> & ((pre & E & _) & _) & X).
  split; [exact X|]. split; eauto.
Qed.

Lemma indent_scope_witness :
  (is_kind [EOF] (tok TEXT "outside" 4 0) = true
   \/ (Token.indent (tok TEXT "outside" 4 0) <= 0
       /\ is_kind [BLANK] (tok TEXT "outside" 4 0) = false))
  /\ (exists new, [Paragraph 2 4 ["inside"]] = List.app [] new)
  /\ exists consumed,
      stream admonition_scope
      = List.app consumed
          (stream {| _token := tok TEXT "outside" 4 0;
                     _tokens := [tok EOF "" 5 0] |}).
Proof.
  apply (indent_scope_ends_at_shallow_token 1 3 0 admonition_scope []
           [Paragraph 2 4 ["inside"]]
           {| _token := tok TEXT "outside" 4 0;
              _tokens := [tok EOF "" 5 0] |}).
  reflexivity.
Defined.

(** ** Slugs *)













Lemma lstrip_by_fixed (p : ascii -> bool) (s : string) :
  match first_char s with Some c => p c | None => false end = false ->
  PyStr.lstrip_by p s = s.
Proof. destruct s as [|c s]; simpl; [reflexivity|]. intros ->. reflexivity. Qed.

Lemma rstrip_by_fixed (p : ascii -> bool) (s : string) :
  match last_char s with Some c => p c | None => false end = false ->
  PyStr.rstrip_by p s = s.
Proof.
  induction s as [|c s IH]; [reflexivity|].
  destruct s as [|d r].
  - simpl. intros ->. reflexivity.
  - intros H. change (last_char (String c (String d r)))
      with (last_char (String d r)) in H.
    cbn [PyStr.rstrip_by]. cbn [PyStr.rstrip_by] in IH.
    rewrite (IH H). reflexivity.
Qed.



(** ** Front matter *)

Lemma last_default {A : Type} (l : list A) (x d d' : A) :
  List.last (x :: l) d = List.last (x :: l) d'.
Proof.
  revert x. induction l as [|y l IH]; intros x; [reflexivity|].
  change (List.last (y :: l) d = List.last (y :: l) d'). apply IH.
Qed.

Lemma while_kind_exhausts {A : Type} (go : Token -> bool)
  (step : A -> Token -> A) :
  forall rest cur acc,
    Forall (fun t => go t = true) (cur :: rest) ->
    while_kind go step {| _tokens := rest; _token := cur |} acc
    = Raise (end_of_input (List.last rest cur)).
Proof.
  unfold while_kind. cbn [_token _tokens].
  induction rest as [|t r IH]; intros cur acc F;
    inversion F as [|? ? Hc Hr]; subst; rewrite while_advance_unfold, Hc.
  - reflexivity.
  - rewrite (IH t _ Hr). f_equal. f_equal.
    destruct r as [|x r]; [reflexivity|]. exact (last_default r x t cur).
Qed.

(** X8: front matter is read up to the next delimiter and its lines are kept
    verbatim, joined by newlines, in a node that prints nothing; when no
    closing delimiter follows, every remaining token is consumed and the
    parser raises the end-of-input error at the last token. *)
Theorem front_matter_is_kept_verbatim_and_dropped :
  forall (open_token close_token next : Token) (body rest : list Token)
         (self : MintPrinter),
    Forall (fun t => is_kind [FRONT_MATTER] t = false) body ->
    is_kind [FRONT_MATTER] close_token = true ->
    let node :=
      FrontMatter (Token.line open_token) (Token.line close_token + 1)
        (PyStr.join PyStr.nl (map Token.value body)) in
    _parse_front_matter
      {| _tokens := List.app body (close_token :: next :: rest);
         _token := open_token |}
    = OK (node, {| _tokens := rest; _token := next |})
    /\ _visit node self = OK self
    /\ _parse_front_matter {| _tokens := body; _token := open_token |}
       = Raise (end_of_input (List.last body open_token)).
Proof.
  intros open_token close_token next body rest self HB HC node.
  assert (G : Forall (fun t => negb (is_kind [FRONT_MATTER] t) = true) body).
  { eapply Forall_impl; [|exact HB]. intros t ->. reflexivity. }
  split; [|split; [reflexivity|]].
  - unfold _parse_front_matter, _advance. cbn [_tokens _token].
    destruct (List.app body (close_token :: next :: rest))
      as [|first r] eqn:E.
    { destruct body; discriminate. }
    cbn [bind].
    rewrite (while_kind_run _ _ body close_token (next :: rest) first r []
               (eq_sym E) G) by (rewrite HC; reflexivity).
    cbn [bind _tokens _token]. rewrite fold_left_snoc_values. reflexivity.
  - unfold _parse_front_matter, _advance. cbn [_tokens _token].
    destruct body as [|first r]; [reflexivity|].
    cbn [bind]. rewrite (while_kind_exhausts _ _ r first [] G).
    cbn [bind]. f_equal. f_equal.
    destruct r as [|x r]; [reflexivity|].
    exact (last_default r x first open_token).
Qed.

Lemma front_matter_witness :
  let open_token := tok FRONT_MATTER "---" 1 0 in
  let close_token := tok FRONT_MATTER "---" 4 0 in
  let node :=
    FrontMatter (Token.line open_token) (Token.line close_token + 1)
      (PyStr.join PyStr.nl (map Token.value front_matter_body)) in
  _parse_front_matter
    {| _tokens :=
         List.app front_matter_body (close_token :: tok EOF "" 5 0 :: []);
       _token := open_token |}
  = OK (node, {| _tokens := []; _token := tok EOF "" 5 0 |})
  /\ _visit node MintPrinter_init = OK MintPrinter_init
  /\ _parse_front_matter
       {| _tokens := front_matter_body; _token := open_token |}
     = Raise (end_of_input (List.last front_matter_body open_token)).
Proof.
  intros open_token close_token.
  apply (front_matter_is_kept_verbatim_and_dropped open_token close_token
           (tok EOF "" 5 0) front_matter_body [] MintPrinter_init).
  - repeat constructor.
  - reflexivity.
Defined.

(** ** Headings, once more *)

Lemma split_max_zero (c : ascii) (s : string) : PyStr.split_max c 0 s = [s].
Proof. destruct s; reflexivity. Qed.

Lemma split_max_first (c : ascii) (a rest : string) :
  PyStr.contains_char c a = false ->
  PyStr.split_max c 1 (a ++ String c rest) = [a; rest].
Proof.
  unfold PyStr.contains_char.
  induction a as [|x a IH]; simpl.
  - intros _. rewrite Ascii.eqb_refl, split_max_zero. reflexivity.
  - intros H. apply orb_false_iff in H as [Hx Ha].
    rewrite Hx, (IH Ha). reflexivity.
Qed.

Lemma search_acorn_none (s : string) :
  PyStr.contains_char "{" s = false -> Re.search_acorn s = None.
Proof.
  unfold PyStr.contains_char.
  induction s as [|c s IH]; [reflexivity|].
  cbn [PyStr.in_chars]. intros H. apply orb_false_iff in H as [Hc Hs].
  cbn [Re.search_acorn].
  assert (M : Re.match_acorn_here (String c s) = None).
  { unfold Re.match_acorn_here.
    destruct (Ascii.eqb_spec c "{"%char) as [->|N]; [discriminate Hc|].
    destruct c as [[] [] [] [] [] [] [] []]; try reflexivity.
    congruence. }
  rewrite M. exact (IH Hs).
Qed.

Lemma search_paren_none (s : string) :
  PyStr.contains_char "(" s = false -> Re.search_paren s = None.
Proof.
  unfold PyStr.contains_char.
  induction s as [|c s IH]; [reflexivity|].
  cbn [PyStr.in_chars]. intros H. apply orb_false_iff in H as [Hc Hs].
  cbn [Re.search_paren].
  assert (M : Re.match_paren_here (String c s) = None).
  { unfold Re.match_paren_here.
    destruct (Ascii.eqb_spec c "("%char) as [->|N]; [discriminate Hc|].
    destruct c as [[] [] [] [] [] [] [] []]; try reflexivity.
    congruence. }
  rewrite M. exact (IH Hs).
Qed.

Lemma repeat_hash_length (n : nat) :
  String.length (PyStr.repeat_str "#" n) = n.
Proof. induction n as [|n IH]; simpl; congruence. Qed.

Lemma repeat_hash_no_space (n : nat) :
  PyStr.contains_char " " (PyStr.repeat_str "#" n) = false.
Proof. induction n as [|n IH]; [reflexivity|exact IH]. Qed.

(** X9: a heading line made of hashes, a space and a text without braces and
    parentheses parses to a heading whose level is the number of hashes, and
    a printer that has already printed a first heading prints it back as the
    same line. *)
Theorem plain_heading_round_trips :
  forall (n : nat) (text : string) (line indent : Z) (next : Token)
         (rest : list Token) (self : MintPrinter),
    PyStr.contains_char "{" text = false ->
    PyStr.contains_char "(" text = false ->
    printed_first_heading self = true ->
    let source := PyStr.repeat_str "#" n ++ " " ++ text in
    let node := Heading line (line + 1) (Z.of_nat n) text in
    _parse_heading
      {| _tokens := next :: rest; _token := tok HEADING source line indent |}
    = OK (node, {| _tokens := rest; _token := next |})
    /\ _visit node self = OK (_add_line self source).
Proof.
  intros n text line indent next rest self HB HP HF source node.
  split.
  - unfold _parse_heading, _advance, tok, source.
    cbn [_tokens _token bind Token.value Token.line].
    change (" " ++ text) with (String " " text).
    rewrite (split_max_first " " _ text (repeat_hash_no_space n)).
    rewrite repeat_hash_length. reflexivity.
  - subst node source. cbn [_visit]. unfold _visit_heading. rewrite HF.
    pose proof (heading_anchor_cases text) as C.
    rewrite (search_acorn_none _ HB), (search_paren_none _ HP) in C.
    destruct C as [-> ->]. cbv zeta. unfold PyStr.mul.
    rewrite Nat2Z.id. reflexivity.
Qed.

Lemma plain_heading_witness :
  _parse_heading
    {| _tokens := [tok EOF "" 8 0];
       _token := tok HEADING ("###" ++ " " ++ "Next steps") 7 0 |}
  = OK (Heading 7 (7 + 1) (Z.of_nat 3) "Next steps",
        {| _tokens := []; _token := tok EOF "" 8 0 |})
  /\ _visit (Heading 7 (7 + 1) (Z.of_nat 3) "Next steps") after_first_heading
     = OK (_add_line after_first_heading ("###" ++ " " ++ "Next steps")).
Proof.
  apply (plain_heading_round_trips 3 "Next steps" 7 0 (tok EOF "" 8 0) []
           after_first_heading); reflexivity.
Defined.

(** ** Quote blocks and HTML blocks *)

Lemma fold_left_snoc_map {A B : Type} (f : A -> B) (l : list A) :
  forall acc,
    fold_left (fun acc t => List.app acc [f t]) l acc
    = List.app acc (map f l).
Proof.
  induction l as [|t l IH]; intros acc; simpl.
  - rewrite app_nil_r. reflexivity.
  - rewrite IH, <- app_assoc. reflexivity.
Qed.

Lemma parse_run (kind : TokenType) (f : Token -> string) (first stop : Token)
  (more tail : list Token) :
  Forall (fun t => is_kind [kind] t = true) more ->
  is_kind [kind] stop = false ->
  bind (_advance {| _tokens := List.app more (stop :: tail);
                    _token := first |})
    (fun r =>
       while_kind (is_kind [kind])
         (fun acc t => List.app acc [f t]) (snd r) [f (fst r)])
  = OK (map f (first :: more), {| _tokens := tail; _token := stop |}).
Proof.
  intros HM HS. unfold _advance. cbn [_tokens _token].
  destruct (List.app more (stop :: tail)) as [|hd tl] eqn:E.
  { destruct more; discriminate. }
  cbn [bind fst snd].
  rewrite (while_kind_run _ _ more stop tail hd tl _ (eq_sym E) HM HS).
  rewrite fold_left_snoc_map. reflexivity.
Qed.

Lemma lstrip_by_plain (p : ascii -> bool) (s : string) :
  match first_char (PyStr.lstrip_by p s) with
  | Some c => negb (p c)
  | None => true
  end = true.
Proof.
  destruct (first_char (PyStr.lstrip_by p s)) as [c|] eqn:F; [|reflexivity].
  rewrite (lstrip_by_first p s c F). reflexivity.
Qed.

(** X10: a run of blockquote lines parses to one quote block with one line
    per token, each without its leading [>] and space characters, and prints
    with a single quote marker before each line; a source line made of one
    marker and a text that starts with neither comes out as it went in. *)
Theorem quote_block_lines_are_remarked :
  forall (first stop : Token) (more tail : list Token) (self : MintPrinter),
    Forall (fun t => is_kind [BLOCKQUOTE] t = true) more ->
    is_kind [BLOCKQUOTE] stop = false ->
    let node :=
      QuoteBlock (Token.line first) (Token.line stop)
        (map quote_line (first :: more)) in
    _parse_quote_block
      {| _tokens := List.app more (stop :: tail); _token := first |}
    = OK (node, {| _tokens := tail; _token := stop |})
    /\ _visit node self
       = OK (add_lines self
               (map (fun t => "> " ++ quote_line t) (first :: more)))
    /\ Forall (fun t => starts_plain (quote_line t) = true) (first :: more)
    /\ (forall t body,
          Token.value t = "> " ++ body ->
          starts_plain body = true ->
          "> " ++ quote_line t = Token.value t).
Proof.
  intros first stop more tail self HM HS node. subst node.
  split; [|split; [|split]].
  - pose proof (parse_run BLOCKQUOTE quote_line first stop more tail HM HS)
      as R.
    unfold _parse_quote_block.
    apply bind_OK in R as ([t p1] & A & R). rewrite A. cbn [bind fst snd] in *.
    unfold quote_line in R at 1 2. rewrite R. cbn [bind].
    apply advance_OK in A as [-> _]. reflexivity.
  - cbn [_visit]. unfold _visit_quoteblock. rewrite map_map. reflexivity.
  - apply Forall_forall. intros t _. unfold starts_plain, quote_line.
    apply (lstrip_by_plain (PyStr.in_chars "> ")).
  - intros t body E P. unfold quote_line, PyStr.lstrip_chars. rewrite E.
    f_equal. change ("> " ++ body) with (String ">" (String " " body)).
    cbn [PyStr.lstrip_by]. change (PyStr.in_chars "> " ">"%char) with true.
    change (PyStr.in_chars "> " " "%char) with true. cbv iota.
    apply lstrip_by_fixed. unfold starts_plain in P.
    destruct (first_char body) as [c|]; [|reflexivity].
    apply negb_true_iff in P. exact P.
Qed.

Lemma quote_block_witness :
  let first := tok BLOCKQUOTE "> be kind" 3 0 in
  let more := [tok BLOCKQUOTE ">> rewind" 4 0] in
  let stop := tok EOF "" 5 0 in
  let node :=
    QuoteBlock (Token.line first) (Token.line stop)
      (map quote_line (first :: more)) in
  _parse_quote_block
    {| _tokens := List.app more (stop :: []); _token := first |}
  = OK (node, {| _tokens := []; _token := stop |})
  /\ _visit node MintPrinter_init
     = OK (add_lines MintPrinter_init
             (map (fun t => "> " ++ quote_line t) (first :: more)))
  /\ Forall (fun t => starts_plain (quote_line t) = true) (first :: more)
  /\ (forall t body,
        Token.value t = "> " ++ body ->
        starts_plain body = true ->
        "> " ++ quote_line t = Token.value t).
Proof.
  intros first more stop.
  apply (quote_block_lines_are_remarked first stop more [] MintPrinter_init).
  - repeat constructor.
  - reflexivity.
Defined.

Lemma rstrip_by_empty (p : ascii -> bool) (s : string) :
  PyStr.is_empty (PyStr.rstrip_by p s) = all_chars p s.
Proof.
  induction s as [|c s IH]; [reflexivity|]. simpl.
  destruct (PyStr.rstrip_by p s); simpl in *; rewrite <- IH.
  - destruct (p c); reflexivity.
  - rewrite andb_false_r. reflexivity.
Qed.

Lemma lstrip_by_empty (p : ascii -> bool) (s : string) :
  PyStr.is_empty (PyStr.lstrip_by p s) = all_chars p s.
Proof.
  induction s as [|c s IH]; [reflexivity|]. simpl.
  destruct (p c); [exact IH|reflexivity].
Qed.

Lemma last_char_not_all (p : ascii -> bool) (s : string) (c : ascii) :
  last_char s = Some c -> p c = false -> all_chars p s = false.
Proof.
  induction s as [|x s IH]; [discriminate|].
  destruct s as [|y s].
  - simpl. intros H. injection H as ->. intros ->. reflexivity.
  - intros H P. change (all_chars p (String x (String y s)))
      with (p x && all_chars p (String y s)).
    rewrite (IH H P). apply andb_false_r.
Qed.

Lemma last_char_some (s : string) :
  s <> "" -> exists c, last_char s = Some c.
Proof.
  induction s as [|x s IH]; [congruence|]. intros _.
  destruct s as [|y s]; [exists x; reflexivity|].
  destruct IH as [c H]; [discriminate|]. exists c. exact H.
Qed.

Lemma truthy_strip (s : string) : PyStr.truthy (PyStr.strip s) = visible s.
Proof.
  unfold PyStr.truthy, PyStr.strip, PyStr.strip_by, visible. f_equal.
  rewrite lstrip_by_empty.
  destruct (all_chars PyStr.is_space s) eqn:A.
  - rewrite <- rstrip_by_empty in A.
    destruct (PyStr.rstrip_by PyStr.is_space s); [reflexivity|discriminate A].
  - rewrite <- rstrip_by_empty in A.
    destruct (last_char_some (PyStr.rstrip_by PyStr.is_space s)) as [c L].
    { intros E. rewrite E in A. discriminate A. }
    apply (last_char_not_all _ _ c L). eapply rstrip_by_last. exact L.
Qed.

Lemma all_chars_app (p : ascii -> bool) (a b : string) :
  all_chars p (a ++ b) = all_chars p a && all_chars p b.
Proof.
  induction a as [|x a IH]; simpl; [reflexivity|].
  rewrite IH, andb_assoc. reflexivity.
Qed.

Lemma visible_html_line (t : Token) :
  visible (Token.value t) = true -> visible (html_line t) = true.
Proof.
  unfold visible, html_line. intros H. apply negb_true_iff in H.
  rewrite all_chars_app, H, andb_false_r. reflexivity.
Qed.

Lemma html_line_no_newline (t : Token) :
  no_newline t = true ->
  PyStr.contains_char PyStr.newline (html_line t) = false.
Proof.
  unfold no_newline, html_line, PyStr.mul. intros H.
  apply negb_true_iff in H.
  rewrite contains_char_app, repeat_space_no_newline, H. reflexivity.
Qed.

Lemma visit_html_visible_lines (lines : list string) :
  Forall (fun l => visible l = true) lines ->
  forall i self,
    snd (fold_left
           (fun '(i, self) line =>
              (S i,
               if PyStr.truthy (PyStr.strip line) || Nat.eqb i 0
               then _add_line self line
               else _add_line self ""))
           lines (i, self))
    = add_lines self lines.
Proof.
  unfold add_lines.
  induction 1 as [|l lines Hl Hlines IH]; intros i self; [reflexivity|].
  cbn [fold_left]. rewrite truthy_strip, Hl. cbn [orb]. apply IH.
Qed.

(** X11: a run of raw HTML lines parses to one HTML block and, when every
    line is one line of visible text, prints back one line per token with the
    indentation the token had. *)
Theorem html_block_keeps_lines_and_indentation :
  forall (first stop : Token) (more tail : list Token) (self : MintPrinter),
    Forall (fun t => is_kind [HTML_TAG] t = true) more ->
    is_kind [HTML_TAG] stop = false ->
    Forall (fun t => no_newline t = true) (first :: more) ->
    Forall (fun t => visible (Token.value t) = true) (first :: more) ->
    let node :=
      HTMLBlock (Token.line first) (Token.line stop)
        (PyStr.join PyStr.nl (map html_line (first :: more))) in
    _parse_html_block
      {| _tokens := List.app more (stop :: tail); _token := first |}
    = OK (node, {| _tokens := tail; _token := stop |})
    /\ _visit node self = OK (add_lines self (map html_line (first :: more))).
Proof.
  intros first stop more tail self HM HS HN HV node. subst node. split.
  - pose proof (parse_run HTML_TAG html_line first stop more tail HM HS) as R.
    unfold _parse_html_block.
    apply bind_OK in R as ([t p1] & A & R). rewrite A. cbn [bind fst snd] in *.
    cbv zeta. unfold html_line in R at 1 2. rewrite R. cbn [bind].
    apply advance_OK in A as [-> _]. reflexivity.
  - cbn [_visit]. unfold _visit_htmlblock. cbv zeta.
    change PyStr.nl with (String PyStr.newline "").
    rewrite split_join.
    + rewrite visit_html_visible_lines; [reflexivity|].
      apply Forall_forall. intros l Hl.
      apply in_map_iff in Hl as (t & <- & Ht).
      apply visible_html_line. rewrite Forall_forall in HV. auto.
    + discriminate.
    + apply Forall_forall. intros l Hl.
      apply in_map_iff in Hl as (t & <- & Ht).
      apply html_line_no_newline. rewrite Forall_forall in HN. auto.
Qed.

Lemma html_block_witness :
  let first := tok HTML_TAG "<div>" 2 0 in
  let more := [tok HTML_TAG "<img src='a.png'/>" 3 4;
               tok HTML_TAG "</div>" 4 0] in
  let stop := tok EOF "" 5 0 in
  let node :=
    HTMLBlock (Token.line first) (Token.line stop)
      (PyStr.join PyStr.nl (map html_line (first :: more))) in
  _parse_html_block
    {| _tokens := List.app more (stop :: []); _token := first |}
  = OK (node, {| _tokens := []; _token := stop |})
  /\ _visit node MintPrinter_init
     = OK (add_lines MintPrinter_init (map html_line (first :: more))).
Proof.
  intros first more stop.
  apply (html_block_keeps_lines_and_indentation first stop more []
           MintPrinter_init).
  - repeat constructor.
  - reflexivity.
  - repeat constructor.
  - repeat constructor.
Defined.

(** ** Tab headers *)

Lemma string_app_assoc (a b c : string) : (a ++ b) ++ c = a ++ b ++ c.
Proof. induction a as [|x a IH]; simpl; congruence. Qed.

Lemma rev_onto_app (s acc : string) :
  PyStr.rev_onto s acc = PyStr.rev s ++ acc.
Proof.
  unfold PyStr.rev. revert acc.
  induction s as [|c s IH]; intros acc; [reflexivity|].
  cbn [PyStr.rev_onto]. rewrite (IH (String c acc)), (IH (String c "")).
  rewrite string_app_assoc. reflexivity.
Qed.

Lemma rev_cons (c : ascii) (s : string) :
  PyStr.rev (String c s) = PyStr.rev s ++ String c "".
Proof. unfold PyStr.rev at 1. cbn [PyStr.rev_onto]. apply rev_onto_app. Qed.

Lemma rev_app (a b : string) :
  PyStr.rev (a ++ b) = PyStr.rev b ++ PyStr.rev a.
Proof.
  induction a as [|x a IH].
  - simpl. change (PyStr.rev "") with "". rewrite append_nil_r. reflexivity.
  - change (String x a ++ b) with (String x (a ++ b)).
    rewrite !rev_cons, IH, string_app_assoc. reflexivity.
Qed.

Lemma rev_involutive (s : string) : PyStr.rev (PyStr.rev s) = s.
Proof.
  induction s as [|c s IH]; [reflexivity|].
  rewrite rev_cons, rev_app, IH. reflexivity.
Qed.

Lemma contains_char_rev (c : ascii) (s : string) :
  PyStr.contains_char c (PyStr.rev s) = PyStr.contains_char c s.
Proof.
  induction s as [|x s IH]; [reflexivity|].
  rewrite rev_cons, contains_char_app, IH.
  unfold PyStr.contains_char. simpl. rewrite orb_false_r. apply orb_comm.
Qed.

Lemma rsplit1_last (c : ascii) (title post : string) :
  PyStr.contains_char c post = false ->
  PyStr.rsplit1 c (title ++ String c post) = [title; post].
Proof.
  intros H. unfold PyStr.rsplit1.
  rewrite rev_app, rev_cons, string_app_assoc.
  change (String c "" ++ PyStr.rev title) with (String c (PyStr.rev title)).
  rewrite split_max_first by (rewrite contains_char_rev; exact H).
  rewrite !rev_involutive. reflexivity.
Qed.

(** X12: the title of a tab is the text between the first and the last
    double quote of its header, whatever quotes it holds itself, and the tab
    is the first of the tab block that the header opens. *)
Theorem tab_title_is_between_outer_quotes :
  forall (k fuel : nat) (header next : Token) (rest : list Token)
         (pre title post : string) (n : Node) (q : Parser),
    is_kind [TAB_HEADER] header = true ->
    Token.value header
    = pre ++ String PyStr.dquote (title ++ String PyStr.dquote post) ->
    PyStr.contains_char PyStr.dquote pre = false ->
    PyStr.contains_char PyStr.dquote post = false ->
    _parse_tab_block (_parse_block k) fuel
      {| _tokens := next :: rest; _token := header |} = OK (n, q) ->
    exists limit blocks more last_limit,
      n = TabBlock (Token.line header) last_limit
            (Tab (Token.line header) limit title blocks :: more).
Proof.
  intros k fuel header next rest pre title post n q HK HV HP HQ H.
  unfold _parse_tab_block in H.
  apply bind_OK in H as ([tabs p1] & L & H).
  destruct fuel as [|fuel]; [discriminate L|].
  cbn [tab_loop] in L. unfold _check in L. cbn [_token] in L.
  rewrite HK in L. unfold _advance in L. cbn [_tokens _token bind] in L.
  rewrite HV, (split_max_first _ _ _ HP) in L.
  rewrite (rsplit1_last _ _ _ HQ) in L. cbn [hd] in L.
  apply bind_OK in L as ([inner p2] & _ & L).
  apply (tab_loop_post _ (parse_block_post k)) in L as (new & -> & _).
  cbn [List.app] in H. injection H as <- _.
  cbn [start_line]. eexists; eexists; eexists; eexists. reflexivity.
Qed.

Lemma tab_title_witness :
  let header :=
    tok TAB_HEADER
      ("=== " ++ String PyStr.dquote ("Python" ++ String PyStr.dquote ""))
      1 0 in
  exists limit blocks more last_limit,
    TabBlock 1 3 [Tab 1 3 "Python" [Paragraph 2 3 ["pip install"]]]
    = TabBlock (Token.line header) last_limit
        (Tab (Token.line header) limit "Python" blocks :: more).
Proof.
  intros header.
  apply (tab_title_is_between_outer_quotes 1 3 header
           (tok TEXT "pip install" 2 4) [tok EOF "" 3 0]
           "=== " "Python" ""
           (TabBlock 1 3 [Tab 1 3 "Python" [Paragraph 2 3 ["pip install"]]])
           {| _tokens := []; _token := tok EOF "" 3 0 |});
    reflexivity.
Defined.

(** ** Lists *)

Lemma list_items_exit (pb : Parser -> Result (Node * Parser))
  (marker_type : TokenType) (list_indent : Z) :
  forall fuel p items items' q,
    list_items pb fuel marker_type list_indent p items = OK (items', q) ->
    _check q [marker_type] && (Token.indent (_token q) =? list_indent) = false.
Proof.
  induction fuel as [|fuel IH]; intros p items items' q H; [discriminate|].
  cbn [list_items] in H.
  destruct (_check p [marker_type] && _) eqn:C.
  - apply bind_OK in H as ([item p1] & _ & H). eapply IH; eauto.
  - injection H as _ <-. exact C.
Qed.

(** X15: a list takes every marker of its own kind at the indent of its
    first marker and stops at the first token that is not one: the node holds
    at least one item, every item is a list item, the node is an ordered list
    exactly when the markers are numbers, and the look-ahead left behind is
    not a marker the list could have taken. *)
Theorem list_takes_its_sibling_markers :
  forall (k fuel : nat) (ordered : bool) (p q : Parser) (n : Node),
    _parse_list (_parse_block k) fuel ordered p = OK (n, q) ->
    (exists limit first more,
        n = (if ordered then OrderedList else UnorderedList)
              (Token.line (_token p)) limit (first :: more)
        /\ forallb is_item (first :: more) = true)
    /\ sibling_marker ordered (Token.indent (_token p)) (_token q) = false
    /\ exists consumed,
        consumed <> [] /\ stream p = List.app consumed (stream q).
Proof.
  intros k fuel ordered p q n H.
  pose proof (parse_list_post _ (parse_block_post k) _ _ _ _ _ H)
    as (A & St & _).
  unfold _parse_list in H. cbv zeta in H.
  apply bind_OK in H as ([items p1] & L & H).
  pose proof (list_items_exit _ _ _ _ _ _ _ _ L) as X.
  apply (list_items_post _ (parse_block_post k)) in L
    as (new & E & (_ & W & _ & Adv)).
  simpl in E. subst new. destruct items as [|first more]; [discriminate H|].
  destruct Adv as [(pre & Epre & Npre) _].
  assert (Items : forallb is_item (first :: more) = true).
  { apply forallb_forall. intros i Hi. rewrite forallb_forall in W.
    specialize (W i Hi). apply andb_true_iff in W as [W _]. exact W. }
  destruct ordered; injection H as <- <-; simpl in St;
    (split; [eexists; exists first, more; split;
             [rewrite <- St; reflexivity|exact Items]|]);
    (split; [exact X|exists pre; split; [apply Npre; reflexivity|exact Epre]]).
Qed.

Lemma list_takes_its_sibling_markers_witness :
  let q :=
    {| _token := tok UL_MARKER "- other" 3 2;
       _tokens := [tok EOF "" 4 0] |} in
  (exists limit first more,
      OrderedList 1 3
        [ListItem 1 2 [Paragraph 1 2 ["one"]];
         ListItem 2 3 [Paragraph 2 3 ["two"]]]
      = (if true then OrderedList else UnorderedList)
          (Token.line (_token list_then_bullet)) limit (first :: more)
      /\ forallb is_item (first :: more) = true)
  /\ sibling_marker true (Token.indent (_token list_then_bullet)) (_token q)
     = false
  /\ exists consumed,
      consumed <> [] /\ stream list_then_bullet = List.app consumed (stream q).
Proof.
  intros q.
  apply (list_takes_its_sibling_markers 1 4 true list_then_bullet q).
  reflexivity.
Defined.

(** ** Admonition headers *)

Lemma lower_char_idempotent (c : ascii) :
  PyStr.lower_char (PyStr.lower_char c) = PyStr.lower_char c.
Proof. destruct c as [[] [] [] [] [] [] [] []]; reflexivity. Qed.

Lemma lower_idempotent (s : string) :
  PyStr.lower (PyStr.lower s) = PyStr.lower s.
Proof.
  induction s as [|c s IH]; [reflexivity|]. simpl.
  rewrite lower_char_idempotent, IH. reflexivity.
Qed.

(** X14: the admonition that the parser builds has its kind in lower case,
    so the lower-casing of the printer changes nothing, and its title neither
    starts nor ends with a double quote. *)
Theorem parsed_admonition_kind_is_lower_case :
  forall pb fuel p q s l tag kind title blocks,
    _parse_admonition pb fuel p = OK (Admonition s l tag kind title blocks, q) ->
    PyStr.lower kind = kind
    /\ (forall c,
          first_char title = Some c \/ last_char title = Some c ->
          c <> PyStr.dquote).
Proof.
  intros pb fuel p q s l tag kind title blocks H.
  unfold _parse_admonition in H.
  apply bind_OK in H as ([header p1] & _ & H).
  destruct (PyStr.split_ws 2 (Token.value header)) as [|tag' tail];
    [discriminate H|].
  apply bind_OK in H as ([body p2] & _ & H).
  injection H as _ _ _ K T _ _. split.
  - rewrite <- K. destruct tail as [|k tail']; [reflexivity|].
    apply lower_idempotent.
  - intros c Hc ->. rewrite <- T in Hc.
    apply (strip_by_ends (PyStr.in_chars (String PyStr.dquote ""))) in Hc.
    discriminate Hc.
Qed.

Lemma parsed_admonition_witness :
  let title := "Mind the gap" in
  PyStr.lower "warning" = "warning"
  /\ (forall c,
        first_char title = Some c \/ last_char title = Some c ->
        c <> PyStr.dquote).
Proof.
  intros title.
  apply (parsed_admonition_kind_is_lower_case (_parse_block 1) 2
           {| _token :=
                tok ADMONITION
                  ("!!! WARNING " ++ PyStr.quoted "Mind the gap") 1 0;
              _tokens := [tok TEXT "text" 2 4; tok EOF "" 3 0] |}
           {| _token := tok EOF "" 3 0; _tokens := [] |}
           1 3 "!!!" "warning" title [Paragraph 2 3 ["text"]]).
  reflexivity.
Defined.

(** ** The opening line of a fence *)

Lemma strip_fixed (s : string) :
  outer_space_free s = true -> PyStr.strip s = s.
Proof.
  unfold outer_space_free, opt_space, PyStr.strip, PyStr.strip_by.
  intros H. apply andb_true_iff in H as [F L].
  apply negb_true_iff in F. apply negb_true_iff in L.
  rewrite rstrip_by_fixed by exact L. apply lstrip_by_fixed. exact F.
Qed.

Lemma first_char_app (a b : string) :
  a <> "" -> first_char (a ++ b) = first_char a.
Proof. destruct a; [congruence|reflexivity]. Qed.

Lemma last_char_app (a b : string) :
  b <> "" -> last_char (a ++ b) = last_char b.
Proof.
  intros N. induction a as [|x a IH]; [reflexivity|].
  change (String x a ++ b) with (String x (a ++ b)).
  cbn [last_char]. destruct (a ++ b) eqn:E; [|exact IH].
  destruct a; simpl in E; [congruence|discriminate].
Qed.

(** X16: an opening fence written as three backticks, a language and, after
    one space, further text parses to a code block with that language and
    that text as its meta string, and the first line printed for the block is
    the opening fence as it was written. *)
Theorem fence_line_round_trips :
  forall (fuel : nat) (open_token close_token next : Token)
         (body tail : list Token) (lang meta : string) (self : MintPrinter),
    Token.type open_token = FENCE ->
    Forall (fun t => is_kind [FENCE; EOF] t = false) body ->
    Token.type close_token = FENCE ->
    Token.value open_token = "```" ++ lang ++ " " ++ meta ->
    lang <> "" -> meta <> "" ->
    PyStr.contains_char " " lang = false ->
    opt_space (first_char lang) = false ->
    opt_space (last_char meta) = false ->
    exists content more,
      _parse_block (S fuel)
        {| _tokens := List.app body (close_token :: next :: tail);
           _token := open_token |}
      = OK (CodeBlock (Token.line open_token) (Token.line close_token + 1)
              (Some lang) (Some meta) content,
            {| _tokens := tail; _token := next |})
      /\ output (_visit_codeblock (Some lang) (Some meta) content self)
         = List.app (output self)
             ((indent_of self ++ Token.value open_token) :: more).
Proof.
  intros fuel open_token close_token next body tail lang meta self
    HO HB HC HV HL HM HS HF HLa.
  assert (Strip : PyStr.strip (PyStr.drop 3 (Token.value open_token))
                  = lang ++ String " " meta).
  { rewrite HV. cbn [PyStr.drop append]. apply strip_fixed.
    unfold outer_space_free.
    rewrite first_char_app by exact HL.
    rewrite last_char_app by discriminate.
    change (last_char (String " " meta)) with (last_char (" " ++ meta)).
    rewrite last_char_app by exact HM. rewrite HF, HLa. reflexivity. }
  exists (PyStr.join PyStr.nl (map (body_line (Token.indent open_token)) body)).
  assert (T : PyStr.truthy lang = true /\ PyStr.truthy meta = true).
  { split; apply truthy_ne; assumption. }
  destruct T as [TL TM].
  exists (List.app
            (if PyStr.truthy
                  (PyStr.join PyStr.nl
                     (map (body_line (Token.indent open_token)) body))
             then map (fun l => indent_of self ++ l)
                    (PyStr.split PyStr.newline
                       (PyStr.join PyStr.nl
                          (map (body_line (Token.indent open_token)) body)))
             else [])
            [indent_of self ++ "```"]).
  split.
  - rewrite dispatch_fence by exact HO.
    destruct (List.app body (close_token :: next :: tail))
      as [|first rest] eqn:E.
    { destruct body; discriminate. }
    rewrite parse_code_block_unfold. cbv zeta.
    assert (HC' : is_kind [FENCE] close_token = true).
    { unfold is_kind. simpl. rewrite HC. reflexivity. }
    rewrite (fence_body_terminated open_token (Token.indent open_token) body
               close_token (next :: tail) first rest [] (eq_sym E) HB HC').
    rewrite Strip, (split_max_first " " lang meta HS). reflexivity.
  - unfold _visit_codeblock. cbv zeta. rewrite TL, TM, HV.
    destruct (PyStr.truthy
                (PyStr.join PyStr.nl
                   (map (body_line (Token.indent open_token)) body))).
    + rewrite add_lines_eq. unfold _add_line, indent_of. simpl.
      rewrite <- !app_assoc. reflexivity.
    + unfold _add_line, indent_of. simpl.
      rewrite <- !app_assoc. reflexivity.
Qed.

Lemma fence_line_witness :
  let open_token := tok FENCE ("```" ++ "python" ++ " " ++ "title=x") 1 0 in
  let close_token := tok FENCE "```" 3 0 in
  exists content more,
    _parse_block 1
      {| _tokens :=
           List.app [tok TEXT "x = 1" 2 0]
             (close_token :: tok EOF "" 4 0 :: []);
         _token := open_token |}
    = OK (CodeBlock (Token.line open_token) (Token.line close_token + 1)
            (Some "python") (Some "title=x") content,
          {| _tokens := []; _token := tok EOF "" 4 0 |})
    /\ output (_visit_codeblock (Some "python") (Some "title=x") content
                MintPrinter_init)
       = List.app (output MintPrinter_init)
           ((indent_of MintPrinter_init ++ Token.value open_token) :: more).
Proof.
  intros open_token close_token.
  apply (fence_line_round_trips 0 open_token close_token (tok EOF "" 4 0)
           [tok TEXT "x = 1" 2 0] [] "python" "title=x" MintPrinter_init);
    try reflexivity; try discriminate.
  repeat constructor.
Defined.

(** * Conditional blocks and their close marker *)

Lemma parse_conditional_block_needs_close
  (pb : Parser -> Result (Node * Parser))
  (Hpb : forall p n q, pb p = OK (n, q) -> parsed_block p n q)
  (fuel : nat) (p q : Parser) (n : Node) :
  _parse_conditional_block pb fuel p = OK (n, q) ->
  exists t, In t (_tokens p) /\ Token.type t = CONDITIONAL_BLOCK_CLOSE.
Proof.
  unfold _parse_conditional_block. intros H.
  apply bind_OK in H as ([open_token p1] & A & H).
  destruct (negb (PyStr.startswith ":::" (Token.value open_token)));
    [discriminate|].
  cbv zeta in H. destruct (negb (_ || _)); [discriminate|].
  apply bind_OK in H as ([blocks p2] & B & H).
  destruct (_check p2 [CONDITIONAL_BLOCK_CLOSE]) eqn:C; cbn [negb] in H;
    [|discriminate].
  apply advance_OK in A as [_ A].
  apply (conditional_body_post pb Hpb) in B as (new & _ & ((pre & E & _) & _)).
  exists (_token p2). split.
  - unfold stream in A at 1. injection A as _ A. rewrite A, E.
    apply in_or_app. right. left. reflexivity.
  - unfold _check, is_kind in C. simpl in C.
    destruct (Token.type (_token p2)); try discriminate C; reflexivity.
Qed.

Lemma conditional_block_needs_close (fuel : nat) (p : Parser) (n : Node)
  (q : Parser) :
  Token.type (_token p) = CONDITIONAL_BLOCK_OPEN ->
  _parse_block fuel p = OK (n, q) ->
  exists t, In t (_tokens p) /\ Token.type t = CONDITIONAL_BLOCK_CLOSE.
Proof.
  intros HO H. destruct fuel as [|fuel]; [discriminate|].
  cbn [_parse_block] in H. destruct p as [toks cur]. cbn [_token] in HO.
  rewrite !(check_kind _ _ _ _ HO) in H.
  cbn [existsb TokenType.eqb orb] in H.
  exact (parse_conditional_block_needs_close _ (parse_block_post fuel)
           _ _ _ _ H).
Qed.

Lemma conditional_block_without_close_raises (fuel : nat) (p : Parser) :
  Token.type (_token p) = CONDITIONAL_BLOCK_OPEN ->
  no_stray_delimiter (_tokens p) = true ->
  (List.length (stream p) <= fuel)%nat ->
  exists e, _parse_block (S fuel) p = Raise e.
Proof.
  intros HO NS F.
  assert (Sf : no_stray_delimiter (stream p) = true).
  { unfold stream, no_stray_delimiter in *. cbn [forallb]. rewrite NS.
    unfold is_kind. simpl. rewrite HO. reflexivity. }
  pose proof (parse_block_finished fuel p F Sf) as Fin.
  destruct (_parse_block (S fuel) p) as [[n q]|e|] eqn:E.
  - exfalso.
    destruct (conditional_block_needs_close _ _ _ _ HO E) as (t & I & T).
    unfold no_stray_delimiter in NS. rewrite forallb_forall in NS.
    specialize (NS t I). unfold is_kind in NS. simpl in NS.
    rewrite T in NS. discriminate NS.
  - exists e. reflexivity.
  - destruct Fin.
Qed.

Lemma conditional_body_stuck (self : Parser) :
  Token.type (_token self) = FRONT_MATTER ->
  forall k fuel blocks,
    conditional_body (_parse_block k) fuel self blocks = OutOfFuel.
Proof.
  intros H k fuel. induction fuel as [|fuel IH]; intros blocks; [reflexivity|].
  assert (E : forall kinds,
             _check self kinds = existsb (TokenType.eqb FRONT_MATTER) kinds).
  { intros kinds. unfold _check, is_kind. rewrite H. reflexivity. }
  cbn [conditional_body]. unfold _match. rewrite !E.
  cbn [existsb TokenType.eqb orb negb bind].
  destruct k as [|k]; [reflexivity|].
  rewrite (paragraph_consumes_nothing k self)
    by (unfold is_kind; rewrite H; reflexivity).
  cbn [bind]. apply IH.
Qed.

Lemma conditional_block_hangs_on_front_matter (fuel : nat)
  (open_token delimiter : Token) (texts rest : list Token) :
  Token.type open_token = CONDITIONAL_BLOCK_OPEN ->
  PyStr.startswith ":::" (Token.value open_token) = true ->
  allowed_language (block_language open_token) = true ->
  Forall (fun t => Token.type t = TEXT) texts ->
  Token.type delimiter = FRONT_MATTER ->
  _parse_block fuel
    {| _tokens := List.app texts (delimiter :: rest); _token := open_token |}
  = OutOfFuel.
Proof.
  intros HO HP HL HT HD. destruct fuel as [|fuel]; [reflexivity|].
  cbn [_parse_block].
  rewrite !(check_kind _ _ _ _ HO). cbn [existsb TokenType.eqb orb].
  destruct texts as [|first texts]; cbn [List.app].
  - rewrite parse_conditional_block_allowed by assumption.
    match goal with
    | |- bind ?m _ = _ =>
        assert (St : m = OutOfFuel)
          by exact (conditional_body_stuck
                      {| _tokens := rest; _token := delimiter |} HD
                      fuel fuel [])
    end.
    rewrite St. reflexivity.
  - assert (HF : Token.type first = TEXT) by (inversion HT; assumption).
    rewrite parse_conditional_block_allowed by assumption.
    destruct fuel as [|fuel]; [reflexivity|].
    cbn [conditional_body].
    rewrite !(check_kind _ _ _ _ HF). cbn [existsb TokenType.eqb orb negb].
    unfold _match. rewrite !(check_kind _ _ _ _ HF).
    cbn [existsb TokenType.eqb orb bind _parse_block].
    rewrite !(check_kind _ _ _ _ HF). cbn [existsb TokenType.eqb orb].
    rewrite (parse_paragraph_texts (first :: texts) delimiter first rest).
    + cbn [bind fst snd].
      match goal with
      | |- bind ?m _ = _ =>
          assert (St : m = OutOfFuel)
            by exact (conditional_body_stuck
                        {| _tokens := rest; _token := delimiter |} HD
                        (S fuel) fuel _)
      end.
      rewrite St. reflexivity.
    + reflexivity.
    + eapply Forall_impl; [|exact HT]. intros t Ht.
      unfold is_kind. simpl. rewrite Ht. reflexivity.
    + unfold is_kind. simpl. rewrite HD. reflexivity.
    + unfold is_kind. simpl. rewrite HD. reflexivity.
Qed.

Lemma conditional_block_with_unclosed_fence (k : nat)
  (open_token fence eof : Token) (body tail : list Token) :
  Token.type open_token = CONDITIONAL_BLOCK_OPEN ->
  PyStr.startswith ":::" (Token.value open_token) = true ->
  allowed_language (block_language open_token) = true ->
  Token.type fence = FENCE ->
  Forall (fun t => is_kind [FENCE] t = false) body ->
  Token.type eof = EOF ->
  _parse_block (S (S k))
    {| _tokens := fence :: List.app body (eof :: tail);
       _token := open_token |}
  = Raise (unclosed_code_block fence).
Proof.
  intros HO HP HL HF HB HE.
  assert (B : _parse_block (S k)
                {| _tokens := List.app body (eof :: tail); _token := fence |}
              = Raise (unclosed_code_block fence)).
  { rewrite dispatch_fence by exact HF.
    destruct (List.app body (eof :: tail)) as [|first rest] eqn:E.
    { destruct body; discriminate. }
    rewrite parse_code_block_unfold. cbv zeta.
    rewrite (fence_body_unterminated fence _ body eof tail); auto. }
  cbn [_parse_block].
  rewrite !(check_kind _ _ _ _ HO). cbn [existsb TokenType.eqb orb].
  rewrite parse_conditional_block_allowed by assumption.
  cbn [conditional_body].
  rewrite !(check_kind _ _ _ _ HF). cbn [existsb TokenType.eqb orb negb].
  unfold _match. rewrite !(check_kind _ _ _ _ HF).
  cbn [existsb TokenType.eqb orb bind].
  match goal with
  | |- bind (bind ?m _) _ = _ =>
      assert (St : m = Raise (unclosed_code_block fence)) by exact B
  end.
  rewrite St. reflexivity.
Qed.

(** C5, as amended: a conditional block whose language is not [python] or
    [js] fails with a [ValueError]; with an allowed language the block parser
    returns a [ConditionalBlock] holding the blocks its loop collected when
    that loop stops at a close marker, and fails with a [ValueError] when it
    stops at the end of input; the loop itself never looks at an indent, so a
    body of text lines at any indents, closed by a marker at any indent,
    parses to one paragraph; printing emits the opening marker with the
    language, then what the body blocks print under the usual rules of the
    printer, then the closing marker, so that text lines come out as they
    were, up to the whitespace at their ends; inside an indent-scoped body a
    close marker indented deeper than the floor of that body is an error.
    A block without its close marker never parses: a body of text lines that
    runs to the end of the input raises the [ValueError] of the missing
    close marker; a body that opens a fence which the input never closes
    raises the [ParseError] of that fence instead; whenever the tokens after
    the opening marker hold neither a close marker nor a front-matter
    delimiter the block parser raises, given fuel for every token; a block
    that does parse has a close marker among the tokens after its opening
    marker; and a front-matter delimiter in a body of text lines keeps the
    block parser from ever finishing. *)
Theorem conditional_block_language_and_round_trip :
  (forall fuel open_token next rest,
      Token.type open_token = CONDITIONAL_BLOCK_OPEN ->
      allowed_language (block_language open_token) = false ->
      exists msg,
        _parse_block (S fuel)
          {| _tokens := next :: rest; _token := open_token |}
        = Raise (ValueError msg))
  /\ (forall pb fuel open_token next rest blocks self',
        PyStr.startswith ":::" (Token.value open_token) = true ->
        allowed_language (block_language open_token) = true ->
        conditional_body pb fuel {| _tokens := rest; _token := next |} []
        = OK (blocks, self') ->
        (_check self' [CONDITIONAL_BLOCK_CLOSE] = true ->
         forall after tail,
           _tokens self' = after :: tail ->
           _parse_conditional_block pb fuel
             {| _tokens := next :: rest; _token := open_token |}
           = OK (ConditionalBlock (Token.line open_token)
                   (Token.line (_token self') + 1)
                   (block_language open_token) blocks
                   (Token.indent open_token),
                 {| _tokens := tail; _token := after |}))
        /\ (_check self' [CONDITIONAL_BLOCK_CLOSE] = false ->
            _check self' [EOF] = true
            /\ _parse_conditional_block pb fuel
                 {| _tokens := next :: rest; _token := open_token |}
               = Raise (missing_close open_token)))
  /\ (forall k open_token first close_token after texts tail,
        Token.type open_token = CONDITIONAL_BLOCK_OPEN ->
        PyStr.startswith ":::" (Token.value open_token) = true ->
        allowed_language (block_language open_token) = true ->
        Forall (fun t => Token.type t = TEXT) (first :: texts) ->
        Token.type close_token = CONDITIONAL_BLOCK_CLOSE ->
        _parse_block (S (S (S k)))
          {| _tokens :=
               first :: List.app texts (close_token :: after :: tail);
             _token := open_token |}
        = OK (ConditionalBlock (Token.line open_token)
                (Token.line close_token + 1) (block_language open_token)
                [Paragraph (Token.line first) (Token.line close_token)
                   (map Token.value (first :: texts))]
                (Token.indent open_token),
              {| _tokens := tail; _token := after |}))
  /\ (forall s l ind language blocks self self',
        _visit (ConditionalBlock s l language blocks ind) self = OK self' ->
        exists inner body,
          visit_separated _visit blocks (_add_line self (":::" ++ language))
          = OK inner
          /\ output inner
             = List.app (output self)
                 ((indent_of self ++ ":::" ++ language) :: body)
          /\ output self'
             = List.app (output self)
                 ((indent_of self ++ ":::" ++ language)
                  :: List.app body [indent_of self ++ ":::"]))
  /\ (forall s l ind a b language lines self,
        _visit (ConditionalBlock s l language [Paragraph a b lines] ind) self
        = OK {| output :=
                  List.app (output self)
                    (map (fun line => indent_of self ++ line)
                       ((":::" ++ language)
                        :: List.app (map PyStr.strip lines) [":::"]));
                indent_level := indent_level self;
                printed_first_heading := printed_first_heading self |})
  /\ (forall pb fuel min_indent close_token rest blocks,
        Token.type close_token = CONDITIONAL_BLOCK_CLOSE ->
        min_indent < Token.indent close_token ->
        _parse_blocks_until_indent pb (S fuel) min_indent
          {| _tokens := rest; _token := close_token |} blocks
        = Raise (mismatched_close min_indent close_token))
  /\ (forall k open_token eof texts tail,
        Token.type open_token = CONDITIONAL_BLOCK_OPEN ->
        PyStr.startswith ":::" (Token.value open_token) = true ->
        allowed_language (block_language open_token) = true ->
        Forall (fun t => Token.type t = TEXT) texts ->
        Token.type eof = EOF ->
        _parse_block (S (S (S k)))
          {| _tokens := List.app texts (eof :: tail); _token := open_token |}
        = Raise (missing_close open_token))
  /\ (forall k open_token fence eof body tail,
        Token.type open_token = CONDITIONAL_BLOCK_OPEN ->
        PyStr.startswith ":::" (Token.value open_token) = true ->
        allowed_language (block_language open_token) = true ->
        Token.type fence = FENCE ->
        Forall (fun t => is_kind [FENCE] t = false) body ->
        Token.type eof = EOF ->
        _parse_block (S (S k))
          {| _tokens := fence :: List.app body (eof :: tail);
             _token := open_token |}
        = Raise (unclosed_code_block fence))
  /\ (forall fuel p,
        Token.type (_token p) = CONDITIONAL_BLOCK_OPEN ->
        no_stray_delimiter (_tokens p) = true ->
        (List.length (stream p) <= fuel)%nat ->
        exists e, _parse_block (S fuel) p = Raise e)
  /\ (forall fuel p n q,
        Token.type (_token p) = CONDITIONAL_BLOCK_OPEN ->
        _parse_block fuel p = OK (n, q) ->
        exists t,
          In t (_tokens p) /\ Token.type t = CONDITIONAL_BLOCK_CLOSE)
  /\ (forall fuel open_token delimiter texts rest,
        Token.type open_token = CONDITIONAL_BLOCK_OPEN ->
        PyStr.startswith ":::" (Token.value open_token) = true ->
        allowed_language (block_language open_token) = true ->
        Forall (fun t => Token.type t = TEXT) texts ->
        Token.type delimiter = FRONT_MATTER ->
        _parse_block fuel
          {| _tokens := List.app texts (delimiter :: rest);
             _token := open_token |}
        = OutOfFuel).
Proof.
  split; [|split; [|split; [|split; [|split; [|split; [|split; [|split;
    [|split; [|split]]]]]]]]].
  - intros fuel open_token next rest HO HL. cbn [_parse_block].
    rewrite !(check_kind _ _ _ _ HO). cbn [existsb TokenType.eqb orb].
    destruct (PyStr.startswith ":::" (Token.value open_token)) eqn:P.
    + eexists. apply parse_conditional_block_bad_language; assumption.
    + eexists. unfold _parse_conditional_block, _advance.
      cbn [_tokens _token bind]. rewrite P. reflexivity.
  - intros pb fuel open_token next rest blocks self' P L E.
    rewrite parse_conditional_block_allowed by assumption.
    rewrite E. cbn [bind fst snd]. split.
    + intros C after tail T. rewrite C. unfold _advance. rewrite T.
      reflexivity.
    + intros C. rewrite C. split; [|reflexivity].
      destruct (conditional_body_stops _ _ _ _ _ _ E); congruence.
  - intros. apply parse_conditional_text_body; assumption.
  - exact visit_conditionalblock_output.
  - exact visit_conditional_text.
  - intros pb fuel min_indent close_token rest blocks HC HI.
    cbn [_parse_blocks_until_indent].
    rewrite !(check_kind _ _ _ _ HC). cbn [_token].
    rewrite HC. cbn [existsb TokenType.eqb orb negb andb].
    apply Z.gtb_lt in HI. rewrite HI. reflexivity.
  - intros. apply parse_conditional_text_unclosed; assumption.
  - exact conditional_block_with_unclosed_fence.
  - exact conditional_block_without_close_raises.
  - exact conditional_block_needs_close.
  - exact conditional_block_hangs_on_front_matter.
Qed.

Lemma conditional_block_witness :
  let open_token := tok CONDITIONAL_BLOCK_OPEN ":::js" 1 4 in
  let close_token := tok CONDITIONAL_BLOCK_CLOSE ":::" 4 2 in
  _parse_block 3
    {| _tokens :=
         tok TEXT "const a = 1" 2 0
         :: List.app [tok TEXT "const b = 2" 3 8]
              (close_token :: tok EOF "" 5 0 :: []);
       _token := open_token |}
  = OK (ConditionalBlock 1 (4 + 1) "js"
          [Paragraph 2 4 ["const a = 1"; "const b = 2"]] 4,
        {| _tokens := []; _token := tok EOF "" 5 0 |}).
Proof.
  intros open_token close_token.
  destruct conditional_block_language_and_round_trip as (_ & _ & H & _).
  apply (H 0%nat open_token (tok TEXT "const a = 1" 2 0) close_token
           (tok EOF "" 5 0) [tok TEXT "const b = 2" 3 8] []).
  - reflexivity.
  - reflexivity.
  - reflexivity.
  - repeat constructor.
  - reflexivity.
Defined.

(** C5 as stated fails twice.  The body is not re-emitted unchanged: a
    heading inside the block, when it is the first of the document, comes out
    as front matter.  And the indent of the close marker matters: after a list
    item at column 0 a close marker indented deeper is rejected by the item's
    indent-scoped body, although the language is allowed and the block is
    closed. *)
Lemma conditional_body_is_rewritten_and_close_indent_matters :
  to_mint (lex_of heading_in_block_tokens) 3 "doc" None
  = OK (":::python" ++ PyStr.nl ++ "---" ++ PyStr.nl ++ "title: Setup"
        ++ PyStr.nl ++ "---" ++ PyStr.nl ++ ":::" ++ PyStr.nl)
  /\ to_mint (lex_of indented_close_tokens) 5 "doc" None
     = Raise (mismatched_close 0 (tok CONDITIONAL_BLOCK_CLOSE ":::" 3 2)).
Proof. split; reflexivity. Qed.
